(** * Seeding of the events database

    A shallow embedding of the two seeding scripts of the repository,
    [db/psql_init.py] (version 1.1.0, called variant A below) and
    [server/psql_init.py] (version 1.0.0, variant B), and the properties
    of them that the specification states.

    Python code that mutates [self], prints, touches files or talks to
    the database is written in a state-and-exception monad over a record
    of the object's fields and a record of the outside world. *)

From Stdlib Require Import List String Ascii ZArith Bool Arith Lia.
From Stdlib Require Import Permutation Sorting.Mergesort Sorting.Sorted.
Import ListNotations.
Local Open Scope string_scope.
Local Open Scope Z_scope.

(** ** Python values *)

(** [datetime.time] with a zero microsecond part. *)
Record time := mkTime { hour : Z; minute : Z; second : Z }.

(** The values the scripts hand to the database and get back from it.
    A float is represented by an integer that stands for it in the
    numeric order of finite doubles; its arithmetic is never used. *)
Inductive pyval : Type :=
| PyNone
| PyInt (z : Z)
| PyFloat (x : Z)
| PyStr (s : string)
| PyTime (t : time).

Definition time_eqb (a b : time) : bool :=
  (hour a =? hour b) && (minute a =? minute b) && (second a =? second b).

Definition pyval_eqb (a b : pyval) : bool :=
  match a, b with
  | PyNone, PyNone => true
  | PyInt x, PyInt y => x =? y
  | PyFloat x, PyFloat y => x =? y
  | PyStr x, PyStr y => String.eqb x y
  | PyTime x, PyTime y => time_eqb x y
  | _, _ => false
  end.

(** Exceptions, by the class Python or psycopg2 raises. *)
Inductive exn : Type :=
| FileNotFoundError (path : string)
| BadGzipFile (path : string)
| ValueError (msg : string)
| TypeError (msg : string)
| AttributeError (msg : string)
| EOFError
| IndexError (msg : string)
| OperationalError (msg : string)
| ProgrammingError (msg : string)
| IntegrityError (table : string)
| DataError (msg : string).

(** Outcome of a call: a returned value or a raised exception. *)
Inductive outcome (A : Type) : Type :=
| Return (v : A)
| Raise (e : exn).
Arguments Return {A} v.
Arguments Raise {A} e.

(** ** The database server

    SQL text is built by the scripts with [str.format]; here a command is
    a term of [sql] and the [%s] placeholders are the parameter list of
    [execute].  The engine stores a value as it receives it and compares
    stored values by equality; the one conversion the scripts rely on,
    a decimal text written to an INTEGER column, is modelled. *)

Inductive coltype : Type :=
| TEXT | CHAR (n : nat) | DATE | TIME | REAL | DOUBLE_PRECISION | INTEGER.

Inductive sql : Type :=
| DropTable (name : string)
| CreateTable (name : string) (serial : bool)
              (schema : list (string * coltype)) (unique : list string)
| InsertInto (name : string) (fields : list string)
| InsertWhereNotExists (name : string) (fields : list string)
| SelectFrom (return_field : string) (name : string)
             (search_field : option string).

(** A row lists the value of every column: [id] first in a serial table. *)
Definition row := list pyval.

Record Table := mkTable {
  t_serial : bool;
  t_schema : list (string * coltype);
  t_unique : list string;
  t_seq : Z;
  t_rows : list row
}.

Definition tables := list (string * Table).

Fixpoint find_table (name : string) (db : tables) : option Table :=
  match db with
  | [] => None
  | (n, t) :: db' => if String.eqb n name then Some t else find_table name db'
  end.

Fixpoint remove_table (name : string) (db : tables) : tables :=
  match db with
  | [] => []
  | (n, t) :: db' =>
      if String.eqb n name then remove_table name db'
      else (n, t) :: remove_table name db'
  end.

Fixpoint put_table (name : string) (t : Table) (db : tables) : tables :=
  match db with
  | [] => [(name, t)]
  | (n, t') :: db' =>
      if String.eqb n name then (name, t) :: db'
      else (n, t') :: put_table name t db'
  end.

(** Column names of a table in row order. *)
Definition column_names (t : Table) : list string :=
  (if t_serial t then ["id"] else []) ++ map fst (t_schema t).

Definition column_types (t : Table) : list (string * coltype) :=
  (if t_serial t then [("id", INTEGER)] else []) ++ t_schema t.

Fixpoint index_of (name : string) (names : list string) : option nat :=
  match names with
  | [] => None
  | n :: names' =>
      if String.eqb n name then Some O
      else option_map S (index_of name names')
  end.

(** Value of column [name] in row [r] of a table with columns [names]. *)
Definition field_value (names : list string) (name : string) (r : row) : pyval :=
  match index_of name names with
  | Some i => nth i r PyNone
  | None => PyNone
  end.

(** Decimal text of an unsigned integer, and back. *)
Definition digit_of_ascii (c : ascii) : option Z :=
  let n := Z.of_nat (nat_of_ascii c) in
  if (48 <=? n) && (n <=? 57) then Some (n - 48) else None.

Fixpoint int_of_digits (acc : Z) (s : string) : option Z :=
  match s with
  | EmptyString => Some acc
  | String c s' =>
      match digit_of_ascii c with
      | Some d => int_of_digits (10 * acc + d) s'
      | None => None
      end
  end.

Definition int_of_text (s : string) : option Z :=
  match s with
  | EmptyString => None
  | _ => int_of_digits 0 s
  end.

(** What a column of type [ty] stores when it is given [v]. *)
Definition coerce (ty : coltype) (v : pyval) : outcome pyval :=
  match ty, v with
  | INTEGER, PyStr s =>
      match int_of_text s with
      | Some z => Return (PyInt z)
      | None => Raise (DataError s)
      end
  | _, _ => Return v
  end.

Fixpoint coerce_row (tys : list (string * coltype)) (r : row) : outcome row :=
  match tys, r with
  | (_, ty) :: tys', v :: r' =>
      match coerce ty v with
      | Return v' =>
          match coerce_row tys' r' with
          | Return r'' => Return (v' :: r'')
          | Raise e => Raise e
          end
      | Raise e => Raise e
      end
  | _, _ => Return []
  end.

(** Value given for column [name] by an insert naming [fields] with
    parameters [params]; a column that is not named is NULL. *)
Fixpoint param_for (name : string) (fields : list string) (params : list pyval)
  : pyval :=
  match fields, params with
  | f :: fields', p :: params' =>
      if String.eqb f name then p else param_for name fields' params'
  | _, _ => PyNone
  end.

(** Two rows agree on all of [fields]. *)
Definition same_on (names fields : list string) (r1 r2 : row) : bool :=
  forallb (fun f => pyval_eqb (field_value names f r1) (field_value names f r2))
          fields.

Definition violates_unique (t : Table) (r : row) : bool :=
  match t_unique t with
  | [] => false
  | u => existsb (same_on (column_names t) u r) (t_rows t)
  end.

(** [id SERIAL UNIQUE NOT NULL PRIMARY KEY]: no two rows share an id. *)
Definition violates_primary_key (t : Table) (r : row) : bool :=
  t_serial t && existsb (same_on (column_names t) ["id"] r) (t_rows t).

(** Append one row to table [name]; the id of a serial table is drawn
    from its sequence. *)
Definition insert_row (name : string) (fields : list string)
           (params : list pyval) (db : tables) : outcome tables :=
  match find_table name db with
  | None => Raise (ProgrammingError name)
  | Some t =>
      if negb (List.length fields =? List.length params)%nat
      then Raise (ProgrammingError name)
      else if negb (forallb (fun f => existsb (String.eqb f) (map fst (t_schema t)))
                            fields)
      then Raise (ProgrammingError name)
      else
        let given := map (fun c => param_for c fields params)
                         (map fst (t_schema t)) in
        let raw := ((if t_serial t then [PyInt (t_seq t)] else []) ++ given)%list in
        match coerce_row (column_types t) raw with
        | Raise e => Raise e
        | Return r =>
            if violates_primary_key t r || violates_unique t r
            then Raise (IntegrityError name)
            else Return (put_table name
                           (mkTable (t_serial t) (t_schema t) (t_unique t)
                                    (if t_serial t then t_seq t + 1 else t_seq t)
                                    (t_rows t ++ [r])%list)
                           db)
        end
  end.

(** [WHERE f1 = v1 AND f2 = v2 ...] on one row. *)
Fixpoint matches (names fields : list string) (vals : list pyval) (r : row)
  : bool :=
  match fields, vals with
  | f :: fields', v :: vals' =>
      pyval_eqb (field_value names f r) v && matches names fields' vals' r
  | _, _ => true
  end.

(** A table as [CREATE TABLE] leaves it. *)
Definition created (serial : bool) (schema : list (string * coltype))
           (unique : list string) : Table :=
  mkTable serial schema unique 1 [].

(** Rows with the ids [first], [first + 1], ... in front of the values. *)
Fixpoint numbered (first : Z) (values : list (list pyval)) : list row :=
  match values with
  | [] => []
  | v :: values' => (PyInt first :: v) :: numbered (first + 1) values'
  end.

(** A serial table after [values] were appended to it one by one. *)
Definition extended (t : Table) (values : list (list pyval)) : Table :=
  mkTable true (t_schema t) [] (t_seq t + Z.of_nat (List.length values))
          (t_rows t ++ numbered (t_seq t) values).

(** A serial table created empty and then given [values], one row each. *)
Definition filled (schema : list (string * coltype))
           (values : list (list pyval)) : Table :=
  extended (created true schema []) values.

(** What one unconditional insert of [v] does to the tables. *)
Definition append_value (name : string) (v : list pyval) (db : tables) : tables :=
  match find_table name db with
  | Some t => put_table name (extended t [v]) db
  | None => db
  end.

(** The rows [SELECT * FROM t WHERE fields = vals] returns. *)
Definition rows_where (t : Table) (fields : list string) (vals : list pyval)
  : list row :=
  filter (matches (column_names t) fields vals) (t_rows t).

(** [cursor.execute(cmd, params)] on the tables the session sees: the new
    tables and the result set left in the cursor. *)
Definition execute_sql (cmd : sql) (params : list pyval) (db : tables)
  : outcome (tables * list row) :=
  match cmd with
  | DropTable name => Return (remove_table name db, [])
  | CreateTable name serial schema unique =>
      match find_table name db with
      | Some _ => Raise (ProgrammingError name)
      | None => Return (put_table name (created serial schema unique) db, [])
      end
  | InsertInto name fields =>
      match insert_row name fields params db with
      | Return db' => Return (db', [])
      | Raise e => Raise e
      end
  | InsertWhereNotExists name fields =>
      let k := List.length fields in
      match find_table name db with
      | None => Raise (ProgrammingError name)
      | Some t =>
          if negb (List.length params =? 2 * k)%nat
          then Raise (ProgrammingError name)
          else if existsb (matches (column_names t) fields (skipn k params))
                          (t_rows t)
          then Return (db, [])
          else match insert_row name fields (firstn k params) db with
               | Return db' => Return (db', [])
               | Raise e => Raise e
               end
      end
  | SelectFrom return_field name search_field =>
      match find_table name db with
      | None => Raise (ProgrammingError name)
      | Some t =>
          let names := column_names t in
          let hits :=
            match search_field with
            | Some f => filter (matches names [f] params) (t_rows t)
            | None => t_rows t
            end in
          if String.eqb return_field "*" then Return (db, hits)
          else Return (db, map (fun r => [field_value names return_field r]) hits)
      end
  end.

(** ** The outside world and the object *)

(** A file holds text, or the gzip compression of some content. *)
Inductive content : Type :=
| Plain (text : string)
| Gzip (inner : content).

Definition filesystem := list (string * content).

Fixpoint fs_read (path : string) (fs : filesystem) : option content :=
  match fs with
  | [] => None
  | (p, c) :: fs' => if String.eqb p path then Some c else fs_read path fs'
  end.

Fixpoint fs_remove (path : string) (fs : filesystem) : filesystem :=
  match fs with
  | [] => []
  | (p, c) :: fs' =>
      if String.eqb p path then fs_remove path fs'
      else (p, c) :: fs_remove path fs'
  end.

Definition fs_write (path : string) (c : content) (fs : filesystem)
  : filesystem := (path, c) :: fs_remove path fs.

Definition fs_exists (path : string) (fs : filesystem) : bool :=
  match fs_read path fs with Some _ => true | None => false end.

Record World := mkWorld {
  files : filesystem;
  (** every write of a gzip file, oldest first *)
  gzip_writes : list string;
  (** lines the operator will type *)
  stdin : list string;
  (** text printed so far, oldest first *)
  stdout : list string;
  (** which (database, user, password) the server accepts *)
  db_login : string -> string -> string -> bool;
  (** tables as the open session sees them *)
  db_session : tables;
  (** tables as last committed *)
  db_durable : tables;
  (** number of commits issued *)
  db_commits : nat;
  (** result set held by the cursor *)
  cur_rows : list row;
  (** numpy's reader: text, delimiter, skip_header, usecols to the
      selected columns of every data line, as texts *)
  np_genfromtxt : string -> string -> nat -> list nat
                  -> outcome (list (list string));
  (** numpy's conversion of a text to a float *)
  np_float : string -> Z;
  (** what an array that was allocated and not filled holds at a row
      and a column *)
  np_garbage : nat -> nat -> string
}.

Module Loc.
(** One parsed line of [us_postal_codes.csv]; the coordinates are texts
    in variant A (dtype U9) and floats in variant B (dtype f8). *)
Record LocationRecord := mk {
  postal_code : string;
  city : string;
  state : string;
  latitude : pyval;
  longitude : pyval
}.
End Loc.

(** The fields [__init__] declares; [None] there is [None] here, except
    for [conn] and [cur], which are [true] once opened. *)
Record PostgresInitialize := mkSelf {
  city : option (list pyval);
  conn : bool;
  country : option (list (string * string));
  csv_file : option string;
  csv_zipped : bool;
  cur : bool;
  db_name : string;
  db_pwd : option string;
  db_user : option string;
  latitude : option (list pyval);
  location_data : option (list Loc.LocationRecord);
  longitude : option (list pyval);
  state : option (list pyval);
  postal_code : option (list pyval);
  time_ : option (list time)
}.

Definition __init__ : PostgresInitialize :=
  mkSelf None false None None true false "iCP_events" None None
         None None None None None None.

Record State := mkState { self : PostgresInitialize; world : World }.

(** A method: from a state to an outcome and the state it leaves. *)
Definition M (A : Type) : Type := State -> outcome A * State.

Definition ret {A} (v : A) : M A := fun s => (Return v, s).
Definition raise {A} (e : exn) : M A := fun s => (Raise e, s).
Definition bind {A B} (m : M A) (k : A -> M B) : M B :=
  fun s => match m s with
           | (Return v, s') => k v s'
           | (Raise e, s') => (Raise e, s')
           end.

Notation "x <- m ;; k" := (bind m (fun x => k))
  (at level 61, m at next level, right associativity).
Notation "m ;; k" := (bind m (fun _ => k))
  (at level 61, right associativity).

Definition get_self : M PostgresInitialize := fun s => (Return (self s), s).
Definition get_world : M World := fun s => (Return (world s), s).
Definition put_self (o : PostgresInitialize) : M unit :=
  fun s => (Return tt, mkState o (world s)).
Definition put_world (w : World) : M unit :=
  fun s => (Return tt, mkState (self s) w).
Definition modify_self (f : PostgresInitialize -> PostgresInitialize) : M unit :=
  fun s => (Return tt, mkState (f (self s)) (world s)).
Definition modify_world (f : World -> World) : M unit :=
  fun s => (Return tt, mkState (self s) (f (world s))).

(** [for x in xs: body(x)], also the list comprehensions run for effect. *)
Fixpoint for_each {A} (xs : list A) (body : A -> M unit) : M unit :=
  match xs with
  | [] => ret tt
  | x :: xs' => body x ;; for_each xs' body
  end.

(** A call whose value is not used. *)
Definition void {A} (m : M A) : M unit := m ;; ret tt.

(** The calls of [steps], one after the other. *)
Definition in_order (steps : list (M unit)) : M unit :=
  for_each steps (fun step => step).

(** [stops steps s e s']: started in [s], the calls before some call of
    [steps] return, that call raises [e], and [s'] is the state it
    leaves. *)
Inductive stops : list (M unit) -> State -> exn -> State -> Prop :=
| stops_here (m : M unit) rest s e s' :
    m s = (Raise e, s') -> stops (m :: rest) s e s'
| stops_later (m : M unit) rest s v s1 e s' :
    m s = (Return v, s1) -> stops rest s1 e s' -> stops (m :: rest) s e s'.

(** Iterating over a field that is still [None] is a TypeError. *)
Definition iter {A} (field : option (list A)) : M (list A) :=
  match field with
  | Some xs => ret xs
  | None => raise (TypeError "'NoneType' object is not iterable")
  end.

(** *** Field updates *)

Definition set_files (v : filesystem) (w : World) : World :=
  mkWorld v (gzip_writes w) (stdin w) (stdout w) (db_login w) (db_session w)
          (db_durable w) (db_commits w) (cur_rows w) (np_genfromtxt w) (np_float w)
          (np_garbage w).
Definition set_gzip_writes (v : list string) (w : World) : World :=
  mkWorld (files w) v (stdin w) (stdout w) (db_login w) (db_session w)
          (db_durable w) (db_commits w) (cur_rows w) (np_genfromtxt w) (np_float w)
          (np_garbage w).
Definition set_stdin (v : list string) (w : World) : World :=
  mkWorld (files w) (gzip_writes w) v (stdout w) (db_login w) (db_session w)
          (db_durable w) (db_commits w) (cur_rows w) (np_genfromtxt w) (np_float w)
          (np_garbage w).
Definition set_stdout (v : list string) (w : World) : World :=
  mkWorld (files w) (gzip_writes w) (stdin w) v (db_login w) (db_session w)
          (db_durable w) (db_commits w) (cur_rows w) (np_genfromtxt w) (np_float w)
          (np_garbage w).
Definition set_db_session (v : tables) (w : World) : World :=
  mkWorld (files w) (gzip_writes w) (stdin w) (stdout w) (db_login w) v
          (db_durable w) (db_commits w) (cur_rows w) (np_genfromtxt w) (np_float w)
          (np_garbage w).
Definition set_db_durable (v : tables) (w : World) : World :=
  mkWorld (files w) (gzip_writes w) (stdin w) (stdout w) (db_login w)
          (db_session w) v (db_commits w) (cur_rows w) (np_genfromtxt w) (np_float w)
          (np_garbage w).
Definition set_db_commits (v : nat) (w : World) : World :=
  mkWorld (files w) (gzip_writes w) (stdin w) (stdout w) (db_login w)
          (db_session w) (db_durable w) v (cur_rows w) (np_genfromtxt w) (np_float w)
          (np_garbage w).
Definition set_cur_rows (v : list row) (w : World) : World :=
  mkWorld (files w) (gzip_writes w) (stdin w) (stdout w) (db_login w)
          (db_session w) (db_durable w) (db_commits w) v (np_genfromtxt w) (np_float w)
          (np_garbage w).

Definition set_city v (o : PostgresInitialize) : PostgresInitialize :=
  mkSelf v (conn o) (country o) (csv_file o) (csv_zipped o) (cur o) (db_name o)
         (db_pwd o) (db_user o) (latitude o) (location_data o) (longitude o)
         (state o) (postal_code o) (time_ o).
Definition set_conn v (o : PostgresInitialize) : PostgresInitialize :=
  mkSelf (city o) v (country o) (csv_file o) (csv_zipped o) (cur o) (db_name o)
         (db_pwd o) (db_user o) (latitude o) (location_data o) (longitude o)
         (state o) (postal_code o) (time_ o).
Definition set_country v (o : PostgresInitialize) : PostgresInitialize :=
  mkSelf (city o) (conn o) v (csv_file o) (csv_zipped o) (cur o) (db_name o)
         (db_pwd o) (db_user o) (latitude o) (location_data o) (longitude o)
         (state o) (postal_code o) (time_ o).
Definition set_csv_file v (o : PostgresInitialize) : PostgresInitialize :=
  mkSelf (city o) (conn o) (country o) v (csv_zipped o) (cur o) (db_name o)
         (db_pwd o) (db_user o) (latitude o) (location_data o) (longitude o)
         (state o) (postal_code o) (time_ o).
Definition set_csv_zipped v (o : PostgresInitialize) : PostgresInitialize :=
  mkSelf (city o) (conn o) (country o) (csv_file o) v (cur o) (db_name o)
         (db_pwd o) (db_user o) (latitude o) (location_data o) (longitude o)
         (state o) (postal_code o) (time_ o).
Definition set_cur v (o : PostgresInitialize) : PostgresInitialize :=
  mkSelf (city o) (conn o) (country o) (csv_file o) (csv_zipped o) v (db_name o)
         (db_pwd o) (db_user o) (latitude o) (location_data o) (longitude o)
         (state o) (postal_code o) (time_ o).
Definition set_db_pwd v (o : PostgresInitialize) : PostgresInitialize :=
  mkSelf (city o) (conn o) (country o) (csv_file o) (csv_zipped o) (cur o)
         (db_name o) v (db_user o) (latitude o) (location_data o) (longitude o)
         (state o) (postal_code o) (time_ o).
Definition set_db_user v (o : PostgresInitialize) : PostgresInitialize :=
  mkSelf (city o) (conn o) (country o) (csv_file o) (csv_zipped o) (cur o)
         (db_name o) (db_pwd o) v (latitude o) (location_data o) (longitude o)
         (state o) (postal_code o) (time_ o).
Definition set_latitude v (o : PostgresInitialize) : PostgresInitialize :=
  mkSelf (city o) (conn o) (country o) (csv_file o) (csv_zipped o) (cur o)
         (db_name o) (db_pwd o) (db_user o) v (location_data o) (longitude o)
         (state o) (postal_code o) (time_ o).
Definition set_location_data v (o : PostgresInitialize) : PostgresInitialize :=
  mkSelf (city o) (conn o) (country o) (csv_file o) (csv_zipped o) (cur o)
         (db_name o) (db_pwd o) (db_user o) (latitude o) v (longitude o)
         (state o) (postal_code o) (time_ o).
Definition set_longitude v (o : PostgresInitialize) : PostgresInitialize :=
  mkSelf (city o) (conn o) (country o) (csv_file o) (csv_zipped o) (cur o)
         (db_name o) (db_pwd o) (db_user o) (latitude o) (location_data o) v
         (state o) (postal_code o) (time_ o).
Definition set_state v (o : PostgresInitialize) : PostgresInitialize :=
  mkSelf (city o) (conn o) (country o) (csv_file o) (csv_zipped o) (cur o)
         (db_name o) (db_pwd o) (db_user o) (latitude o) (location_data o)
         (longitude o) v (postal_code o) (time_ o).
Definition set_postal_code v (o : PostgresInitialize) : PostgresInitialize :=
  mkSelf (city o) (conn o) (country o) (csv_file o) (csv_zipped o) (cur o)
         (db_name o) (db_pwd o) (db_user o) (latitude o) (location_data o)
         (longitude o) (state o) v (time_ o).
Definition set_time v (o : PostgresInitialize) : PostgresInitialize :=
  mkSelf (city o) (conn o) (country o) (csv_file o) (csv_zipped o) (cur o)
         (db_name o) (db_pwd o) (db_user o) (latitude o) (location_data o)
         (longitude o) (state o) (postal_code o) v.

(** ** Pieces of Python and of its libraries *)

Definition newline : string := String (ascii_of_nat 10) "".
Definition carriage_return : ascii := ascii_of_nat 13.

(** [print(msg)] *)
Definition print (msg : string) : M unit :=
  modify_world (fun w => set_stdout (stdout w ++ [msg])%list w).

(** [try: body finally: handler] *)
Definition try_finally {A} (body : M A) (handler : M unit) : M A :=
  fun s => match body s with
           | (Return v, s') =>
               match handler s' with
               | (Return _, s'') => (Return v, s'')
               | (Raise e, s'') => (Raise e, s'')
               end
           | (Raise e, s') =>
               match handler s' with
               | (Return _, s'') => (Raise e, s'')
               | (Raise e', s'') => (Raise e', s'')
               end
           end.

(** [input(prompt)] *)
Definition input (prompt : string) : M string :=
  print prompt ;;
  w <- get_world ;;
  match stdin w with
  | [] => raise EOFError
  | line :: rest => modify_world (set_stdin rest) ;; ret line
  end.

(** [s.replace('\r', '')] *)
Fixpoint remove_cr (s : string) : string :=
  match s with
  | EmptyString => EmptyString
  | String c s' =>
      if Ascii.eqb c carriage_return then remove_cr s'
      else String c (remove_cr s')
  end.

(** ['{}'.format(self.csv_file)] *)
Definition format_name (name : option string) : string :=
  match name with Some n => n | None => "None" end.

(** [open(self.csv_file, mode)]: the path must be a string. *)
Definition path_of (name : option string) : M string :=
  match name with
  | Some n => ret n
  | None => raise (TypeError "expected str, bytes or os.PathLike object")
  end.

(** numpy keeps at most [n] characters in a field of dtype [Un]. *)
Definition U (n : nat) (s : string) : string := substring 0 n s.

(** [str(z)] for an integer that is not negative. *)
Fixpoint digits_of_pos (fuel : nat) (z : Z) (acc : string) : string :=
  match fuel with
  | O => acc
  | S fuel' =>
      let acc' := String (ascii_of_nat (Z.to_nat (48 + z mod 10))) acc in
      if z <? 10 then acc' else digits_of_pos fuel' (z / 10) acc'
  end.

Definition str_of_int (z : Z) : string :=
  digits_of_pos (S (Z.to_nat (Z.log2 z))) z "".

(** [str(v)] for a value read from the database.  The text of a float
    or of a time is not modelled. *)
Definition str (v : pyval) : option string :=
  match v with
  | PyStr s => Some s
  | PyInt z => Some (str_of_int z)
  | PyNone => Some "None"
  | PyFloat _ | PyTime _ => None
  end.

(** The order numpy sorts by. *)
Definition time_key (t : time) : Z := (hour t * 60 + minute t) * 60 + second t.

Definition pyval_rank (v : pyval) : Z :=
  match v with
  | PyNone => 0 | PyInt _ => 1 | PyFloat _ => 2 | PyStr _ => 3 | PyTime _ => 4
  end.

Definition pyval_leb (a b : pyval) : bool :=
  match a, b with
  | PyInt x, PyInt y => x <=? y
  | PyFloat x, PyFloat y => x <=? y
  | PyStr x, PyStr y => String.leb x y
  | PyTime x, PyTime y => time_key x <=? time_key y
  | _, _ => pyval_rank a <=? pyval_rank b
  end.

Fixpoint insert_sorted (x : pyval) (l : list pyval) : list pyval :=
  match l with
  | [] => [x]
  | y :: l' => if pyval_leb x y then x :: y :: l' else y :: insert_sorted x l'
  end.

Fixpoint drop_repeats (l : list pyval) : list pyval :=
  match l with
  | [] => []
  | x :: l' =>
      if existsb (pyval_eqb x) l' then drop_repeats l'
      else x :: drop_repeats l'
  end.

(** [np.unique(a)]: the distinct elements of [a], sorted. *)
Definition np_unique (a : list pyval) : list pyval :=
  fold_right insert_sorted [] (drop_repeats a).

(** ** What the two scripts share *)

(** The decorator [status()] applied to [func], whose [__name__] is
    [name].  The wrapper has no [return]: it returns [None]. *)
Definition status {A} (name : string) (func : M A) : M pyval :=
  try_finally
    (print (newline ++ "Execute: " ++ name) ;;
     _ <- func ;;
     ret tt)
    (print ("Complete: " ++ name ++ newline)) ;;
  ret PyNone.

Definition get_password : M unit :=
  line <- input "Enter database password: " ;;
  modify_self (set_db_pwd (Some line)).

Definition get_user : M unit :=
  line <- input "Enter database user name: " ;;
  modify_self (set_db_user (Some line)) ;;
  o <- get_self ;;
  match db_user o with
  | Some "" => modify_self (set_db_user (Some "Tim"))
  | _ => ret tt
  end.

(** [gzip.open(path, 'r').read().decode()] *)
Definition gzip_read (path : string) : M string :=
  w <- get_world ;;
  match fs_read path (files w) with
  | None => raise (FileNotFoundError path)
  | Some (Plain _) => raise (BadGzipFile path)
  | Some (Gzip (Plain text)) => ret text
  | Some (Gzip (Gzip _)) => raise (ValueError "'utf-8' codec can't decode")
  end.

(** [open(path, 'w').write(text)] *)
Definition write_text (path : string) (text : string) : M unit :=
  modify_world (fun w => set_files (fs_write path (Plain text) (files w)) w).

Definition unzip : M unit :=
  o <- get_self ;;
  if csv_zipped o then
    csv_data <- gzip_read (format_name (csv_file o) ++ ".gz") ;;
    let csv_data := remove_cr csv_data in
    path <- path_of (csv_file o) ;;
    write_text path csv_data
  else ret tt.

(** [os.remove(path)] *)
Definition os_remove (path : string) : M unit :=
  w <- get_world ;;
  if fs_exists path (files w)
  then modify_world (set_files (fs_remove path (files w)))
  else raise (FileNotFoundError path).

(** [shutil.copyfileobj(open(src, 'rb'), gzip.open(dst, 'wb'))] *)
Definition gzip_copy (src dst : string) : M unit :=
  w <- get_world ;;
  match fs_read src (files w) with
  | None => raise (FileNotFoundError src)
  | Some c =>
      modify_world (fun w => set_gzip_writes (gzip_writes w ++ [dst])%list
                               (set_files (fs_write dst (Gzip c) (files w)) w))
  end.

(** [zip_file] of variant A, [zip] of variant B: the same body. *)
Definition zip_file : M unit :=
  o <- get_self ;;
  (if negb (csv_zipped o) then
     src <- path_of (csv_file o) ;;
     gzip_copy src (format_name (csv_file o) ++ ".gz")
   else ret tt) ;;
  path <- path_of (csv_file o) ;;
  os_remove path.

(** The conversion of the selected columns to the dtype
    [[('abbr', 'U2'), ('name', 'U50')]]. *)
Fixpoint as_countries (rows : list (list string))
  : outcome (list (string * string)) :=
  match rows with
  | [] => Return []
  | [abbr; name] :: rows' =>
      match as_countries rows' with
      | Return rest => Return ((U 2 abbr, U 50 name) :: rest)
      | Raise e => Raise e
      end
  | _ :: _ => Raise (ValueError "Some errors were detected !")
  end.

(** The conversion to the dtype of the location records: three texts of
    dtype U5, U30 and U2, and two coordinates converted by [coordinate]. *)
Fixpoint as_locations (coordinate : string -> pyval) (rows : list (list string))
  : outcome (list Loc.LocationRecord) :=
  match rows with
  | [] => Return []
  | [postal_code; city; state; latitude; longitude] :: rows' =>
      match as_locations coordinate rows' with
      | Return rest =>
          Return (Loc.mk (U 5 postal_code) (U 30 city) (U 2 state)
                         (coordinate latitude) (coordinate longitude) :: rest)
      | Raise e => Raise e
      end
  | _ :: _ => Raise (ValueError "Some errors were detected !")
  end.

(** [np.genfromtxt(self.csv_file, dtype=..., delimiter=...,
    skip_header=..., usecols=...)] *)
Definition genfromtxt {R} (dtype : list (list string) -> outcome R)
           (delimiter : string) (skip_header : nat) (usecols : list nat) : M R :=
  o <- get_self ;;
  w <- get_world ;;
  path <- path_of (csv_file o) ;;
  match fs_read path (files w) with
  | None => raise (FileNotFoundError path)
  | Some (Gzip _) => raise (ValueError "'utf-8' codec can't decode")
  | Some (Plain text) =>
      match np_genfromtxt w text delimiter skip_header usecols with
      | Return rows =>
          match dtype rows with
          | Return records => ret records
          | Raise e => raise e
          end
      | Raise e => raise e
      end
  end.

(** [datetime.datetime]: day number and second of the day. *)
Record datetime := mkDatetime { dt_day : Z; dt_second : Z }.

(** [datetime.timedelta], in seconds. *)
Definition timedelta := Z.

Definition minutes (n : Z) : timedelta := 60 * n.

(** [day + delta] *)
Definition datetime_add (d : datetime) (delta : timedelta) : datetime :=
  let total := dt_second d + delta in
  mkDatetime (dt_day d + total / 86400) (total mod 86400).

(** [x.time()] *)
Definition datetime_time (d : datetime) : time :=
  mkTime (dt_second d / 3600) (dt_second d mod 3600 / 60) (dt_second d mod 60).

(** [range(n)] *)
Definition range (n : nat) : list Z := map Z.of_nat (seq 0 n).

(** The list [load_times] stores in [self.time]. *)
Definition day_times : list time :=
  let day := mkDatetime 1 0 in
  let delta := minutes 5 in
  let day_time := map (fun x => datetime_add day (delta * x)) (range 288) in
  map datetime_time day_time.

Definition load_times : M pyval :=
  status "load_times" (modify_self (set_time (Some day_times))).

(** [psycopg2.connect(...)] and [conn.cursor()] *)
Definition psql_connection : M unit :=
  o <- get_self ;;
  w <- get_world ;;
  if db_login w (db_name o) (format_name (db_user o)) (format_name (db_pwd o))
  then
    modify_world (set_db_session (db_durable w)) ;;
    modify_self (set_conn true) ;;
    modify_self (set_cur true)
  else raise (OperationalError "connection failed").

(** [self.cur.execute(cmd, params)] *)
Definition cur_execute (cmd : sql) (params : list pyval) : M unit :=
  o <- get_self ;;
  w <- get_world ;;
  if cur o then
    match execute_sql cmd params (db_session w) with
    | Return (db, rows) =>
        modify_world (fun w => set_cur_rows rows (set_db_session db w))
    | Raise e => raise e
    end
  else raise (AttributeError "'NoneType' object has no attribute 'execute'").

(** [self.cur.fetchall()] *)
Definition cur_fetchall : M (list row) :=
  o <- get_self ;;
  w <- get_world ;;
  if cur o then modify_world (set_cur_rows []) ;; ret (cur_rows w)
  else raise (AttributeError "'NoneType' object has no attribute 'fetchall'").

(** [self.conn.commit()] *)
Definition conn_commit : M unit :=
  o <- get_self ;;
  if conn o then
    modify_world (fun w => set_db_commits (S (db_commits w))
                             (set_db_durable (db_session w) w))
  else raise (AttributeError "'NoneType' object has no attribute 'commit'").

(** ** Variant A: [db/psql_init.py] *)

Module Db.

(** ['if search_field:'] is false for [None] and for the empty text. *)
Definition table_select (table_name : string) (return_field : string)
           (search_field : option string) (search_value : pyval)
  : M (list row) :=
  (match search_field with
   | Some "" | None => cur_execute (SelectFrom return_field table_name None) []
   | Some f =>
       cur_execute (SelectFrom return_field table_name (Some f)) [search_value]
   end) ;;
  cur_fetchall.

Definition table_insert (name : string) (field_names : list string) : sql :=
  InsertInto name field_names.

Definition load_countries : M pyval :=
  status "load_countries"
    (modify_self (set_csv_file (Some "countries.csv")) ;;
     unzip ;;
     country <- genfromtxt as_countries ", " 0 [0; 1]%nat ;;
     zip_file ;;
     modify_self (set_country (Some country))).

Definition load_locations : M pyval :=
  status "load_locations"
    (modify_self (set_csv_file (Some "us_postal_codes.csv")) ;;
     unzip ;;
     loc <- genfromtxt (as_locations (fun text => PyStr (U 9 text)))
                       "," 1 [0; 1; 3; 5; 6]%nat ;;
     zip_file ;;
     modify_self (set_location_data (Some loc)) ;;
     modify_self (set_city (Some (np_unique (map (fun r => PyStr (Loc.city r)) loc)))) ;;
     modify_self (set_state (Some (np_unique (map (fun r => PyStr (Loc.state r)) loc)))) ;;
     modify_self (set_postal_code
                    (Some (np_unique (map (fun r => PyStr (Loc.postal_code r)) loc)))) ;;
     modify_self (set_latitude (Some (np_unique (map Loc.latitude loc)))) ;;
     modify_self (set_longitude (Some (np_unique (map Loc.longitude loc))))).

Definition table_create (name : string) (schema : list (string * coltype))
           (serial : bool) (unique : list string) : sql :=
  CreateTable name serial schema unique.

Definition table_drop (name : string) : sql := DropTable name.

Definition lookup_tables : list (string * list (string * coltype)) :=
  [("city", [("value", TEXT)]);
   ("country", [("value", CHAR 2); ("name", TEXT)]);
   ("event", [("value", TEXT)]);
   ("event_date", [("value", DATE)]);
   ("event_time", [("value", TIME)]);
   ("latitude", [("value", DOUBLE_PRECISION)]);
   ("longitude", [("value", DOUBLE_PRECISION)]);
   ("postal_code", [("value", CHAR 5)]);
   ("state", [("value", CHAR 2)]);
   ("url", [("value", TEXT)])].

Definition composite : list (string * coltype) :=
  [("event", INTEGER); ("city", INTEGER); ("state", INTEGER);
   ("postal_code", INTEGER); ("country", INTEGER); ("latitude", INTEGER);
   ("longitude", INTEGER); ("event_date", INTEGER); ("event_time", INTEGER);
   ("url", INTEGER)].

Definition psql_tables : M pyval :=
  status "psql_tables"
    (for_each lookup_tables (fun x => cur_execute (table_drop (fst x)) []) ;;
     for_each lookup_tables
       (fun x => cur_execute (table_create (fst x) (snd x) true []) []) ;;
     for_each ["address"; "events"] (fun x => cur_execute (table_drop x) []) ;;
     cur_execute
       (table_create "address"
          (filter (fun x => existsb (String.eqb (fst x))
                              ["city"; "state"; "postal_code"; "latitude";
                               "longitude"])
                  composite)
          false ["city"; "state"; "postal_code"]) [] ;;
     cur_execute
       (table_create "events" composite false
          ["event"; "city"; "postal_code"; "event_date"]) []).

(** [eval('self.location_data.{}'.format(name))], one element. *)
Definition loc_column (name : string) (r : Loc.LocationRecord)
  : option pyval :=
  if String.eqb name "postal_code" then Some (PyStr (Loc.postal_code r))
  else if String.eqb name "city" then Some (PyStr (Loc.city r))
  else if String.eqb name "state" then Some (PyStr (Loc.state r))
  else if String.eqb name "latitude" then Some (Loc.latitude r)
  else if String.eqb name "longitude" then Some (Loc.longitude r)
  else None.

(** One element of [mask == str(value)]. *)
Definition mask_eq (element : option pyval) (value : pyval) : bool :=
  match element, str value with
  | Some (PyStr m), Some s => String.eqb m s
  | _, _ => false
  end.

Definition fields : list string :=
  ["postal_code"; "city"; "state"; "latitude"; "longitude"].

(** [addresses]: one text of dtype U6 per field and record. *)
Definition recarray := list (list string).

Fixpoint set_nth (i : nat) (v : string) (a : list string) : list string :=
  match i, a with
  | _, [] => []
  | O, _ :: a' => v :: a'
  | S i', x :: a' => x :: set_nth i' v a'
  end.

(** [field[mask == str(values[1])] = values[0]] for the column at
    index [i] of [addresses]. *)
Fixpoint assign_where (name : string) (i : nat) (value : pyval) (new : string)
         (data : list Loc.LocationRecord) (addresses : recarray) : recarray :=
  match data, addresses with
  | r :: data', a :: addresses' =>
      (if mask_eq (loc_column name r) value then set_nth i new a else a)
        :: assign_where name i value new data' addresses'
  | _, _ => addresses
  end.

(** [for values in rows: field[mask == str(values[1])] = values[0]]
    where [field] is the column at index [i] of [addresses]. *)
Fixpoint substitute (name : string) (i : nat) (data : list Loc.LocationRecord)
         (rows : list row) (addresses : recarray) : M recarray :=
  match rows with
  | [] => ret addresses
  | values :: rows' =>
      match values with
      | id :: value :: _ =>
          match str id with
          | Some new =>
              substitute name i data rows'
                         (assign_where name i value (U 6 new) data addresses)
          | None => raise (TypeError "text of the value is not modelled")
          end
      | _ => raise (IndexError "tuple index out of range")
      end
  end.

Definition idx_sub (name : string) (translate : list row)
           (addresses : recarray) : M recarray :=
  o <- get_self ;;
  match index_of name fields, location_data o with
  | Some i, Some data =>
      print ("   " ++ name) ;;
      rows <- table_select name "*" None PyNone ;;
      substitute name i data rows addresses
  | _, _ => raise (AttributeError name)
  end.

(** [for field in names: idx_sub(field, self.table_select(field))] *)
Fixpoint resolve (names : list string) (addresses : recarray) : M recarray :=
  match names with
  | [] => ret addresses
  | field :: names' =>
      translate <- table_select field "*" None PyNone ;;
      addresses' <- idx_sub field translate addresses ;;
      resolve names' addresses'
  end.

Definition psql_address : M pyval :=
  status "psql_address"
    (o <- get_self ;;
     w <- get_world ;;
     match location_data o with
     | None => raise (AttributeError "'NoneType' object has no attribute 'shape'")
     | Some data =>
         let addresses : recarray :=
           map (fun i => map (np_garbage w i) (seq 0 (List.length fields)))
               (seq 0 (List.length data)) in
         addresses <- resolve fields addresses ;;
         for_each addresses
           (fun a => cur_execute (table_insert "address" fields) (map PyStr a))
     end).

Definition psql_city : M pyval :=
  status "psql_city"
    (o <- get_self ;;
     xs <- iter (city o) ;;
     for_each xs (fun x => cur_execute (table_insert "city" ["value"]) [x])).

Definition psql_country : M pyval :=
  status "psql_country"
    (o <- get_self ;;
     xs <- iter (country o) ;;
     for_each xs (fun xy => cur_execute (table_insert "country" ["value"; "name"])
                              [PyStr (fst xy); PyStr (snd xy)])).

Definition psql_latitude : M pyval :=
  status "psql_latitude"
    (o <- get_self ;;
     xs <- iter (latitude o) ;;
     for_each xs (fun x => cur_execute (table_insert "latitude" ["value"]) [x])).

Definition psql_longitude : M pyval :=
  status "psql_longitude"
    (o <- get_self ;;
     xs <- iter (longitude o) ;;
     for_each xs (fun x => cur_execute (table_insert "longitude" ["value"]) [x])).

Definition psql_postal_code : M pyval :=
  status "psql_postal_code"
    (o <- get_self ;;
     xs <- iter (postal_code o) ;;
     for_each xs (fun x => cur_execute (table_insert "postal_code" ["value"]) [x])).

Definition psql_state : M pyval :=
  status "psql_state"
    (o <- get_self ;;
     xs <- iter (state o) ;;
     for_each xs (fun x => cur_execute (table_insert "state" ["value"]) [x])).

Definition psql_times : M pyval :=
  status "psql_times"
    (o <- get_self ;;
     xs <- iter (time_ o) ;;
     for_each xs (fun x => cur_execute (table_insert "event_time" ["value"])
                             [PyTime x])).

Definition initiate_db : M unit :=
  load_countries ;;
  load_locations ;;
  load_times ;;
  get_user ;;
  get_password ;;
  psql_connection ;;
  psql_tables ;;
  psql_city ;;
  psql_country ;;
  psql_latitude ;;
  psql_longitude ;;
  psql_postal_code ;;
  psql_state ;;
  psql_times ;;
  psql_address ;;
  conn_commit.

(** The calls of [initiate_db] before the commit, in order. *)
Definition steps : list (M unit) :=
  [void load_countries; void load_locations; void load_times;
   get_user; get_password; psql_connection; void psql_tables;
   void psql_city; void psql_country; void psql_latitude;
   void psql_longitude; void psql_postal_code; void psql_state;
   void psql_times; void psql_address].

(** The array [substitute] returns when it returns. *)
Fixpoint substituted (name : string) (i : nat) (data : list Loc.LocationRecord)
         (rows : list row) (addresses : recarray) : recarray :=
  match rows with
  | (id :: value :: _) :: rows' =>
      match str id with
      | Some new =>
          substituted name i data rows'
                      (assign_where name i value (U 6 new) data addresses)
      | None => addresses
      end
  | _ => addresses
  end.

(** The array [resolve] returns when it returns, [db] being the tables. *)
Definition resolved (names : list string) (data : list Loc.LocationRecord)
           (db : tables) (addresses : recarray) : recarray :=
  fold_left (fun a name =>
               match index_of name fields, find_table name db with
               | Some i, Some t => substituted name i data (t_rows t) a
               | _, _ => a
               end)
            names addresses.

(** The id of the last row that [element] selects, among rows numbered
    from [k] that hold [values]; [found] when it selects none. *)
Fixpoint last_match (element : option pyval) (k : Z) (values : list pyval)
         (found : option Z) : option Z :=
  match values with
  | [] => found
  | v :: values' =>
      last_match element (k + 1) values'
                 (if mask_eq element v then Some k else found)
  end.

(** An element of [addresses] after the id [found], if any, was written
    to its column [i]. *)
Definition written (i : nat) (found : option Z) (a : list string) : list string :=
  match found with
  | Some id => set_nth i (U 6 (str_of_int id)) a
  | None => a
  end.

(** The columns of the address table, in the order of its creation. *)
Definition address_schema : list (string * coltype) :=
  filter (fun x => existsb (String.eqb (fst x))
                     ["city"; "state"; "postal_code"; "latitude"; "longitude"])
         composite.

(** The row of the address table an element of [addresses] becomes: its
    texts in the order of the columns, read as integers. *)
Definition address_row (a : list string) : option row :=
  match a with
  | [postal_code; city; state; latitude; longitude] =>
      match int_of_text city, int_of_text state, int_of_text postal_code,
            int_of_text latitude, int_of_text longitude with
      | Some c, Some s, Some p, Some la, Some lo =>
          Some [PyInt c; PyInt s; PyInt p; PyInt la; PyInt lo]
      | _, _, _, _, _ => None
      end
  | _ => None
  end.

(** The lookup tables of variant A after a run that loaded [countries]
    and [loc]: one row per distinct value, numbered from 1, in the tables
    the run populates, and no row in the others. *)
Definition seeded (countries : list (string * string))
           (loc : list Loc.LocationRecord) (db : tables) : Prop :=
  find_table "city" db
  = Some (filled [("value", TEXT)]
                 (map (fun x => [x])
                      (np_unique (map (fun r => PyStr (Loc.city r)) loc))))
  /\ find_table "country" db
     = Some (filled [("value", CHAR 2); ("name", TEXT)]
                    (map (fun xy => [PyStr (fst xy); PyStr (snd xy)]) countries))
  /\ find_table "latitude" db
     = Some (filled [("value", DOUBLE_PRECISION)]
                    (map (fun x => [x]) (np_unique (map Loc.latitude loc))))
  /\ find_table "longitude" db
     = Some (filled [("value", DOUBLE_PRECISION)]
                    (map (fun x => [x]) (np_unique (map Loc.longitude loc))))
  /\ find_table "postal_code" db
     = Some (filled [("value", CHAR 5)]
                    (map (fun x => [x])
                         (np_unique (map (fun r => PyStr (Loc.postal_code r)) loc))))
  /\ find_table "state" db
     = Some (filled [("value", CHAR 2)]
                    (map (fun x => [x])
                         (np_unique (map (fun r => PyStr (Loc.state r)) loc))))
  /\ find_table "event_time" db
     = Some (filled [("value", TIME)] (map (fun x => [PyTime x]) day_times))
  /\ find_table "event" db = Some (created true [("value", TEXT)] [])
  /\ find_table "event_date" db = Some (created true [("value", DATE)] [])
  /\ find_table "url" db = Some (created true [("value", TEXT)] [])
  /\ find_table "events" db
     = Some (created false composite
                     ["event"; "city"; "postal_code"; "event_date"]).

(** The row of table [table] with the id [id] is the one that holds
    [value]: what [SELECT * FROM table WHERE id = id] returns. *)
Definition points_to (db : tables) (table : string) (id value : pyval) : Prop :=
  exists t, find_table table db = Some t
            /\ rows_where t ["id"] [id] = [[id; value]].

(** The row [row] of the address table stands for the record [r]: each of
    its foreign keys points to the lookup row that holds the value of the
    record. *)
Definition represents (db : tables) (row : row) (r : Loc.LocationRecord) : Prop :=
  exists c s p la lo,
    row = [c; s; p; la; lo]
    /\ points_to db "city" c (PyStr (Loc.city r))
    /\ points_to db "state" s (PyStr (Loc.state r))
    /\ points_to db "postal_code" p (PyStr (Loc.postal_code r))
    /\ points_to db "latitude" la (Loc.latitude r)
    /\ points_to db "longitude" lo (Loc.longitude r).

(** The ids [psql_address] finds for the record [r] among the distinct
    values of [loc], in the order of the columns of the address table. *)
Definition ids_of (loc : list Loc.LocationRecord) (r : Loc.LocationRecord)
  : list (option Z) :=
  [last_match (loc_column "city" r) 1
              (np_unique (map (fun r => PyStr (Loc.city r)) loc)) None;
   last_match (loc_column "state" r) 1
              (np_unique (map (fun r => PyStr (Loc.state r)) loc)) None;
   last_match (loc_column "postal_code" r) 1
              (np_unique (map (fun r => PyStr (Loc.postal_code r)) loc)) None;
   last_match (loc_column "latitude" r) 1
              (np_unique (map Loc.latitude loc)) None;
   last_match (loc_column "longitude" r) 1
              (np_unique (map Loc.longitude loc)) None].

(** The positions of the values of the record [r] among the distinct
    values of [loc], counted from 1, are the ids in [row]. *)
Definition row_of (loc : list Loc.LocationRecord) (r : Loc.LocationRecord)
           (row : row) : Prop :=
  exists pc ps pp pla plo : nat,
    row = [PyInt (1 + Z.of_nat pc); PyInt (1 + Z.of_nat ps);
           PyInt (1 + Z.of_nat pp); PyInt (1 + Z.of_nat pla);
           PyInt (1 + Z.of_nat plo)]
    /\ nth_error (np_unique (map (fun r => PyStr (Loc.city r)) loc)) pc
       = Some (PyStr (Loc.city r))
    /\ nth_error (np_unique (map (fun r => PyStr (Loc.state r)) loc)) ps
       = Some (PyStr (Loc.state r))
    /\ nth_error (np_unique (map (fun r => PyStr (Loc.postal_code r)) loc)) pp
       = Some (PyStr (Loc.postal_code r))
    /\ nth_error (np_unique (map Loc.latitude loc)) pla = Some (Loc.latitude r)
    /\ nth_error (np_unique (map Loc.longitude loc)) plo = Some (Loc.longitude r).

(** The tables after the statements of [psql_tables]. *)
Definition rebuilt (db : tables) : tables :=
  put_table "events"
    (created false composite ["event"; "city"; "postal_code"; "event_date"])
    (put_table "address"
       (created false address_schema ["city"; "state"; "postal_code"])
       (fold_left (fun d x => remove_table x d) ["address"; "events"]
          (fold_left (fun d x => put_table (fst x) (created true (snd x) []) d)
             lookup_tables
             (fold_left (fun d x => remove_table (fst x) d) lookup_tables db)))).

End Db.

(** ** Variant B: [server/psql_init.py] *)

Module Server.

Definition cmd_double_field (table field_1 field_2 : string) : sql :=
  InsertWhereNotExists table [field_1; field_2].

Definition cmd_single_field (table field : string) : sql :=
  InsertWhereNotExists table [field].

Definition load_countries : M pyval :=
  status "load_countries"
    (modify_self (set_csv_file (Some "countries.csv")) ;;
     unzip ;;
     country <- genfromtxt as_countries "," 0 [0; 1]%nat ;;
     modify_self (set_country (Some country))).

Definition load_locations : M pyval :=
  status "load_locations"
    (w <- get_world ;;
     modify_self (set_csv_file (Some "us_postal_codes.csv")) ;;
     unzip ;;
     loc <- genfromtxt (as_locations (fun text => PyFloat (np_float w text)))
                       "," 1 [0; 1; 3; 5; 6]%nat ;;
     modify_self (set_location_data (Some loc)) ;;
     modify_self (set_city (Some (np_unique (map (fun r => PyStr (Loc.city r)) loc)))) ;;
     modify_self (set_state (Some (np_unique (map (fun r => PyStr (Loc.state r)) loc)))) ;;
     modify_self (set_postal_code
                    (Some (np_unique (map (fun r => PyStr (Loc.postal_code r)) loc)))) ;;
     modify_self (set_latitude (Some (np_unique (map Loc.latitude loc)))) ;;
     modify_self (set_longitude (Some (np_unique (map Loc.longitude loc))))).

Definition cmd_create_serial_table (table_name : string)
           (fields : list (string * coltype)) : sql :=
  CreateTable table_name true fields [].

Definition cmd_drop_table (table_name : string) : sql := DropTable table_name.

Definition lookup_tables : list (string * list (string * coltype)) :=
  [("city", [("city_name", TEXT)]);
   ("country", [("country_abbr", CHAR 2); ("country_name", TEXT)]);
   ("dates", [("dates_value", DATE)]);
   ("events", [("event_name", TEXT)]);
   ("latitude", [("latitude_value", REAL)]);
   ("longitude", [("longitude_value", REAL)]);
   ("postal_code", [("postal_code_value", CHAR 5)]);
   ("state", [("state_name", CHAR 2)]);
   ("times", [("time_value", TIME)]);
   ("url", [("url_name", TEXT)])].

Definition composite : list (string * coltype) :=
  [("event", INTEGER); ("city", INTEGER); ("state", INTEGER);
   ("postal_code", INTEGER); ("country", INTEGER); ("latitude", INTEGER);
   ("longitude", INTEGER); ("dates", INTEGER); ("times", INTEGER);
   ("url", INTEGER)].

Definition psql_tables : M pyval :=
  status "psql_tables"
    (for_each lookup_tables (fun x => cur_execute (cmd_drop_table (fst x)) []) ;;
     for_each lookup_tables
       (fun x => cur_execute (cmd_create_serial_table (fst x) (snd x)) []) ;;
     cur_execute (cmd_drop_table "event") [] ;;
     cur_execute (CreateTable "event" false composite []) []).

Definition psql_city : M pyval :=
  status "psql_city"
    (let cmd := cmd_single_field "city" "city_name" in
     o <- get_self ;;
     xs <- iter (city o) ;;
     for_each xs (fun x => cur_execute cmd [x; x])).

Definition psql_country : M pyval :=
  status "psql_country"
    (let cmd := cmd_double_field "country" "country_abbr" "country_name" in
     o <- get_self ;;
     xs <- iter (country o) ;;
     for_each xs (fun x => cur_execute cmd [PyStr (fst x); PyStr (snd x);
                                            PyStr (fst x); PyStr (snd x)])).

Definition psql_latitude : M pyval :=
  status "psql_latitude"
    (let cmd := cmd_single_field "latitude" "latitude_value" in
     o <- get_self ;;
     xs <- iter (latitude o) ;;
     for_each xs (fun x => cur_execute cmd [x; x])).

Definition psql_longitude : M pyval :=
  status "psql_longitude"
    (let cmd := cmd_single_field "longitude" "longitude_value" in
     o <- get_self ;;
     xs <- iter (longitude o) ;;
     for_each xs (fun x => cur_execute cmd [x; x])).

Definition psql_postal_code : M pyval :=
  status "psql_postal_code"
    (let cmd := cmd_single_field "postal_code" "postal_code_value" in
     o <- get_self ;;
     xs <- iter (postal_code o) ;;
     for_each xs (fun x => cur_execute cmd [x; x])).

Definition psql_state : M pyval :=
  status "psql_state"
    (let cmd := cmd_single_field "state" "state_name" in
     o <- get_self ;;
     xs <- iter (state o) ;;
     for_each xs (fun x => cur_execute cmd [x; x])).

Definition psql_times : M pyval :=
  status "psql_times"
    (let cmd := cmd_single_field "times" "time_value" in
     o <- get_self ;;
     xs <- iter (time_ o) ;;
     for_each xs (fun x => cur_execute cmd [PyTime x; PyTime x])).

Definition initiate_db : M unit :=
  load_countries ;;
  load_locations ;;
  load_times ;;
  get_user ;;
  get_password ;;
  psql_connection ;;
  psql_tables ;;
  psql_city ;;
  psql_country ;;
  psql_latitude ;;
  psql_longitude ;;
  psql_postal_code ;;
  psql_state ;;
  psql_times ;;
  conn_commit.

(** The calls of [initiate_db] before the commit, in order. *)
Definition steps : list (M unit) :=
  [void load_countries; void load_locations; void load_times;
   get_user; get_password; psql_connection; void psql_tables;
   void psql_city; void psql_country; void psql_latitude;
   void psql_longitude; void psql_postal_code; void psql_state;
   void psql_times].

(** The tables after the statements of [psql_tables]. *)
Definition rebuilt (db : tables) : tables :=
  put_table "event" (created false composite [])
    (remove_table "event"
       (fold_left (fun d x => put_table (fst x) (created true (snd x) []) d)
          lookup_tables
          (fold_left (fun d x => remove_table (fst x) d) lookup_tables db))).

End Server.

(** ** A small world to run the scripts in *)

Module Sample.

(** Split [s] at every occurrence of [sep]. *)
Fixpoint split_go (sep : string) (skip : nat) (piece : string) (s : string)
  : list string :=
  match s with
  | EmptyString => [piece]
  | String c s' =>
      match skip with
      | S skip' => split_go sep skip' piece s'
      | O =>
          if prefix sep s
          then piece :: split_go sep (String.length sep - 1) "" s'
          else split_go sep O (piece ++ String c "") s'
      end
  end.

Definition split (sep s : string) : list string := split_go sep O "" s.

Fixpoint pick (cols : list nat) (cells : list string) : option (list string) :=
  match cols with
  | [] => Some []
  | c :: cols' =>
      match nth_error cells c, pick cols' cells with
      | Some x, Some xs => Some (x :: xs)
      | _, _ => None
      end
  end.

Fixpoint pick_all (cols : list nat) (lines : list (list string))
  : outcome (list (list string)) :=
  match lines with
  | [] => Return []
  | l :: lines' =>
      match pick cols l, pick_all cols lines' with
      | Some x, Return xs => Return (x :: xs)
      | None, _ => Raise (ValueError "Some errors were detected !")
      | _, Raise e => Raise e
      end
  end.

(** A reader that is enough for well-formed files: one record per
    line that is not empty, cells separated by the delimiter. *)
Definition reader (text delimiter : string) (skip_header : nat)
           (usecols : list nat) : outcome (list (list string)) :=
  let lines := filter (fun l => negb (String.eqb l ""))
                      (skipn skip_header (split newline text)) in
  pick_all usecols (map (split delimiter) lines).

Definition line (cells : list string) : string :=
  String.concat "," cells ++ newline.

Definition countries_csv : string :=
  "US, United States" ++ newline ++ "CA, Canada" ++ newline.

Definition countries_csv_b : string :=
  "US,United States" ++ newline ++ "CA,Canada" ++ newline.

Definition postal_codes_csv : string :=
  line ["Zip Code"; "Place Name"; "State"; "State Abbreviation"; "County";
        "Latitude"; "Longitude"]
  ++ line ["90210"; "Beverly Hills"; "California"; "CA"; "Los Angeles";
           "34.0901"; "-118.4065"]
  ++ line ["10001"; "New York"; "New York"; "NY"; "New York";
           "40.7484"; "-73.9967"].

(** A float for a decimal text: its digits read as one integer, which
    keeps the order of coordinates written with the same number of
    decimals. *)
Fixpoint scaled (acc : Z) (s : string) : Z :=
  match s with
  | EmptyString => acc
  | String c s' =>
      match digit_of_ascii c with
      | Some d => scaled (10 * acc + d) s'
      | None => scaled acc s'
      end
  end.

Definition float_of (s : string) : Z :=
  if prefix "-" s then - scaled 0 s else scaled 0 s.

Definition login (database user password : string) : bool :=
  String.eqb database "iCP_events" && String.eqb user "Tim"
  && String.eqb password "secret".

Definition world_with (countries : string) : World :=
  mkWorld [("countries.csv.gz", Gzip (Plain countries));
           ("us_postal_codes.csv.gz", Gzip (Plain postal_codes_csv))]
          [] [""; "secret"] [] login [] [] O []
          reader float_of (fun _ _ => "").

(** The world variant A starts in, and the one variant B starts in. *)
Definition world_a : World := world_with countries_csv.
Definition world_b : World := world_with countries_csv_b.

(** The records variant A loads from [postal_codes_csv]. *)
Definition records : list Loc.LocationRecord :=
  [Loc.mk "90210" "Beverly Hills" "CA" (PyStr "34.0901") (PyStr "-118.4065");
   Loc.mk "10001" "New York" "NY" (PyStr "40.7484") (PyStr "-73.9967")].

Definition start_a : State := mkState __init__ world_a.
Definition start_b : State := mkState __init__ world_b.

End Sample.

(** ** Notions used in the statements *)

(** Every run of [m] relates the state it starts in to the state it
    leaves by [R], whether it returns or raises. *)
Definition keeps {A} (R : State -> State -> Prop) (m : M A) : Prop :=
  forall s, R s (snd (m s)).

(** The relations [keeps] composes along a sequence of steps. *)
Class Composes (R : State -> State -> Prop) : Prop := {
  composes_refl : forall s, R s s;
  composes_trans : forall s1 s2 s3, R s1 s2 -> R s2 s3 -> R s1 s3
}.

(** The number of commits is the same in both states. *)
Definition same_commits (s s' : State) : Prop :=
  db_commits (world s') = db_commits (world s).

(** What [initiate_db] does about the commit, [steps] being its calls
    before it.  When the run returns, every step has returned, the commit
    came after them and is the only one.  When the run raises [e], there
    was no commit, and [e] is what the first call that did not return
    raised, in the state that call left. *)
Definition commits_last (steps : list (M unit)) (initiate_db : M unit)
           (s : State) : Prop :=
  let r := initiate_db s in
  match fst r with
  | Return _ =>
      db_commits (world (snd r)) = S (db_commits (world s))
      /\ exists s1, in_order steps s = (Return tt, s1)
                    /\ conn_commit s1 = (Return tt, snd r)
                    /\ db_commits (world s1) = db_commits (world s)
  | Raise e =>
      db_commits (world (snd r)) = db_commits (world s)
      /\ stops (steps ++ [conn_commit]) s e (snd r)
  end.

(** [cursor.execute(cmd, params)] for every [params] of a list, in
    order, as the populating comprehensions do. *)
Fixpoint execute_all (cmd : sql) (params : list (list pyval)) (db : tables)
  : outcome tables :=
  match params with
  | [] => Return db
  | p :: params' =>
      match execute_sql cmd p db with
      | Return (db', _) => execute_all cmd params' db'
      | Raise e => Raise e
      end
  end.

(** The columns of a lookup table besides [id]: distinct names, none
    called [id], none of type INTEGER. *)
Definition plain_schema (schema : list (string * coltype)) : Prop :=
  NoDup (map fst schema)
  /\ ~ In "id" (map fst schema)
  /\ Forall (fun c => snd c <> INTEGER) schema.

(** A serial table without a uniqueness constraint whose rows are an id
    drawn from the sequence followed by one value per column. *)
Definition serial_table (schema : list (string * coltype)) (t : Table) : Prop :=
  t_serial t = true /\ t_schema t = schema /\ t_unique t = []
  /\ Forall (fun r => exists i vs,
                 r = PyInt i :: vs /\ List.length vs = List.length schema
                 /\ i < t_seq t)
            (t_rows t).

(** At most one row for any values. *)
Definition no_repeats (schema : list (string * coltype)) (t : Table) : Prop :=
  forall w, List.length w = List.length schema ->
            (List.length (rows_where t (map fst schema) w) <= 1)%nat.

(** The tables the open session sees in state [s]. *)
Definition session (s : State) : tables := db_session (world s).

(** The object is the same in both states. *)
Definition same_self (s s' : State) : Prop := self s' = self s.

(** The loaded data are the same in both states. *)
Definition same_data (s s' : State) : Prop :=
  country (self s') = country (self s)
  /\ location_data (self s') = location_data (self s)
  /\ city (self s') = city (self s)
  /\ state (self s') = state (self s)
  /\ postal_code (self s') = postal_code (self s)
  /\ latitude (self s') = latitude (self s)
  /\ longitude (self s') = longitude (self s)
  /\ time_ (self s') = time_ (self s).

(** What the object holds once the sources are read and the times are
    generated: the countries, the location records and, for every field,
    its distinct values. *)
Definition loaded (countries : list (string * string))
           (loc : list Loc.LocationRecord) (o : PostgresInitialize) : Prop :=
  country o = Some countries
  /\ location_data o = Some loc
  /\ city o = Some (np_unique (map (fun r => PyStr (Loc.city r)) loc))
  /\ state o = Some (np_unique (map (fun r => PyStr (Loc.state r)) loc))
  /\ postal_code o
     = Some (np_unique (map (fun r => PyStr (Loc.postal_code r)) loc))
  /\ latitude o = Some (np_unique (map Loc.latitude loc))
  /\ longitude o = Some (np_unique (map Loc.longitude loc))
  /\ time_ o = Some day_times.

(** Both coordinates of every record are texts, as variant A reads them. *)
Definition text_coordinates (loc : list Loc.LocationRecord) : Prop :=
  Forall (fun r => exists a b, Loc.latitude r = PyStr a
                               /\ Loc.longitude r = PyStr b) loc.

(** The state a reader is in once [unzip] has written the decoded file
    and, when [removed] is true, [zip_file] has removed it again. *)
Definition decoded (removed : bool) (name text : string) (s : State) : State :=
  let written := fs_write name (Plain (remove_cr text)) (files (world s)) in
  mkState (set_csv_file (Some name) (self s))
          (set_files (if removed then fs_remove name written else written)
                     (world s)).

(** Storing the parsed records returns and changes the object only. *)
Definition stores {R} (store : R -> M unit) : Prop :=
  forall x s, fst (store x s) = Return tt /\ world (snd (store x s)) = world s.

(** No compressed file was written between the two states, and the file
    at [path] is the same in both. *)
Definition untouched (path : string) (s s' : State) : Prop :=
  gzip_writes (world s') = gzip_writes (world s)
  /\ fs_read path (files (world s')) = fs_read path (files (world s)).

(** The serial table [t] holds the values [seen] and nothing else: one
    row for each of them, and no row for anything else. *)
Definition holding (schema : list (string * coltype))
           (seen : list (list pyval)) (t : Table) : Prop :=
  serial_table schema t /\ no_repeats schema t
  /\ (forall v, In v seen ->
                List.length (rows_where t (map fst schema) v) = 1%nat)
  /\ Forall (fun r => exists i v, r = PyInt i :: v /\ In v seen) (t_rows t).

(** The table [name] of [db] holds exactly [values]. *)
Definition populated (name : string) (schema : list (string * coltype))
           (values : list (list pyval)) (db : tables) : Prop :=
  exists t, find_table name db = Some t /\ holding schema values t.

(** The tables of variant B after a run that loaded [countries] and
    [loc]: one row per distinct value in the tables the run populates,
    and no row in the others. *)
Definition server_seeded (countries : list (string * string))
           (loc : list Loc.LocationRecord) (db : tables) : Prop :=
  populated "city" [("city_name", TEXT)]
            (map (fun x => [x]) (np_unique (map (fun r => PyStr (Loc.city r)) loc)))
            db
  /\ populated "country" [("country_abbr", CHAR 2); ("country_name", TEXT)]
               (map (fun xy => [PyStr (fst xy); PyStr (snd xy)]) countries) db
  /\ populated "latitude" [("latitude_value", REAL)]
               (map (fun x => [x]) (np_unique (map Loc.latitude loc))) db
  /\ populated "longitude" [("longitude_value", REAL)]
               (map (fun x => [x]) (np_unique (map Loc.longitude loc))) db
  /\ populated "postal_code" [("postal_code_value", CHAR 5)]
               (map (fun x => [x])
                    (np_unique (map (fun r => PyStr (Loc.postal_code r)) loc)))
               db
  /\ populated "state" [("state_name", CHAR 2)]
               (map (fun x => [x])
                    (np_unique (map (fun r => PyStr (Loc.state r)) loc)))
               db
  /\ populated "times" [("time_value", TIME)]
               (map (fun x => [PyTime x]) day_times) db
  /\ find_table "dates" db = Some (created true [("dates_value", DATE)] [])
  /\ find_table "events" db = Some (created true [("event_name", TEXT)] [])
  /\ find_table "url" db = Some (created true [("url_name", TEXT)] [])
  /\ find_table "event" db = Some (created false Server.composite []).

(** Every table of [names] is in [db] and has a row. *)
Definition all_populated (names : list string) (db : tables) : Prop :=
  forall name, In name names ->
               exists t, find_table name db = Some t /\ t_rows t <> [].

(** The integer the address table stores for the id [z] of a lookup
    row: the id went through a text of dtype U6. *)
Definition clip (z : Z) : Z :=
  match int_of_text (U 6 (str_of_int z)) with
  | Some c => c
  | None => z
  end.

(** The row of the address table for the record [r], whatever the
    number of records: every id went through [clip]. *)
Definition clipped_row_of (loc : list Loc.LocationRecord)
           (r : Loc.LocationRecord) (row : row) : Prop :=
  exists pc ps pp pla plo : nat,
    row = [PyInt (clip (1 + Z.of_nat pc)); PyInt (clip (1 + Z.of_nat ps));
           PyInt (clip (1 + Z.of_nat pp)); PyInt (clip (1 + Z.of_nat pla));
           PyInt (clip (1 + Z.of_nat plo))]
    /\ nth_error (np_unique (map (fun r => PyStr (Loc.city r)) loc)) pc
       = Some (PyStr (Loc.city r))
    /\ nth_error (np_unique (map (fun r => PyStr (Loc.state r)) loc)) ps
       = Some (PyStr (Loc.state r))
    /\ nth_error (np_unique (map (fun r => PyStr (Loc.postal_code r)) loc)) pp
       = Some (PyStr (Loc.postal_code r))
    /\ nth_error (np_unique (map Loc.latitude loc)) pla = Some (Loc.latitude r)
    /\ nth_error (np_unique (map Loc.longitude loc)) plo = Some (Loc.longitude r).

(** The committed tables are the same in both states. *)
Definition same_durable (s s' : State) : Prop :=
  db_durable (world s') = db_durable (world s).

(** The tables [psql_tables] of variant A leaves, each as [CREATE TABLE]
    makes it. *)
Definition db_fresh_tables : tables :=
  (map (fun x => (fst x, created true (snd x) [])) Db.lookup_tables
   ++ [("address",
        created false Db.address_schema ["city"; "state"; "postal_code"]);
       ("events",
        created false Db.composite
                ["event"; "city"; "postal_code"; "event_date"])])%list.

(** The tables [psql_tables] of variant B leaves. *)
Definition server_fresh_tables : tables :=
  (map (fun x => (fst x, created true (snd x) [])) Server.lookup_tables
   ++ [("event", created false Server.composite [])])%list.

(** The method appends to the serial table [name] one row per value,
    in order, with ids drawn from the sequence of the table, and leaves
    every other table alone; when the values were not loaded it raises
    [TypeError] before it touches the database. *)
Definition appends (method : M pyval) (name : string)
           (schema : list (string * coltype))
           (values : PostgresInitialize -> option (list (list pyval))) : Prop :=
  forall s,
    match values (self s) with
    | None =>
        fst (method s) = Raise (TypeError "'NoneType' object is not iterable")
        /\ session (snd (method s)) = session s
    | Some xs =>
        cur (self s) = true ->
        forall t,
          find_table name (session s) = Some t -> serial_table schema t ->
          fst (method s) = Return PyNone
          /\ self (snd (method s)) = self s
          /\ find_table name (session (snd (method s))) = Some (extended t xs)
          /\ forall m, String.eqb name m = false ->
                       find_table m (session (snd (method s)))
                       = find_table m (session s)
    end.

(** The method leaves in the serial table [name], which held the values
    [seen], exactly one row for each value seen or given, a value given
    twice or seen before getting no second row, and leaves every other
    table alone; when the values were not loaded it raises [TypeError]
    before it touches the database. *)
Definition inserts_once (method : M pyval) (name : string)
           (schema : list (string * coltype))
           (values : PostgresInitialize -> option (list (list pyval))) : Prop :=
  forall s,
    match values (self s) with
    | None =>
        fst (method s) = Raise (TypeError "'NoneType' object is not iterable")
        /\ session (snd (method s)) = session s
    | Some xs =>
        cur (self s) = true ->
        forall seen t,
          Forall (fun w => List.length w = List.length schema) seen ->
          find_table name (session s) = Some t -> holding schema seen t ->
          fst (method s) = Return PyNone
          /\ self (snd (method s)) = self s
          /\ (exists t',
                 find_table name (session (snd (method s))) = Some t'
                 /\ holding schema (seen ++ xs) t')
          /\ forall m, String.eqb name m = false ->
                       find_table m (session (snd (method s)))
                       = find_table m (session s)
    end.

(** [field] holds every value of [xs], each one once. *)
Definition distinct_values (xs : list pyval) (field : option (list pyval)) : Prop :=
  exists l, field = Some l /\ NoDup l /\ forall x, In x l <-> In x xs.

(** [o] holds the location records [loc]: their texts fit the widths of the
    dtype, and each of the five fields holds the values of its column, each
    one once. *)
Definition holds_locations (loc : list Loc.LocationRecord) (o : PostgresInitialize)
  : Prop :=
  location_data o = Some loc
  /\ Forall (fun r => (String.length (Loc.postal_code r) <= 5)%nat
                      /\ (String.length (Loc.city r) <= 30)%nat
                      /\ (String.length (Loc.state r) <= 2)%nat) loc
  /\ distinct_values (map (fun r => PyStr (Loc.city r)) loc) (city o)
  /\ distinct_values (map (fun r => PyStr (Loc.state r)) loc) (state o)
  /\ distinct_values (map (fun r => PyStr (Loc.postal_code r)) loc) (postal_code o)
  /\ distinct_values (map Loc.latitude loc) (latitude o)
  /\ distinct_values (map Loc.longitude loc) (longitude o).

(** * Properties *)

(** ** The time generator *)

Lemma slot_time (x : Z) :
  0 <= x < 288 ->
  datetime_add (mkDatetime 1 0) (minutes 5 * x) = mkDatetime 1 (300 * x)
  /\ datetime_time (mkDatetime 1 (300 * x))
     = mkTime (5 * x / 60) ((5 * x) mod 60) 0.
Proof.
  intros Hx.
  cbv beta iota zeta delta [datetime_add datetime_time minutes dt_day dt_second].
  replace (0 + 60 * 5 * x) with (300 * x) by lia. split.
  - f_equal.
    + rewrite Z.div_small; lia.
    + rewrite Z.mod_small; lia.
  - f_equal; Z.to_euclidean_division_equations; lia.
Qed.

Lemma day_times_nth (i : nat) :
  (i < 288)%nat ->
  nth_error day_times i
  = Some (mkTime (5 * Z.of_nat i / 60) ((5 * Z.of_nat i) mod 60) 0).
Proof.
  intros Hi. unfold day_times, range.
  rewrite !map_map, nth_error_map, nth_error_seq.
  destruct (Nat.ltb_spec i 288) as [_|]; [|lia].
  cbn [option_map Nat.add].
  destruct (slot_time (Z.of_nat i)) as [H1 H2]; [lia|].
  now rewrite H1, H2.
Qed.

Lemma day_times_key (i : nat) (t : time) :
  nth_error day_times i = Some t -> time_key t = 300 * Z.of_nat i.
Proof.
  intros H.
  assert (Hi : (i < 288)%nat).
  { assert (Hn : nth_error day_times i <> None) by congruence.
    apply nth_error_Some in Hn. unfold day_times, range in Hn.
    now rewrite !length_map, length_seq in Hn. }
  rewrite day_times_nth in H by exact Hi.
  assert (Ht : t = mkTime (5 * Z.of_nat i / 60) ((5 * Z.of_nat i) mod 60) 0)
    by congruence.
  rewrite Ht. cbv beta iota delta [time_key hour minute second].
  pose proof (Z.div_mod (5 * Z.of_nat i) 60). lia.
Qed.

Lemma sorted_by_index {A} (R : A -> A -> Prop) (l : list A) :
  (forall i j a b, (i < j)%nat -> nth_error l i = Some a ->
                   nth_error l j = Some b -> R a b) ->
  StronglySorted R l.
Proof.
  induction l as [|x l IH]; intros H; constructor.
  - apply IH. intros i j a b Hij Ha Hb. now apply (H (S i) (S j) a b); [lia| |].
  - apply Forall_forall. intros y Hy.
    apply In_nth_error in Hy as [j Hj].
    now apply (H O (S j) x y); [lia| |].
Qed.

Lemma neighbours_by_index {A} (P : A * A -> Prop) (l : list A) :
  (forall i a b, nth_error l i = Some a -> nth_error l (S i) = Some b ->
                 P (a, b)) ->
  Forall P (combine l (tl l)).
Proof.
  induction l as [|x l IH]; intros H; [constructor|].
  destruct l as [|y l]; [constructor|].
  cbn [tl combine]. constructor.
  - now apply (H O x y).
  - apply IH. intros i a b Ha Hb. now apply (H (S i) a b).
Qed.

Lemma sorted_nodup {A} (R : A -> A -> Prop) (l : list A) :
  (forall a, ~ R a a) -> StronglySorted R l -> NoDup l.
Proof.
  intros Hirr. induction 1 as [|x l Hs IH Hall]; constructor; [|exact IH].
  intros Hin. rewrite Forall_forall in Hall. exact (Hirr x (Hall x Hin)).
Qed.

(** C5.  [load_times] always stores the same list: 288 times of day,
    the first 00:00:00, every next one exactly five minutes after the one
    before, strictly increasing, without repetition, all within one day
    (hours 0 to 23, so no 24:00). *)
Theorem load_times_spec :
  (forall s, fst (load_times s) = Return PyNone
             /\ time_ (self (snd (load_times s))) = Some day_times)
  /\ List.length day_times = 288%nat
  /\ hd_error day_times = Some (mkTime 0 0 0)
  /\ Forall (fun p => time_key (snd p) - time_key (fst p)
                      = time_key (mkTime 0 5 0))
            (combine day_times (tl day_times))
  /\ StronglySorted (fun a b => time_key a < time_key b) day_times
  /\ NoDup day_times
  /\ Forall (fun t => 0 <= hour t < 24 /\ 0 <= minute t < 60 /\ second t = 0)
            day_times.
Proof.
  assert (Hsorted : StronglySorted (fun a b => time_key a < time_key b) day_times).
  { apply sorted_by_index. intros i j a b Hij Ha Hb.
    rewrite (day_times_key i a Ha), (day_times_key j b Hb). lia. }
  split; [intros s; split; reflexivity|].
  split; [unfold day_times, range; now rewrite !length_map, length_seq|].
  split; [reflexivity|].
  split; [|split; [|split]].
  - apply (neighbours_by_index
             (fun p => time_key (snd p) - time_key (fst p) = time_key (mkTime 0 5 0))).
    intros i a b Ha Hb. cbn [fst snd].
    rewrite (day_times_key i a Ha), (day_times_key (S i) b Hb).
    cbv beta iota delta [time_key hour minute second]. lia.
  - exact Hsorted.
  - apply (sorted_nodup _ _ (fun a => Z.lt_irrefl (time_key a)) Hsorted).
  - apply Forall_forall. intros t Ht. apply In_nth_error in Ht as [i Hi].
    assert (Hlt : (i < 288)%nat).
    { assert (Hn : nth_error day_times i <> None) by congruence.
      apply nth_error_Some in Hn. unfold day_times, range in Hn.
      now rewrite !length_map, length_seq in Hn. }
    rewrite day_times_nth in Hi by exact Hlt.
    assert (Ht : t = mkTime (5 * Z.of_nat i / 60) ((5 * Z.of_nat i) mod 60) 0)
      by congruence.
    rewrite Ht. cbv beta iota delta [hour minute second].
    repeat split; Z.to_euclidean_division_equations; lia.
Qed.

(** ** The decorator *)

Lemma status_unfold {A} (name : string) (func : M A) (s : State) :
  status name func s
  = let before := snd (print (newline ++ "Execute: " ++ name) s) in
    let after := snd (print ("Complete: " ++ name ++ newline)
                            (snd (func before))) in
    match fst (func before) with
    | Return _ => (Return PyNone, after)
    | Raise e => (Raise e, after)
    end.
Proof.
  unfold status, try_finally, bind, print, modify_world, ret.
  cbn [fst snd]. destruct (func _) as [[v|e] s']; reflexivity.
Qed.

(** C9.  A call of a decorated method prints the message naming the step
    before the wrapped function starts, and prints the completion message
    after it, as the last output of the call, both when the function
    returns and when it raises. *)
Theorem status_messages {A} (name : string) (func : M A) (s : State) :
  let before := snd (print (newline ++ "Execute: " ++ name) s) in
  let after := snd (func before) in
  stdout (world before)
  = (stdout (world s) ++ [(newline ++ "Execute: " ++ name)%string])%list
  /\ stdout (world (snd (status name func s)))
     = (stdout (world after) ++ [("Complete: " ++ name ++ newline)%string])%list
  /\ match fst (func before) with
     | Return _ => fst (status name func s) = Return PyNone
     | Raise e => fst (status name func s) = Raise e
     end.
Proof.
  rewrite status_unfold. cbv zeta.
  destruct (func _) as [[v|e] s'] eqn:E; cbn [fst snd];
    repeat split; reflexivity.
Qed.

(** The outcome of a decorated call, from the outcome of the function. *)
Lemma status_outcome {A} (name : string) (func : M A) (s : State) :
  fst (status name func s)
  = match fst (func (snd (print (newline ++ "Execute: " ++ name) s))) with
    | Return _ => Return PyNone
    | Raise e => Raise e
    end.
Proof.
  rewrite status_unfold. cbv zeta.
  destruct (func _) as [[v|e] s']; reflexivity.
Qed.

(** C10.  The wrapper drops what the wrapped function returns: whenever
    the function returns, whatever the value, the call returns [None];
    nothing but the effects on the state gets out. *)
Theorem status_returns_None {A} (name : string) (func : M A) (s : State) :
  fst (status name func s)
  = match fst (func (snd (print (newline ++ "Execute: " ++ name) s))) with
    | Return _ => Return PyNone
    | Raise e => Raise e
    end.
Proof.
  rewrite status_unfold. cbv zeta.
  destruct (func _) as [[v|e] s']; reflexivity.
Qed.

(** ** Relations kept by every step *)

Section Keeps.
Context (R : State -> State -> Prop) `{Composes R}.

Lemma keeps_ret {A} (v : A) : keeps R (ret v).
Proof. intros s. apply composes_refl. Qed.

Lemma keeps_raise {A} (e : exn) : keeps R (@raise A e).
Proof. intros s. apply composes_refl. Qed.

Lemma keeps_get_self : keeps R get_self.
Proof. intros s. apply composes_refl. Qed.

Lemma keeps_get_world : keeps R get_world.
Proof. intros s. apply composes_refl. Qed.

Lemma keeps_bind {A B} (m : M A) (k : A -> M B) :
  keeps R m -> (forall v, keeps R (k v)) -> keeps R (bind m k).
Proof.
  intros Hm Hk s. unfold bind. specialize (Hm s).
  destruct (m s) as [[v|e] s1]; cbn [snd] in *.
  - exact (composes_trans _ _ _ Hm (Hk v s1)).
  - exact Hm.
Qed.

Lemma keeps_try_finally {A} (body : M A) (handler : M unit) :
  keeps R body -> keeps R handler -> keeps R (try_finally body handler).
Proof.
  intros Hb Hh s. unfold try_finally. specialize (Hb s).
  destruct (body s) as [[v|e] s1]; cbn [snd] in *;
    specialize (Hh s1); destruct (handler s1) as [[u|e'] s2];
    cbn [snd] in *; exact (composes_trans _ _ _ Hb Hh).
Qed.

Lemma keeps_for_each {A} (xs : list A) (body : A -> M unit) :
  (forall x, keeps R (body x)) -> keeps R (for_each xs body).
Proof.
  intros Hb. induction xs as [|x xs IH]; cbn [for_each].
  - apply keeps_ret.
  - apply keeps_bind; [apply Hb | intros _; exact IH].
Qed.

Lemma keeps_iter {A} (xs : option (list A)) : keeps R (iter xs).
Proof. destruct xs; [apply keeps_ret | apply keeps_raise]. Qed.

Lemma keeps_path_of (name : option string) : keeps R (path_of name).
Proof. destruct name; [apply keeps_ret | apply keeps_raise]. Qed.

Lemma keeps_modify_self (f : PostgresInitialize -> PostgresInitialize) :
  (forall o w, R (mkState o w) (mkState (f o) w)) -> keeps R (modify_self f).
Proof. intros Hf [o w]. apply Hf. Qed.

Lemma keeps_modify_world (f : World -> World) :
  (forall o w, R (mkState o w) (mkState o (f w))) -> keeps R (modify_world f).
Proof. intros Hf [o w]. apply Hf. Qed.
End Keeps.

(** Splits a goal [keeps R m] along the structure of [m]: [known] closes
    the calls that have a lemma, [leaf] the updates of the object and of
    the world. *)
Ltac keeps_with known leaf :=
  repeat first
    [ solve [known]
    | apply keeps_ret; exact _
    | apply keeps_raise; exact _
    | apply keeps_get_self; exact _
    | apply keeps_get_world; exact _
    | apply keeps_iter; exact _
    | apply keeps_path_of; exact _
    | apply keeps_bind; [ exact _ .. | | intros ? ]
    | apply keeps_try_finally; [ exact _ .. | | ]
    | apply keeps_for_each; [ exact _ .. | intros ? ]
    | apply keeps_modify_self; solve [leaf]
    | apply keeps_modify_world; solve [leaf]
    | match goal with
      | |- keeps _ (match ?x with _ => _ end) => destruct x
      | |- keeps _ (if ?x then _ else _) => destruct x
      end ].

Lemma void_keeps {A} R `{Composes R} (m : M A) : keeps R m -> keeps R (void m).
Proof. intros Hm. unfold void. keeps_with assumption idtac. Qed.

(** *** No step commits *)

#[local] Instance same_commits_composes : Composes same_commits.
Proof. split; unfold same_commits; congruence. Qed.

Create HintDb commits.

Ltac commits := keeps_with ltac:(auto with commits) ltac:(intros; reflexivity).

Lemma print_commits msg : keeps same_commits (print msg).
Proof. unfold print. commits. Qed.
#[local] Hint Resolve print_commits : commits.

Lemma status_commits {A} name (func : M A) :
  keeps same_commits func -> keeps same_commits (status name func).
Proof. intros Hf. unfold status. commits. Qed.

Lemma input_commits prompt : keeps same_commits (input prompt).
Proof. unfold input. commits. Qed.
#[local] Hint Resolve input_commits : commits.

Lemma get_user_commits : keeps same_commits get_user.
Proof. unfold get_user. commits. Qed.

Lemma get_password_commits : keeps same_commits get_password.
Proof. unfold get_password. commits. Qed.

Lemma unzip_commits : keeps same_commits unzip.
Proof. unfold unzip, gzip_read, write_text. commits. Qed.

Lemma zip_file_commits : keeps same_commits zip_file.
Proof. unfold zip_file, gzip_copy, os_remove. commits. Qed.

Lemma genfromtxt_commits {R} dtype delimiter skip_header usecols :
  keeps same_commits (@genfromtxt R dtype delimiter skip_header usecols).
Proof. unfold genfromtxt. commits. Qed.

Lemma load_times_commits : keeps same_commits load_times.
Proof. unfold load_times. apply status_commits. commits. Qed.

Lemma psql_connection_commits : keeps same_commits psql_connection.
Proof. unfold psql_connection. commits. Qed.

Lemma cur_execute_commits cmd params : keeps same_commits (cur_execute cmd params).
Proof. unfold cur_execute. commits. Qed.

Lemma cur_fetchall_commits : keeps same_commits cur_fetchall.
Proof. unfold cur_fetchall. commits. Qed.

#[local] Hint Resolve unzip_commits zip_file_commits
  genfromtxt_commits load_times_commits psql_connection_commits
  cur_execute_commits cur_fetchall_commits get_user_commits
  get_password_commits : commits.

Lemma table_select_commits name ret_field search value :
  keeps same_commits (Db.table_select name ret_field search value).
Proof. unfold Db.table_select. commits. Qed.
#[local] Hint Resolve table_select_commits : commits.

Lemma substitute_commits name i data rows addresses :
  keeps same_commits (Db.substitute name i data rows addresses).
Proof.
  revert addresses. induction rows as [|values rows IH]; intros addresses;
    cbn [Db.substitute]; commits.
Qed.
#[local] Hint Resolve substitute_commits : commits.

Lemma idx_sub_commits name translate addresses :
  keeps same_commits (Db.idx_sub name translate addresses).
Proof. unfold Db.idx_sub. commits. Qed.
#[local] Hint Resolve idx_sub_commits : commits.

Lemma resolve_commits names addresses :
  keeps same_commits (Db.resolve names addresses).
Proof.
  revert addresses. induction names as [|name names IH]; intros addresses;
    cbn [Db.resolve]; commits.
Qed.
#[local] Hint Resolve resolve_commits : commits.

Ltac step_commits := apply status_commits; commits.

Lemma db_steps_commits : Forall (keeps same_commits) Db.steps.
Proof.
  unfold Db.steps.
  repeat constructor; try (apply void_keeps; [exact _|]);
    auto with commits; step_commits.
Qed.

Lemma server_steps_commits : Forall (keeps same_commits) Server.steps.
Proof.
  unfold Server.steps.
  repeat constructor; try (apply void_keeps; [exact _|]);
    auto with commits; step_commits.
Qed.

(** *** The orchestrator *)

Lemma stops_app_commit steps s s1 e s' :
  in_order steps s = (Return tt, s1) -> conn_commit s1 = (Raise e, s') ->
  stops (steps ++ [conn_commit]) s e s'.
Proof.
  revert s. induction steps as [|m steps IH]; intros s Hrun Hc.
  - cbn in Hrun. injection Hrun as ->. now apply stops_here.
  - cbn [in_order for_each] in Hrun. unfold bind in Hrun.
    destruct (m s) as [[v|e1] s2] eqn:Em; [|discriminate].
    cbn [app]. eapply stops_later; [exact Em|]. now apply IH.
Qed.

Lemma in_order_then_commit (steps : list (M unit)) :
  Forall (keeps same_commits) steps ->
  forall s, commits_last steps (in_order steps ;; conn_commit) s.
Proof.
  intros Hsteps s. unfold commits_last. cbv zeta.
  assert (Hrun : keeps same_commits (in_order steps)).
  { unfold in_order. induction Hsteps; cbn [for_each]; commits. }
  specialize (Hrun s). unfold same_commits in Hrun.
  destruct (in_order steps s) as [[[]|e] s1] eqn:Erun; cbn [snd] in Hrun.
  - destruct (conn_commit s1) as [[[]|e] s2] eqn:Ec.
    + assert (E : (in_order steps ;; conn_commit) s = (Return tt, s2))
        by (unfold bind; now rewrite Erun).
      rewrite E. cbn [fst snd]. split.
      * revert Ec. unfold conn_commit, bind, get_self, modify_world, raise.
        destruct (conn (self s1)); intros Ec; [|discriminate].
        injection Ec as <-. cbn. now rewrite Hrun.
      * exists s1. split; [reflexivity|]. split; [exact Ec|exact Hrun].
    + assert (E : (in_order steps ;; conn_commit) s = (Raise e, s2))
        by (unfold bind; now rewrite Erun).
      rewrite E. cbn [fst snd]. split.
      * revert Ec. unfold conn_commit, bind, get_self, modify_world, raise.
        destruct (conn (self s1)); intros Ec; [discriminate|].
        injection Ec as <- <-. exact Hrun.
      * eapply stops_app_commit; eassumption.
  - assert (E : (in_order steps ;; conn_commit) s = (Raise e, s1))
      by (unfold bind; now rewrite Erun).
    rewrite E. cbn [fst snd]. split; [exact Hrun|].
    clear Hrun Hsteps E. revert s Erun.
    induction steps as [|m steps IH]; intros s Erun; [discriminate|].
    cbn [in_order for_each] in Erun. unfold bind in Erun.
    destruct (m s) as [[v|e1] s2] eqn:Em.
    + cbn [app]. eapply stops_later; [exact Em|]. now apply IH.
    + injection Erun as -> ->. cbn [app]. now apply stops_here.
Qed.

Ltac run_both_sides :=
  repeat match goal with
         | |- context [match ?f ?st with _ => _ end] =>
             is_var st; destruct (f st) as [[?|?] ?]
         end.

Lemma db_initiate_db_in_order s :
  Db.initiate_db s = (in_order Db.steps ;; conn_commit) s.
Proof.
  unfold Db.initiate_db, Db.steps, in_order, void. cbn [for_each].
  unfold bind, ret. run_both_sides; reflexivity.
Qed.

Lemma server_initiate_db_in_order s :
  Server.initiate_db s = (in_order Server.steps ;; conn_commit) s.
Proof.
  unfold Server.initiate_db, Server.steps, in_order, void. cbn [for_each].
  unfold bind, ret. run_both_sides; reflexivity.
Qed.

(** C2.  In both variants [initiate_db] commits at most once, and only
    after every call before the commit has returned; when a call raises,
    no commit is issued, nothing runs after that call, and the exception
    the caller gets is the one that call raised. *)
Theorem initiate_db_commits_last (s : State) :
  commits_last Db.steps Db.initiate_db s
  /\ commits_last Server.steps Server.initiate_db s.
Proof.
  split.
  - pose proof (in_order_then_commit Db.steps db_steps_commits s) as H.
    unfold commits_last in *. now rewrite db_initiate_db_in_order.
  - pose proof (in_order_then_commit Server.steps server_steps_commits s) as H.
    unfold commits_last in *. now rewrite server_initiate_db_in_order.
Qed.

(** ** The source files *)

Lemma fs_read_remove_same path fs : fs_read path (fs_remove path fs) = None.
Proof.
  induction fs as [|[p c] fs IH]; cbn; [reflexivity|].
  destruct (String.eqb p path) eqn:E; [exact IH|]. cbn. now rewrite E.
Qed.

Lemma fs_read_remove_other path other fs :
  String.eqb other path = false ->
  fs_read path (fs_remove other fs) = fs_read path fs.
Proof.
  intros Hne. induction fs as [|[p c] fs IH]; cbn; [reflexivity|].
  destruct (String.eqb p other) eqn:E.
  - apply String.eqb_eq in E. subst p. now rewrite Hne.
  - cbn. now rewrite IH.
Qed.

Lemma fs_read_write_same path c fs : fs_read path (fs_write path c fs) = Some c.
Proof. unfold fs_write. cbn. now rewrite String.eqb_refl. Qed.

Lemma fs_read_write_other path other c fs :
  String.eqb other path = false ->
  fs_read path (fs_write other c fs) = fs_read path fs.
Proof.
  intros Hne. unfold fs_write. cbn. rewrite Hne.
  now apply fs_read_remove_other.
Qed.

(** What [unzip] does when [csv_zipped] is true. *)
Lemma unzip_zipped s name :
  csv_zipped (self s) = true -> csv_file (self s) = Some name ->
  unzip s
  = match fs_read (name ++ ".gz") (files (world s)) with
    | None => (Raise (FileNotFoundError (name ++ ".gz")), s)
    | Some (Plain _) => (Raise (BadGzipFile (name ++ ".gz")), s)
    | Some (Gzip (Plain text)) =>
        (Return tt,
         mkState (self s)
                 (set_files (fs_write name (Plain (remove_cr text))
                                      (files (world s))) (world s)))
    | Some (Gzip (Gzip _)) =>
        (Raise (ValueError "'utf-8' codec can't decode"), s)
    end.
Proof.
  intros Hz Hf.
  cbv beta iota delta [unzip bind get_self gzip_read get_world raise ret
                       path_of format_name write_text modify_world].
  rewrite Hz, Hf. cbv beta iota.
  destruct (fs_read _ _) as [[text|[text|c]]|]; reflexivity.
Qed.

(** What [zip_file] does when [csv_zipped] is true: it only removes. *)
Lemma zip_file_zipped s name :
  csv_zipped (self s) = true -> csv_file (self s) = Some name ->
  zip_file s
  = if fs_exists name (files (world s))
    then (Return tt,
          mkState (self s) (set_files (fs_remove name (files (world s))) (world s)))
    else (Raise (FileNotFoundError name), s).
Proof.
  intros Hz Hf.
  cbv beta iota delta [zip_file bind get_self os_remove get_world raise ret
                       path_of modify_world].
  rewrite Hz, Hf. cbv beta iota delta [negb].
  destruct (fs_exists _ _); reflexivity.
Qed.

Lemma genfromtxt_plain {R} (dtype : list (list string) -> outcome R)
      delimiter skip_header usecols s name text :
  csv_file (self s) = Some name ->
  fs_read name (files (world s)) = Some (Plain text) ->
  genfromtxt dtype delimiter skip_header usecols s
  = match np_genfromtxt (world s) text delimiter skip_header usecols with
    | Return rows =>
        match dtype rows with
        | Return records => (Return records, s)
        | Raise e => (Raise e, s)
        end
    | Raise e => (Raise e, s)
    end.
Proof.
  intros Hf Hr.
  cbv beta iota delta [genfromtxt bind get_self get_world raise ret path_of].
  rewrite Hf. cbv beta iota. rewrite Hr.
  destruct (np_genfromtxt _ _ _ _ _) as [rows|e]; [|reflexivity].
  destruct (dtype rows); reflexivity.
Qed.

(** A reader of variant A: decode, parse, remove the decoded file, store. *)
Lemma reader_a_decodes {R} name (dtype : list (list string) -> outcome R)
      delimiter skip_header usecols (store : R -> M unit) s text :
  csv_zipped (self s) = true ->
  fs_read (name ++ ".gz") (files (world s)) = Some (Gzip (Plain text)) ->
  (modify_self (set_csv_file (Some name)) ;;
   unzip ;;
   x <- genfromtxt dtype delimiter skip_header usecols ;;
   zip_file ;;
   store x) s
  = match np_genfromtxt (world s) (remove_cr text) delimiter skip_header usecols
    with
    | Return rows =>
        match dtype rows with
        | Return x => store x (decoded true name text s)
        | Raise e => (Raise e, decoded false name text s)
        end
    | Raise e => (Raise e, decoded false name text s)
    end.
Proof.
  intros Hz Hgz. unfold bind at 1. cbn [modify_self].
  unfold bind at 1.
  rewrite (unzip_zipped _ name) by (cbn; assumption || reflexivity).
  cbn [self world set_csv_file]. rewrite Hgz.
  unfold bind at 1.
  erewrite genfromtxt_plain; [|reflexivity|cbn; apply fs_read_write_same].
  cbn [world np_genfromtxt set_files].
  destruct (np_genfromtxt _ _ _ _ _) as [rows|e]; [|reflexivity].
  destruct (dtype rows) as [x|e]; [|reflexivity].
  unfold bind at 1.
  rewrite (zip_file_zipped _ name) by (cbn; assumption || reflexivity).
  cbn [world files set_files]. unfold fs_exists.
  rewrite fs_read_write_same. reflexivity.
Qed.

(** A reader of variant B: decode, parse, store. *)
Lemma reader_b_decodes {R} name (dtype : list (list string) -> outcome R)
      delimiter skip_header usecols (store : R -> M unit) s text :
  csv_zipped (self s) = true ->
  fs_read (name ++ ".gz") (files (world s)) = Some (Gzip (Plain text)) ->
  (modify_self (set_csv_file (Some name)) ;;
   unzip ;;
   x <- genfromtxt dtype delimiter skip_header usecols ;;
   store x) s
  = match np_genfromtxt (world s) (remove_cr text) delimiter skip_header usecols
    with
    | Return rows =>
        match dtype rows with
        | Return x => store x (decoded false name text s)
        | Raise e => (Raise e, decoded false name text s)
        end
    | Raise e => (Raise e, decoded false name text s)
    end.
Proof.
  intros Hz Hgz. unfold bind at 1. cbn [modify_self].
  unfold bind at 1.
  rewrite (unzip_zipped _ name) by (cbn; assumption || reflexivity).
  cbn [self world set_csv_file]. rewrite Hgz.
  unfold bind at 1.
  erewrite genfromtxt_plain; [|reflexivity|cbn; apply fs_read_write_same].
  cbn [world np_genfromtxt set_files].
  destruct (np_genfromtxt _ _ _ _ _) as [rows|e]; [|reflexivity].
  destruct (dtype rows) as [x|e]; reflexivity.
Qed.

(** When the compressed file is missing or is not the compression of a
    text, [unzip] raises and the reader stops there. *)
Lemma reader_stops_at_unzip {R} name (rest : M R) s :
  csv_zipped (self s) = true ->
  (forall text, fs_read (name ++ ".gz") (files (world s))
                <> Some (Gzip (Plain text))) ->
  exists e,
    (modify_self (set_csv_file (Some name)) ;; unzip ;; rest) s
    = (Raise e, mkState (set_csv_file (Some name) (self s)) (world s)).
Proof.
  intros Hz Hgz. unfold bind at 1. cbn [modify_self].
  unfold bind at 1.
  rewrite (unzip_zipped _ name) by (cbn; assumption || reflexivity).
  cbn [self world set_csv_file].
  destruct (fs_read _ _) as [[text|[text|c]]|]; try (eexists; reflexivity).
  now destruct (Hgz text).
Qed.

Lemma status_world {A} name (func : M A) s :
  let s' := snd (func (snd (print (newline ++ "Execute: " ++ name) s))) in
  files (world (snd (status name func s))) = files (world s')
  /\ gzip_writes (world (snd (status name func s))) = gzip_writes (world s')
  /\ self (snd (status name func s)) = self s'.
Proof.
  rewrite status_unfold. cbv zeta.
  destruct (func _) as [[v|e] s']; cbn; repeat split.
Qed.

Lemma untouched_decoded removed name text s0 s :
  String.eqb name (name ++ ".gz") = false ->
  files (world s) = files (world s0) ->
  gzip_writes (world s) = gzip_writes (world s0) ->
  untouched (name ++ ".gz") s0 (decoded removed name text s).
Proof.
  intros Hne Hf Hg.
  unfold untouched, decoded. cbn [world files gzip_writes set_files].
  split; [exact Hg|].
  destruct removed.
  - rewrite fs_read_remove_other, fs_read_write_other by exact Hne.
    now rewrite Hf.
  - rewrite fs_read_write_other by exact Hne. now rewrite Hf.
Qed.

Lemma reader_a_untouched {R} name (dtype : list (list string) -> outcome R)
      delimiter skip_header usecols (store : R -> M unit) s0 s :
  String.eqb name (name ++ ".gz") = false ->
  stores store ->
  csv_zipped (self s) = true ->
  files (world s) = files (world s0) ->
  gzip_writes (world s) = gzip_writes (world s0) ->
  untouched (name ++ ".gz") s0
    (snd ((modify_self (set_csv_file (Some name)) ;;
           unzip ;;
           x <- genfromtxt dtype delimiter skip_header usecols ;;
           zip_file ;;
           store x) s)).
Proof.
  intros Hne Hst Hz Hf Hg.
  destruct (fs_read (name ++ ".gz") (files (world s))) as [[t|[text|c]]|] eqn:E.
  2: { rewrite (reader_a_decodes _ _ _ _ _ _ _ text Hz E).
       destruct (np_genfromtxt _ _ _ _ _) as [rows|e];
         [destruct (dtype rows) as [x|e]|]; cbn [snd];
         try (now apply untouched_decoded).
       destruct (Hst x (decoded true name text s)) as [_ Hw].
       pose proof (untouched_decoded true name text s0 s Hne Hf Hg) as [H1 H2].
       unfold untouched. now rewrite Hw. }
  all: destruct (reader_stops_at_unzip name
                   (x <- genfromtxt dtype delimiter skip_header usecols ;;
                    zip_file ;; store x) s Hz) as [e He];
    [intros text; rewrite E; discriminate|];
    rewrite He; unfold untouched; cbn; now rewrite Hf, Hg.
Qed.

Lemma reader_b_untouched {R} name (dtype : list (list string) -> outcome R)
      delimiter skip_header usecols (store : R -> M unit) s0 s :
  String.eqb name (name ++ ".gz") = false ->
  stores store ->
  csv_zipped (self s) = true ->
  files (world s) = files (world s0) ->
  gzip_writes (world s) = gzip_writes (world s0) ->
  untouched (name ++ ".gz") s0
    (snd ((modify_self (set_csv_file (Some name)) ;;
           unzip ;;
           x <- genfromtxt dtype delimiter skip_header usecols ;;
           store x) s)).
Proof.
  intros Hne Hst Hz Hf Hg.
  destruct (fs_read (name ++ ".gz") (files (world s))) as [[t|[text|c]]|] eqn:E.
  2: { rewrite (reader_b_decodes _ _ _ _ _ _ _ text Hz E).
       destruct (np_genfromtxt _ _ _ _ _) as [rows|e];
         [destruct (dtype rows) as [x|e]|]; cbn [snd];
         try (now apply untouched_decoded).
       destruct (Hst x (decoded false name text s)) as [_ Hw].
       pose proof (untouched_decoded false name text s0 s Hne Hf Hg) as [H1 H2].
       unfold untouched. now rewrite Hw. }
  all: destruct (reader_stops_at_unzip name
                   (x <- genfromtxt dtype delimiter skip_header usecols ;;
                    store x) s Hz) as [e He];
    [intros text; rewrite E; discriminate|];
    rewrite He; unfold untouched; cbn; now rewrite Hf, Hg.
Qed.

Lemma reader_a_result {R} name step (dtype : list (list string) -> outcome R)
      delimiter skip_header usecols (store : R -> M unit) s text :
  stores store ->
  csv_zipped (self s) = true ->
  fs_read (name ++ ".gz") (files (world s)) = Some (Gzip (Plain text)) ->
  forall r,
    r = status step
          (modify_self (set_csv_file (Some name)) ;;
           unzip ;;
           x <- genfromtxt dtype delimiter skip_header usecols ;;
           zip_file ;;
           store x) s ->
    match fst r with
    | Return _ => fs_read name (files (world (snd r))) = None
    | Raise _ =>
        fs_read name (files (world (snd r))) = Some (Plain (remove_cr text))
    end.
Proof.
  intros Hst Hz Hgz r ->.
  destruct (status_world step
              (modify_self (set_csv_file (Some name)) ;;
               unzip ;;
               x <- genfromtxt dtype delimiter skip_header usecols ;;
               zip_file ;;
               store x) s) as [Hf _].
  cbv zeta in Hf. rewrite Hf, status_outcome.
  set (before := snd (print (newline ++ "Execute: " ++ step) s)) in *.
  rewrite (reader_a_decodes name dtype delimiter skip_header usecols store
             before text Hz Hgz).
  destruct (np_genfromtxt _ _ _ _ _) as [rows|e];
    [destruct (dtype rows) as [x|e]|]; cbn [fst snd];
    try (unfold decoded; cbn [world files set_files]; apply fs_read_write_same).
  destruct (Hst x (decoded true name text before)) as [Hr Hw].
  rewrite Hr, Hw. unfold decoded. cbn [world files set_files].
  apply fs_read_remove_same.
Qed.

Lemma reader_b_result {R} name step (dtype : list (list string) -> outcome R)
      delimiter skip_header usecols (store : R -> M unit) s text :
  stores store ->
  csv_zipped (self s) = true ->
  fs_read (name ++ ".gz") (files (world s)) = Some (Gzip (Plain text)) ->
  forall r,
    r = status step
          (modify_self (set_csv_file (Some name)) ;;
           unzip ;;
           x <- genfromtxt dtype delimiter skip_header usecols ;;
           store x) s ->
    fs_read name (files (world (snd r))) = Some (Plain (remove_cr text)).
Proof.
  intros Hst Hz Hgz r ->.
  destruct (status_world step
              (modify_self (set_csv_file (Some name)) ;;
               unzip ;;
               x <- genfromtxt dtype delimiter skip_header usecols ;;
               store x) s) as [Hf _].
  cbv zeta in Hf. rewrite Hf.
  set (before := snd (print (newline ++ "Execute: " ++ step) s)) in *.
  rewrite (reader_b_decodes name dtype delimiter skip_header usecols store
             before text Hz Hgz).
  destruct (np_genfromtxt _ _ _ _ _) as [rows|e];
    [destruct (dtype rows) as [x|e]|]; cbn [fst snd];
    try (unfold decoded; cbn [world files set_files]; apply fs_read_write_same).
  destruct (Hst x (decoded false name text before)) as [Hr Hw].
  rewrite Hw. unfold decoded. cbn [world files set_files].
  apply fs_read_write_same.
Qed.

(** A reader returns only if the compressed file could be decoded. *)
Lemma reader_returns_decoded {R} name step (rest : M R) s :
  csv_zipped (self s) = true ->
  forall r,
    r = status step (modify_self (set_csv_file (Some name)) ;; unzip ;; rest) s ->
    fst r = Return PyNone ->
    exists text,
      fs_read (name ++ ".gz") (files (world s)) = Some (Gzip (Plain text)).
Proof.
  intros Hz r -> Hret.
  destruct (fs_read (name ++ ".gz") (files (world s))) as [[t|[text|c]]|] eqn:E.
  2: now exists text.
  all: exfalso;
    set (before := snd (print (newline ++ "Execute: " ++ step) s));
    destruct (reader_stops_at_unzip name rest before Hz) as [e He];
    [intros text; cbn [before print modify_world snd world files set_stdout];
     rewrite E; discriminate|];
    revert Hret; rewrite status_outcome; fold before; now rewrite He.
Qed.

Lemma status_untouched {A} path name (func : M A) s :
  untouched path s (snd (func (snd (print (newline ++ "Execute: " ++ name) s)))) ->
  untouched path s (snd (status name func s)).
Proof.
  intros [Hg Hf]. destruct (status_world name func s) as (Hf' & Hg' & _).
  cbv zeta in Hf', Hg'. unfold untouched. now rewrite Hf', Hg'.
Qed.

Lemma status_get_world {A} name (k : World -> M A) s :
  status name (w <- get_world ;; k w) s
  = status name (k (world (snd (print (newline ++ "Execute: " ++ name) s)))) s.
Proof. rewrite !status_unfold. reflexivity. Qed.

Lemma stores_country :
  stores (fun country => modify_self (set_country (Some country))).
Proof. intros x s. split; reflexivity. Qed.

Lemma stores_locations :
  stores (fun loc =>
    modify_self (set_location_data (Some loc)) ;;
    modify_self (set_city (Some (np_unique (map (fun r => PyStr (Loc.city r)) loc)))) ;;
    modify_self (set_state (Some (np_unique (map (fun r => PyStr (Loc.state r)) loc)))) ;;
    modify_self (set_postal_code
                   (Some (np_unique (map (fun r => PyStr (Loc.postal_code r)) loc)))) ;;
    modify_self (set_latitude (Some (np_unique (map Loc.latitude loc)))) ;;
    modify_self (set_longitude (Some (np_unique (map Loc.longitude loc))))).
Proof. intros x s. split; reflexivity. Qed.

(** C8, as the code has it.  In a default run ([csv_zipped] true) no
    reader writes a compressed file, and the compressed source stays as
    it was.  A reader of variant A that returns has removed the decoded
    copy [unzip] made; a reader of variant B that returns has left it in
    place. *)
Theorem readers_keep_the_archive (s : State) :
  csv_zipped (self s) = true ->
  (untouched "countries.csv.gz" s (snd (Db.load_countries s))
   /\ untouched "us_postal_codes.csv.gz" s (snd (Db.load_locations s))
   /\ untouched "countries.csv.gz" s (snd (Server.load_countries s))
   /\ untouched "us_postal_codes.csv.gz" s (snd (Server.load_locations s)))
  /\ (fst (Db.load_countries s) = Return PyNone ->
      fs_exists "countries.csv" (files (world (snd (Db.load_countries s)))) = false)
  /\ (fst (Db.load_locations s) = Return PyNone ->
      fs_exists "us_postal_codes.csv"
                (files (world (snd (Db.load_locations s)))) = false)
  /\ (fst (Server.load_countries s) = Return PyNone ->
      fs_exists "countries.csv"
                (files (world (snd (Server.load_countries s)))) = true)
  /\ (fst (Server.load_locations s) = Return PyNone ->
      fs_exists "us_postal_codes.csv"
                (files (world (snd (Server.load_locations s)))) = true).
Proof.
  intros Hz. split; [|split; [|split; [|split]]].
  - split; [|split; [|split]].
    + apply status_untouched.
      now apply (reader_a_untouched "countries.csv" as_countries); auto using stores_country.
    + apply status_untouched.
      now apply (reader_a_untouched "us_postal_codes.csv"); auto using stores_locations.
    + apply status_untouched.
      now apply (reader_b_untouched "countries.csv" as_countries); auto using stores_country.
    + unfold Server.load_locations. rewrite status_get_world.
      apply status_untouched.
      now apply (reader_b_untouched "us_postal_codes.csv"); auto using stores_locations.
  - intros Hret.
    destruct (reader_returns_decoded "countries.csv" "load_countries" _ s Hz
                (Db.load_countries s) eq_refl Hret) as [text Hgz].
    pose proof (reader_a_result "countries.csv" "load_countries" as_countries
                  ", " 0%nat [0; 1]%nat _ s text stores_country Hz Hgz
                  (Db.load_countries s) eq_refl) as H.
    rewrite Hret in H. unfold fs_exists. now rewrite H.
  - intros Hret.
    destruct (reader_returns_decoded "us_postal_codes.csv" "load_locations" _ s
                Hz (Db.load_locations s) eq_refl Hret) as [text Hgz].
    pose proof (reader_a_result "us_postal_codes.csv" "load_locations" _ _ _ _ _
                  s text stores_locations Hz Hgz
                  (Db.load_locations s) eq_refl) as H.
    rewrite Hret in H. unfold fs_exists. now rewrite H.
  - intros Hret.
    destruct (reader_returns_decoded "countries.csv" "load_countries" _ s Hz
                (Server.load_countries s) eq_refl Hret) as [text Hgz].
    pose proof (reader_b_result "countries.csv" "load_countries" as_countries
                  "," 0%nat [0; 1]%nat _ s text stores_country Hz Hgz
                  (Server.load_countries s) eq_refl) as H.
    unfold fs_exists. now rewrite H.
  - intros Hret.
    destruct (reader_returns_decoded "us_postal_codes.csv" "load_locations" _ s
                Hz (Server.load_locations s)
                (status_get_world "load_locations" _ s) Hret) as [text Hgz].
    pose proof (reader_b_result "us_postal_codes.csv" "load_locations" _ _ _ _ _
                  s text stores_locations Hz Hgz
                  (Server.load_locations s)
                  (status_get_world "load_locations" _ s)) as H.
    unfold fs_exists. now rewrite H.
Qed.

Lemma readers_keep_the_archive_witness :
  csv_zipped (self Sample.start_a) = true
  /\ untouched "countries.csv.gz" Sample.start_a
               (snd (Db.load_countries Sample.start_a)).
Proof.
  split; [reflexivity|].
  exact (proj1 (proj1 (readers_keep_the_archive Sample.start_a eq_refl))).
Defined.

(** C8 fails as stated: in a default run the reader of variant A returns
    without having written the compressed file. *)
Lemma db_reader_does_not_compress :
  csv_zipped (self Sample.start_a) = true
  /\ fst (Db.load_countries Sample.start_a) = Return PyNone
  /\ ~ In "countries.csv.gz"
          (gzip_writes (world (snd (Db.load_countries Sample.start_a)))).
Proof.
  split; [reflexivity|]. split; [vm_compute; reflexivity|].
  vm_compute. intros [].
Qed.

(** C7, as the code has it.  With the compressed sources in place, a
    reader of variant A that returns has removed the decoded file; when a
    reader of variant A raises, the decoded file is still there; a reader
    of variant B leaves it there in every case. *)
Theorem decoded_file_after_reading (s : State) (countries locations : string) :
  csv_zipped (self s) = true ->
  fs_read "countries.csv.gz" (files (world s)) = Some (Gzip (Plain countries)) ->
  fs_read "us_postal_codes.csv.gz" (files (world s))
  = Some (Gzip (Plain locations)) ->
  match fst (Db.load_countries s) with
  | Return _ =>
      fs_read "countries.csv" (files (world (snd (Db.load_countries s)))) = None
  | Raise _ =>
      fs_read "countries.csv" (files (world (snd (Db.load_countries s))))
      = Some (Plain (remove_cr countries))
  end
  /\ match fst (Db.load_locations s) with
     | Return _ =>
         fs_read "us_postal_codes.csv"
                 (files (world (snd (Db.load_locations s)))) = None
     | Raise _ =>
         fs_read "us_postal_codes.csv"
                 (files (world (snd (Db.load_locations s))))
         = Some (Plain (remove_cr locations))
     end
  /\ fs_read "countries.csv" (files (world (snd (Server.load_countries s))))
     = Some (Plain (remove_cr countries))
  /\ fs_read "us_postal_codes.csv"
             (files (world (snd (Server.load_locations s))))
     = Some (Plain (remove_cr locations)).
Proof.
  intros Hz Hc Hl. split; [|split; [|split]].
  - exact (reader_a_result "countries.csv" "load_countries" as_countries
             ", " 0%nat [0; 1]%nat _ s countries stores_country Hz Hc
             (Db.load_countries s) eq_refl).
  - exact (reader_a_result "us_postal_codes.csv" "load_locations" _ _ _ _ _
             s locations stores_locations Hz Hl (Db.load_locations s) eq_refl).
  - exact (reader_b_result "countries.csv" "load_countries" as_countries
             "," 0%nat [0; 1]%nat _ s countries stores_country Hz Hc
             (Server.load_countries s) eq_refl).
  - exact (reader_b_result "us_postal_codes.csv" "load_locations" _ _ _ _ _
             s locations stores_locations Hz Hl (Server.load_locations s)
             (status_get_world "load_locations" _ s)).
Qed.

Lemma decoded_file_after_reading_witness :
  fs_read "countries.csv"
          (files (world (snd (Server.load_countries Sample.start_b))))
  = Some (Plain (remove_cr Sample.countries_csv_b)).
Proof.
  exact (proj1 (proj2 (proj2
          (decoded_file_after_reading Sample.start_b Sample.countries_csv_b
             Sample.postal_codes_csv eq_refl eq_refl eq_refl)))).
Defined.

(** C7 fails as stated: the reader of variant B returns and the decoded
    file, which was not there before, is still on disk. *)
Lemma server_reader_leaves_decoded_file :
  fs_exists "countries.csv" (files (world Sample.start_b)) = false
  /\ fst (Server.load_countries Sample.start_b) = Return PyNone
  /\ fs_exists "countries.csv"
               (files (world (snd (Server.load_countries Sample.start_b))))
     <> false.
Proof.
  split; [reflexivity|]. split; [vm_compute; reflexivity|].
  vm_compute. discriminate.
Qed.

(** ** The database *)

Lemma time_eqb_eq a b : time_eqb a b = true <-> a = b.
Proof.
  destruct a as [h m s], b as [h' m' s']. unfold time_eqb. cbn.
  rewrite !andb_true_iff, !Z.eqb_eq. split.
  - intros [[-> ->] ->]. reflexivity.
  - intros H. injection H as -> -> ->. auto.
Qed.

Lemma pyval_eqb_eq a b : pyval_eqb a b = true <-> a = b.
Proof.
  destruct a, b; cbn; try (split; [discriminate|congruence]);
    try (split; reflexivity).
  - rewrite Z.eqb_eq. split; congruence.
  - rewrite Z.eqb_eq. split; congruence.
  - rewrite String.eqb_eq. split; congruence.
  - rewrite time_eqb_eq. split; congruence.
Qed.

Lemma pyval_eqb_refl a : pyval_eqb a a = true.
Proof. now apply pyval_eqb_eq. Qed.

Lemma find_put_same name t db : find_table name (put_table name t db) = Some t.
Proof.
  induction db as [|[n t'] db IH]; cbn.
  - now rewrite String.eqb_refl.
  - destruct (String.eqb n name) eqn:E; cbn.
    + now rewrite String.eqb_refl.
    + now rewrite E.
Qed.

Lemma find_put_other name other t db :
  String.eqb other name = false ->
  find_table name (put_table other t db) = find_table name db.
Proof.
  intros Hne. induction db as [|[n t'] db IH]; cbn.
  - now rewrite Hne.
  - destruct (String.eqb n other) eqn:E; cbn.
    + apply String.eqb_eq in E. subst n. now rewrite Hne.
    + now rewrite IH.
Qed.

Lemma find_remove_same name db : find_table name (remove_table name db) = None.
Proof.
  induction db as [|[n t] db IH]; cbn; [reflexivity|].
  destruct (String.eqb n name) eqn:E; [exact IH|]. cbn. now rewrite E.
Qed.

Lemma find_remove_other name other db :
  String.eqb other name = false ->
  find_table name (remove_table other db) = find_table name db.
Proof.
  intros Hne. induction db as [|[n t] db IH]; cbn; [reflexivity|].
  destruct (String.eqb n other) eqn:E.
  - apply String.eqb_eq in E. subst n. now rewrite Hne.
  - cbn. now rewrite IH.
Qed.

(** The parameters of an insert that names every column, in order. *)
Lemma param_for_all fields params :
  NoDup fields -> List.length params = List.length fields ->
  map (fun c => param_for c fields params) fields = params.
Proof.
  revert params. induction fields as [|f fields IH]; intros [|p params] Hnd Hlen;
    try discriminate; [reflexivity|].
  inversion Hnd as [|? ? Hnotin Hnd']; subst. cbn [map param_for].
  rewrite String.eqb_refl. f_equal.
  transitivity (map (fun c => param_for c fields params) fields).
  - apply map_ext_in. intros c Hc. cbn.
    destruct (String.eqb f c) eqn:E; [|reflexivity].
    apply String.eqb_eq in E. now subst c.
  - apply IH; [exact Hnd'|]. cbn in Hlen. lia.
Qed.

Lemma coerce_plain ty v : ty <> INTEGER -> coerce ty v = Return v.
Proof. intros Hty. destruct ty; try reflexivity. now destruct Hty. Qed.

Lemma coerce_row_plain schema vals :
  Forall (fun c => snd c <> INTEGER) schema ->
  List.length vals = List.length schema ->
  coerce_row schema vals = Return vals.
Proof.
  intros Hs. revert vals. induction Hs as [|[n ty] schema Hty Hs IH];
    intros [|v vals] Hlen; try discriminate; [reflexivity|].
  cbn [coerce_row]. cbn in Hty. rewrite (coerce_plain ty v Hty).
  rewrite IH by (cbn in Hlen; lia). reflexivity.
Qed.

Lemma index_of_none name names : ~ In name names -> index_of name names = None.
Proof.
  induction names as [|n names IH]; intros Hin; [reflexivity|]. cbn.
  destruct (String.eqb n name) eqn:E.
  - apply String.eqb_eq in E. subst. now destruct Hin; left.
  - rewrite IH; [reflexivity|]. intros H. apply Hin. now right.
Qed.

Lemma field_value_tail name names i vs :
  name <> "id" ->
  field_value ("id" :: names) name (i :: vs) = field_value names name vs.
Proof.
  intros Hne. unfold field_value. cbn [index_of].
  destruct (String.eqb "id" name) eqn:E.
  - apply String.eqb_eq in E. now destruct Hne.
  - destruct (index_of name names); reflexivity.
Qed.

(** [WHERE] over every column in order compares the whole row. *)
Lemma matches_all fields vals vs :
  NoDup fields ->
  List.length vals = List.length fields -> List.length vs = List.length fields ->
  matches fields fields vals vs = true <-> vs = vals.
Proof.
  revert vals vs.
  induction fields as [|f fields IH]; intros [|v vals] [|x vs] Hnd Hl1 Hl2;
    try discriminate; [split; reflexivity|].
  inversion Hnd as [|? ? Hnotin Hnd']; subst.
  cbn [matches]. unfold field_value at 1. cbn [index_of].
  rewrite String.eqb_refl. cbn [nth].
  rewrite andb_true_iff, pyval_eqb_eq.
  assert (Hm : matches (f :: fields) fields vals (x :: vs)
               = matches fields fields vals vs).
  { clear IH Hl1 Hl2 Hnd'. revert vals.
    assert (Hsub : forall g, In g fields -> f <> g) by (intros g Hg ->; auto).
    revert Hsub. generalize fields at 1 3 5 as gs.
    induction gs as [|g gs IHg]; intros Hsub [|w ws]; try reflexivity.
    cbn [matches]. rewrite IHg by (intros; apply Hsub; now right). f_equal.
    unfold field_value. cbn [index_of].
    destruct (String.eqb f g) eqn:E.
    - apply String.eqb_eq in E. exfalso. apply (Hsub g); [now left|exact E].
    - destruct (index_of g fields); reflexivity. }
  rewrite Hm, IH by (cbn in *; auto; lia).
  split; [intros [-> ->]; reflexivity | intros H; now injection H].
Qed.

Lemma matches_tail fields gs vals i vs :
  ~ In "id" gs ->
  matches ("id" :: fields) gs vals (i :: vs) = matches fields gs vals vs.
Proof.
  revert vals. induction gs as [|g gs IH]; intros [|v vals] Hid; try reflexivity.
  cbn [matches]. rewrite IH by (intros H; apply Hid; now right).
  rewrite field_value_tail; [reflexivity|].
  intros ->. apply Hid. now left.
Qed.

Lemma column_names_serial schema t :
  serial_table schema t -> column_names t = "id" :: map fst schema.
Proof. intros (Hs & Hsch & _). unfold column_names. now rewrite Hs, Hsch. Qed.

(** A row of a serial table is selected by values for every column
    exactly when these are its values. *)
Lemma matches_row schema vals i vs :
  plain_schema schema ->
  List.length vals = List.length schema -> List.length vs = List.length schema ->
  matches ("id" :: map fst schema) (map fst schema) vals (i :: vs) = true
  <-> vs = vals.
Proof.
  intros (Hnd & Hid & _) Hl1 Hl2. rewrite matches_tail by exact Hid.
  apply matches_all; rewrite ?length_map; assumption.
Qed.

Lemma forallb_existsb_self (l : list string) :
  forallb (fun f => existsb (String.eqb f) l) l = true.
Proof.
  apply forallb_forall. intros f Hf. apply existsb_exists.
  exists f. split; [exact Hf | apply String.eqb_refl].
Qed.

(** Inserting values for every column of a serial table appends the row
    made of the next id and these values. *)
Lemma insert_row_serial name schema t vals db :
  find_table name db = Some t -> serial_table schema t -> plain_schema schema ->
  List.length vals = List.length schema ->
  insert_row name (map fst schema) vals db
  = Return (put_table name
              (mkTable true schema [] (t_seq t + 1)
                       (t_rows t ++ [PyInt (t_seq t) :: vals]))
              db).
Proof.
  intros Hfind (Hs & Hsch & Hu & Hrows) (Hnd & Hid & Hty) Hlen.
  unfold insert_row. rewrite Hfind, Hsch, length_map, Hlen, Nat.eqb_refl.
  cbn [negb]. rewrite forallb_existsb_self. cbn [negb].
  rewrite param_for_all by (rewrite ?length_map; assumption).
  unfold column_types, violates_primary_key, violates_unique, column_names.
  rewrite Hs, Hsch, Hu. cbn [app coerce_row coerce].
  rewrite coerce_row_plain by assumption. cbn [andb orb].
  assert (Hpk : existsb (same_on ("id" :: map fst schema) ["id"]
                                 (PyInt (t_seq t) :: vals)) (t_rows t) = false).
  { apply not_true_iff_false. intros Hex.
    apply existsb_exists in Hex as (r & Hr & Hsame).
    rewrite Forall_forall in Hrows.
    destruct (Hrows r Hr) as (i & vs & -> & _ & Hi).
    unfold same_on, field_value in Hsame. cbn in Hsame.
    rewrite andb_true_r in Hsame. apply Z.eqb_eq in Hsame. lia. }
  rewrite Hpk. reflexivity.
Qed.

Lemma insert_keeps_serial schema t vals :
  serial_table schema t -> List.length vals = List.length schema ->
  serial_table schema
    (mkTable true schema [] (t_seq t + 1) (t_rows t ++ [PyInt (t_seq t) :: vals])).
Proof.
  intros (Hs & Hsch & Hu & Hrows) Hlen. repeat split. cbn [t_rows t_seq].
  apply Forall_app. split.
  - eapply Forall_impl; [|exact Hrows]. intros r (i & vs & -> & Hl & Hi).
    exists i, vs. repeat split; [exact Hl | lia].
  - constructor; [|constructor]. exists (t_seq t), vals.
    repeat split; [exact Hlen | lia].
Qed.

(** *** The conditional insert of variant B *)

Lemma rows_where_append schema t vals w :
  serial_table schema t -> plain_schema schema ->
  List.length vals = List.length schema -> List.length w = List.length schema ->
  let t' := mkTable true schema [] (t_seq t + 1)
                    (t_rows t ++ [PyInt (t_seq t) :: vals]) in
  (w = vals ->
   rows_where t' (map fst schema) w
   = (rows_where t (map fst schema) w ++ [PyInt (t_seq t) :: vals])%list)
  /\ (w <> vals ->
      rows_where t' (map fst schema) w = rows_where t (map fst schema) w).
Proof.
  intros Ht Hp Hl1 Hl2 t'.
  assert (Hnames : column_names t' = column_names t).
  { rewrite (column_names_serial schema t Ht). reflexivity. }
  unfold rows_where. rewrite Hnames, (column_names_serial schema t Ht).
  cbn [t' t_rows]. rewrite filter_app. cbn [filter].
  pose proof (matches_row schema w (PyInt (t_seq t)) vals Hp Hl2 Hl1) as Hm.
  split; intros Hw.
  - destruct (matches _ _ w (_ :: vals)) eqn:E; [reflexivity|].
    symmetry in Hw. apply Hm in Hw. congruence.
  - destruct (matches _ _ w (_ :: vals)) eqn:E; [|now rewrite app_nil_r].
    destruct Hw. symmetry. now apply Hm.
Qed.

Lemma pyval_eq_dec (a b : pyval) : {a = b} + {a <> b}.
Proof.
  destruct (pyval_eqb a b) eqn:E.
  - left. now apply pyval_eqb_eq.
  - right. intros H. apply pyval_eqb_eq in H. congruence.
Qed.

Lemma conditional_insert_step name schema t vals db :
  find_table name db = Some t -> serial_table schema t -> plain_schema schema ->
  no_repeats schema t ->
  List.length vals = List.length schema ->
  exists db' t',
    execute_sql (InsertWhereNotExists name (map fst schema)) (vals ++ vals) db
    = Return (db', [])
    /\ find_table name db' = Some t'
    /\ serial_table schema t' /\ no_repeats schema t'
    /\ List.length (rows_where t' (map fst schema) vals) = 1%nat.
Proof.
  intros Hfind Ht Hp Hnr Hlen. cbn [execute_sql]. rewrite Hfind.
  assert (Hk : List.length (map fst schema) = List.length vals)
    by (rewrite length_map; lia).
  assert (Hskip : skipn (List.length vals) (vals ++ vals) = vals).
  { rewrite skipn_app, skipn_all, Nat.sub_diag. reflexivity. }
  assert (Hfirst : firstn (List.length vals) (vals ++ vals) = vals).
  { rewrite firstn_app, firstn_all, Nat.sub_diag. cbn. apply app_nil_r. }
  cbv zeta. rewrite Hk, Hskip, Hfirst, length_app.
  replace (List.length vals + List.length vals =? 2 * List.length vals)%nat
    with true by (symmetry; apply Nat.eqb_eq; lia).
  cbn [negb].
  destruct (existsb _ (t_rows t)) eqn:Eex.
  - exists db, t. repeat split; try assumption; try apply Ht.
    specialize (Hnr vals Hlen).
    apply existsb_exists in Eex as (r & Hr & Hm).
    assert (Hin : In r (rows_where t (map fst schema) vals))
      by (apply filter_In; now split).
    destruct (rows_where t (map fst schema) vals); [destruct Hin|].
    cbn in *. lia.
  - rewrite (insert_row_serial name schema t vals db) by assumption.
    eexists _, _. split; [reflexivity|]. split; [apply find_put_same|].
    split; [now apply insert_keeps_serial|].
    assert (Hnone : rows_where t (map fst schema) vals = []).
    { unfold rows_where.
      destruct (filter _ (t_rows t)) as [|r rest] eqn:Ef; [reflexivity|].
      assert (Hin : In r (filter (matches (column_names t) (map fst schema) vals)
                                 (t_rows t))) by (rewrite Ef; now left).
      apply filter_In in Hin as [Hr Hm].
      assert (existsb (matches (column_names t) (map fst schema) vals)
                      (t_rows t) = true)
        by (apply existsb_exists; now exists r).
      congruence. }
    split.
    + intros w Hw.
      destruct (rows_where_append schema t vals w Ht Hp Hlen Hw) as [Heq Hne].
      destruct (list_eq_dec pyval_eq_dec w vals) as [E|E].
      * rewrite (Heq E). subst w. rewrite Hnone. cbn. lia.
      * rewrite (Hne E). now apply Hnr.
    + destruct (rows_where_append schema t vals vals Ht Hp Hlen Hlen) as [Heq _].
      rewrite (Heq eq_refl), Hnone. reflexivity.
Qed.

Lemma conditional_inserts name schema (earlier : list (list pyval)) :
  plain_schema schema ->
  Forall (fun v => List.length v = List.length schema) earlier ->
  forall db t,
    find_table name db = Some t -> serial_table schema t ->
    no_repeats schema t ->
    exists db' t',
      execute_all (InsertWhereNotExists name (map fst schema))
                  (map (fun v => v ++ v)%list earlier) db
      = Return db'
      /\ find_table name db' = Some t'
      /\ serial_table schema t' /\ no_repeats schema t'.
Proof.
  intros Hp Hall. induction Hall as [|v earlier Hv Hall IH]; intros db t Hf Ht Hnr.
  - exists db, t. split; [reflexivity|]. split; [assumption|]. split; assumption.
  - destruct (conditional_insert_step name schema t v db Hf Ht Hp Hnr Hv)
      as (db1 & t1 & Hex & Hf1 & Ht1 & Hnr1 & _).
    cbn [map execute_all]. rewrite Hex. now apply (IH db1 t1).
Qed.

Lemma fresh_table_serial schema :
  serial_table schema (mkTable true schema [] 1 [])
  /\ no_repeats schema (mkTable true schema [] 1 []).
Proof.
  split.
  - repeat split. constructor.
  - intros w Hw. cbn. lia.
Qed.

(** Values inserted twice through the guarded command, after any
    earlier guarded inserts into the freshly created table. *)
Lemma inserted_twice name schema earlier v db :
  plain_schema schema ->
  Forall (fun w => List.length w = List.length schema) (v :: earlier) ->
  find_table name db = Some (mkTable true schema [] 1 []) ->
  exists db' t',
    execute_all (InsertWhereNotExists name (map fst schema))
                (map (fun w => w ++ w)%list (earlier ++ [v; v])) db
    = Return db'
    /\ find_table name db' = Some t'
    /\ List.length (rows_where t' (map fst schema) v) = 1%nat.
Proof.
  intros Hp Hall Hfresh. inversion Hall as [|? ? Hv Hearlier]; subst.
  destruct (fresh_table_serial schema) as [Hs Hn].
  destruct (conditional_inserts name schema earlier Hp Hearlier db _ Hfresh Hs Hn)
    as (db1 & t1 & Hex1 & Hf1 & Ht1 & Hnr1).
  destruct (conditional_insert_step name schema t1 v db1 Hf1 Ht1 Hp Hnr1 Hv)
    as (db2 & t2 & Hex2 & Hf2 & Ht2 & Hnr2 & Hone2).
  destruct (conditional_insert_step name schema t2 v db2 Hf2 Ht2 Hp Hnr2 Hv)
    as (db3 & t3 & Hex3 & Hf3 & Ht3 & Hnr3 & Hone3).
  exists db3, t3. split; [|now split].
  rewrite map_app.
  assert (Hrun : forall cmd ps qs d d',
             execute_all cmd ps d = Return d' ->
             execute_all cmd (ps ++ qs) d = execute_all cmd qs d').
  { intros cmd ps qs. induction ps as [|p ps IHp]; intros d d' Hd.
    - cbn in Hd. now injection Hd as ->.
    - cbn [app execute_all] in *.
      destruct (execute_sql cmd p d) as [[d1 rows]|e]; [|discriminate].
      now apply IHp. }
  rewrite (Hrun _ _ _ _ _ Hex1). cbn [map execute_all].
  now rewrite Hex2, Hex3.
Qed.

Lemma server_schemas_plain name schema :
  In (name, schema) Server.lookup_tables -> plain_schema schema.
Proof.
  unfold Server.lookup_tables. cbn [In].
  intros H. repeat destruct H as [H|H]; try (now destruct H);
    injection H as <- <-; unfold plain_schema; cbn;
    (split; [repeat constructor; cbn; intuition discriminate|]);
    (split; [intuition discriminate|]);
    repeat constructor; cbn; discriminate.
Qed.



(** ** Runs that return *)

Lemma bind_returns {A B} (m : M A) (k : A -> M B) s v s' :
  bind m k s = (Return v, s') ->
  exists u s1, m s = (Return u, s1) /\ k u s1 = (Return v, s').
Proof.
  unfold bind. destruct (m s) as [[u|e] s1]; [|discriminate].
  intros H. now exists u, s1.
Qed.

(** A decorated call returns when the wrapped function does, and changes
    the object and the session as the function does. *)
Lemma status_returns {A} name (func : M A) s v s' :
  status name func s = (Return v, s') ->
  exists s0 u s1,
    self s0 = self s /\ session s0 = session s
    /\ func s0 = (Return u, s1)
    /\ self s' = self s1 /\ session s' = session s1.
Proof.
  rewrite status_unfold. cbv zeta.
  set (before := snd (print (newline ++ "Execute: " ++ name) s)).
  destruct (func before) as [[u|e] s1] eqn:E; cbn [fst]; [|discriminate].
  intros H. injection H as _ <-.
  exists before, u, s1. repeat split; assumption.
Qed.

Lemma cur_execute_returns cmd params s v s' :
  cur_execute cmd params s = (Return v, s') ->
  exists db' rows,
    execute_sql cmd params (session s) = Return (db', rows)
    /\ self s' = self s /\ session s' = db' /\ cur (self s) = true.
Proof.
  unfold cur_execute, bind, get_self, get_world, session.
  destruct (cur (self s)); [|discriminate].
  destruct (execute_sql cmd params _) as [[db' rows]|e]; [|discriminate].
  intros H. injection H as _ <-. exists db', rows. repeat split.
Qed.

(** A loop of statements whose effect on the tables is [g] while [I]
    holds. *)
Lemma for_each_execute {X} (cmd : X -> sql) (ps : X -> list pyval)
      (I : tables -> Prop) (g : X -> tables -> tables) (xs : list X) :
  (forall x db db' rows,
      I db -> execute_sql (cmd x) (ps x) db = Return (db', rows) ->
      db' = g x db /\ I db') ->
  forall s s',
    I (session s) ->
    for_each xs (fun x => cur_execute (cmd x) (ps x)) s = (Return tt, s') ->
    self s' = self s
    /\ session s' = fold_left (fun d x => g x d) xs (session s)
    /\ I (session s').
Proof.
  intros Hstep. induction xs as [|x xs IH]; intros s s' HI Hrun.
  - cbn in Hrun. injection Hrun as <-. now repeat split.
  - cbn [for_each] in Hrun.
    apply bind_returns in Hrun as (u & s1 & Hx & Hrest).
    apply cur_execute_returns in Hx as (db' & rows & Hex & Hself & Hses & _).
    destruct (Hstep x _ _ _ HI Hex) as [Hg HI'].
    rewrite <- Hses in HI'.
    destruct (IH s1 s' HI' Hrest) as (H1 & H2 & H3).
    repeat split; [congruence | | exact H3].
    cbn [fold_left]. rewrite H2, Hses, Hg. reflexivity.
Qed.

(** *** Populating a lookup table, variant A *)

Lemma numbered_below width bound values :
  Forall (fun v => List.length v = width) values ->
  forall first,
    first + Z.of_nat (List.length values) <= bound ->
    Forall (fun r => exists i vs,
                r = PyInt i :: vs /\ List.length vs = width /\ i < bound)
           (numbered first values).
Proof.
  induction 1 as [|v values Hv Hvals IH]; intros first Hle; [constructor|].
  cbn [numbered]. cbn [List.length] in Hle. constructor.
  - exists first, v. repeat split; [exact Hv | lia].
  - apply IH. lia.
Qed.

Lemma extended_serial schema t values :
  serial_table schema t ->
  Forall (fun v => List.length v = List.length schema) values ->
  serial_table schema (extended t values).
Proof.
  intros (Hs & Hsch & Hu & Hrows) Hvals. unfold extended.
  split; [reflexivity|]. split; [exact Hsch|]. split; [reflexivity|].
  cbn [t_rows t_seq]. apply Forall_app. split.
  - eapply Forall_impl; [|exact Hrows]. intros r (i & vs & -> & Hl & Hi).
    exists i, vs. repeat split; [exact Hl | lia].
  - apply numbered_below; [exact Hvals | lia].
Qed.

Lemma extended_cons t v values :
  extended (extended t [v]) values = extended t (v :: values).
Proof.
  unfold extended. cbn [t_schema t_seq t_rows numbered List.length].
  f_equal; [lia|]. rewrite <- app_assoc. cbn [app].
  replace (t_seq t + Z.of_nat 1) with (t_seq t + 1) by lia. reflexivity.
Qed.

Lemma extended_nil schema t : serial_table schema t -> extended t [] = t.
Proof.
  intros (Hs & Hsch & Hu & _). destruct t as [ser sch uni seq rows].
  cbn in *. subst. unfold extended. cbn. now rewrite Z.add_0_r, app_nil_r.
Qed.

Lemma insert_into_appends name schema v db db' rows :
  plain_schema schema -> List.length v = List.length schema ->
  (exists t, find_table name db = Some t /\ serial_table schema t) ->
  execute_sql (InsertInto name (map fst schema)) v db = Return (db', rows) ->
  db' = append_value name v db
  /\ exists t, find_table name db' = Some t /\ serial_table schema t.
Proof.
  intros Hp Hlen (t & Hf & Ht) Hex. cbn [execute_sql] in Hex.
  rewrite (insert_row_serial name schema t v db Hf Ht Hp Hlen) in Hex.
  injection Hex as <- _. unfold append_value. rewrite Hf.
  assert (Hsch : t_schema t = schema) by apply Ht.
  unfold extended. cbn [numbered List.length]. rewrite Hsch.
  replace (t_seq t + Z.of_nat 1) with (t_seq t + 1) by lia.
  split; [reflexivity|].
  eexists. split; [apply find_put_same|]. now apply insert_keeps_serial.
Qed.

Lemma append_values_find name schema (values : list (list pyval)) :
  Forall (fun v => List.length v = List.length schema) values ->
  forall db t,
    find_table name db = Some t -> serial_table schema t ->
    let db' := fold_left (fun d v => append_value name v d) values db in
    find_table name db' = Some (extended t values)
    /\ forall m, String.eqb name m = false ->
                 find_table m db' = find_table m db.
Proof.
  induction 1 as [|v values Hv Hvals IH]; intros db t Hf Ht; cbn [fold_left].
  - split; [|reflexivity]. now rewrite (extended_nil schema).
  - assert (Hdb : append_value name v db = put_table name (extended t [v]) db)
      by (unfold append_value; now rewrite Hf).
    destruct (IH (append_value name v db) (extended t [v])) as [H1 H2].
    + rewrite Hdb. apply find_put_same.
    + apply (extended_serial schema); [exact Ht|]. now constructor.
    + split.
      * rewrite H1. now rewrite extended_cons.
      * intros m Hm. rewrite (H2 m Hm), Hdb. now apply find_put_other.
Qed.

Lemma iter_returns {X} (xs : option (list X)) s v s' :
  iter xs s = (Return v, s') -> xs = Some v /\ s' = s.
Proof. destruct xs; cbn; intros H; [now injection H as -> ->|discriminate]. Qed.

(** A populating method of variant A that returns has appended one row
    per value of the field it reads, in order, and touched no other
    table. *)
Lemma populate_returns {X} step name schema
      (values : PostgresInitialize -> option (list X)) (ps : X -> list pyval)
      s v s' :
  plain_schema schema -> (forall x, List.length (ps x) = List.length schema) ->
  status step
    (o <- get_self ;;
     xs <- iter (values o) ;;
     for_each xs (fun x => cur_execute (InsertInto name (map fst schema)) (ps x)))
    s = (Return v, s') ->
  forall t,
    find_table name (session s) = Some t -> serial_table schema t ->
    exists xs,
      values (self s) = Some xs /\ self s' = self s
      /\ find_table name (session s') = Some (extended t (map ps xs))
      /\ forall m, String.eqb name m = false ->
                   find_table m (session s') = find_table m (session s).
Proof.
  intros Hp Hlen Hrun t Hf Ht.
  apply status_returns in Hrun as (s0 & u & s1 & Hself0 & Hses0 & Hbody & Hself' & Hses').
  apply bind_returns in Hbody as (o & s2 & Hget & Hbody).
  unfold get_self in Hget. injection Hget as <- <-.
  apply bind_returns in Hbody as (xs & s2 & Hiter & Hloop).
  apply iter_returns in Hiter as [Hxs ->].
  assert (Hstep : forall x db db' rows,
             (exists t, find_table name db = Some t /\ serial_table schema t) ->
             execute_sql (InsertInto name (map fst schema)) (ps x) db
             = Return (db', rows) ->
             db' = append_value name (ps x) db
             /\ exists t, find_table name db' = Some t /\ serial_table schema t).
  { intros x db db' rows HI Hex.
    now apply (insert_into_appends name schema (ps x) db db' rows). }
  assert (HI : exists t, find_table name (session s0) = Some t
                         /\ serial_table schema t)
    by (exists t; rewrite Hses0; now split).
  destruct u.
  destruct (for_each_execute (fun _ => InsertInto name (map fst schema)) ps
              _ _ xs Hstep s0 s1 HI Hloop) as (H1 & H2 & _).
  exists xs. rewrite <- Hself0. split; [exact Hxs|].
  split; [congruence|].
  rewrite Hses', H2, Hses0.
  replace (fold_left (fun d x => append_value name (ps x) d) xs (session s))
    with (fold_left (fun d v => append_value name v d) (map ps xs) (session s)).
  - apply (append_values_find name schema); [|exact Hf|exact Ht].
    apply Forall_forall. intros w Hw.
    apply in_map_iff in Hw as (x & <- & _). apply Hlen.
  - generalize (session s). clear. induction xs as [|x xs IH]; intros d; cbn;
      [reflexivity | apply IH].
Qed.

(** *** Rebuilding the schema *)

Lemma drops_return {X} (name : X -> string) (xs : list X) s s' :
  for_each xs (fun x => cur_execute (DropTable (name x)) []) s = (Return tt, s') ->
  self s' = self s
  /\ session s' = fold_left (fun d x => remove_table (name x) d) xs (session s).
Proof.
  intros Hrun.
  destruct (for_each_execute (fun x => DropTable (name x)) (fun _ => [])
              (fun _ => True) (fun x d => remove_table (name x) d) xs)
    with (s := s) (s' := s') as (H1 & H2 & _); auto.
  intros x db db' rows _ Hex. cbn in Hex. injection Hex as <- _. now split.
Qed.

Lemma creates_return {X} (name : X -> string) serial
      (schema : X -> list (string * coltype)) unique (xs : list X) s s' :
  for_each xs (fun x => cur_execute (CreateTable (name x) serial (schema x) unique) [])
           s = (Return tt, s') ->
  self s' = self s
  /\ session s'
     = fold_left (fun d x => put_table (name x) (created serial (schema x) unique) d)
                 xs (session s).
Proof.
  intros Hrun.
  destruct (for_each_execute
              (fun x => CreateTable (name x) serial (schema x) unique) (fun _ => [])
              (fun _ => True)
              (fun x d => put_table (name x) (created serial (schema x) unique) d) xs)
    with (s := s) (s' := s') as (H1 & H2 & _); auto.
  intros x db db' rows _ Hex. cbn in Hex.
  destruct (find_table (name x) db); [discriminate|].
  injection Hex as <- _. now split.
Qed.

Lemma create_returns name serial schema unique s v s' :
  cur_execute (CreateTable name serial schema unique) [] s = (Return v, s') ->
  self s' = self s
  /\ session s' = put_table name (created serial schema unique) (session s).
Proof.
  intros Hrun.
  apply cur_execute_returns in Hrun as (db' & rows & Hex & Hself & Hses & _).
  cbn in Hex. destruct (find_table name (session s)); [discriminate|].
  injection Hex as <- _. now split.
Qed.

Lemma db_psql_tables_returns s v s' :
  Db.psql_tables s = (Return v, s') ->
  self s' = self s /\ session s' = Db.rebuilt (session s).
Proof.
  intros Hrun.
  apply status_returns in Hrun
    as (s0 & u & s1 & Hself0 & Hses0 & Hbody & Hself' & Hses').
  apply bind_returns in Hbody as ([] & s2 & H1 & Hbody).
  apply (drops_return fst) in H1 as [H1a H1b].
  apply bind_returns in Hbody as ([] & s3 & H2 & Hbody).
  apply (creates_return fst true snd []) in H2 as [H2a H2b].
  apply bind_returns in Hbody as ([] & s4 & H3 & Hbody).
  apply (drops_return (fun x => x)) in H3 as [H3a H3b].
  apply bind_returns in Hbody as ([] & s5 & H4 & H5).
  apply create_returns in H4 as [H4a H4b].
  apply create_returns in H5 as [H5a H5b].
  split; [congruence|].
  rewrite Hses', H5b, H4b, H3b, H2b, H1b, Hses0. reflexivity.
Qed.

Lemma server_psql_tables_returns s v s' :
  Server.psql_tables s = (Return v, s') ->
  self s' = self s /\ session s' = Server.rebuilt (session s).
Proof.
  intros Hrun.
  apply status_returns in Hrun
    as (s0 & u & s1 & Hself0 & Hses0 & Hbody & Hself' & Hses').
  apply bind_returns in Hbody as ([] & s2 & H1 & Hbody).
  apply (drops_return fst) in H1 as [H1a H1b].
  apply bind_returns in Hbody as ([] & s3 & H2 & Hbody).
  apply (creates_return fst true snd []) in H2 as [H2a H2b].
  apply bind_returns in Hbody as ([] & s4 & H3 & H4).
  apply cur_execute_returns in H3 as (db3 & rows3 & Hex3 & H3a & H3b & _).
  cbn in Hex3. injection Hex3 as <- _.
  apply create_returns in H4 as [H4a H4b].
  split; [congruence|].
  rewrite Hses', H4b, H3b, H2b, H1b, Hses0. reflexivity.
Qed.

Ltac find_in_rebuilt :=
  cbn [fold_left fst snd];
  repeat first
    [ rewrite find_put_same
    | rewrite find_put_other by reflexivity
    | rewrite find_remove_other by reflexivity ];
  try reflexivity.

Lemma db_rebuilt_lookup name schema db :
  In (name, schema) Db.lookup_tables ->
  find_table name (Db.rebuilt db) = Some (created true schema []).
Proof.
  unfold Db.lookup_tables. cbn [In].
  intros H. repeat destruct H as [H|H]; try (now destruct H);
    injection H as <- <-; unfold Db.rebuilt, Db.lookup_tables; find_in_rebuilt.
Qed.

Lemma db_rebuilt_composite db :
  find_table "address" (Db.rebuilt db)
  = Some (created false Db.address_schema ["city"; "state"; "postal_code"])
  /\ find_table "events" (Db.rebuilt db)
     = Some (created false Db.composite
                     ["event"; "city"; "postal_code"; "event_date"]).
Proof. unfold Db.rebuilt, Db.lookup_tables. split; find_in_rebuilt. Qed.

Lemma server_rebuilt_lookup name schema db :
  In (name, schema) Server.lookup_tables ->
  find_table name (Server.rebuilt db) = Some (created true schema []).
Proof.
  unfold Server.lookup_tables. cbn [In].
  intros H. repeat destruct H as [H|H]; try (now destruct H);
    injection H as <- <-; unfold Server.rebuilt, Server.lookup_tables;
    find_in_rebuilt.
Qed.

Lemma server_rebuilt_composite db :
  find_table "event" (Server.rebuilt db)
  = Some (created false Server.composite []).
Proof. unfold Server.rebuilt, Server.lookup_tables. find_in_rebuilt. Qed.

(** *** Reading the sources *)

#[local] Instance same_self_composes : Composes same_self.
Proof. split; unfold same_self; congruence. Qed.

#[local] Instance same_data_composes : Composes same_data.
Proof.
  split; unfold same_data.
  - intros s. repeat split.
  - intros s1 s2 s3 H12 H23.
    repeat match goal with H : _ /\ _ |- _ => destruct H end.
    repeat split; congruence.
Qed.

Create HintDb same_self.
Ltac same_self := keeps_with ltac:(auto with same_self) ltac:(intros; reflexivity).

Lemma print_same_self msg : keeps same_self (print msg).
Proof. unfold print. same_self. Qed.
#[local] Hint Resolve print_same_self : same_self.

Lemma unzip_same_self : keeps same_self unzip.
Proof. unfold unzip, gzip_read, write_text. same_self. Qed.

Lemma zip_file_same_self : keeps same_self zip_file.
Proof. unfold zip_file, gzip_copy, os_remove. same_self. Qed.

Lemma keeps_run {A} R (m : M A) s r s' : keeps R m -> m s = (r, s') -> R s s'.
Proof. intros Hk Hrun. specialize (Hk s). now rewrite Hrun in Hk. Qed.

Lemma genfromtxt_returns {R} (dtype : list (list string) -> outcome R)
      delimiter skip_header usecols s x s' :
  genfromtxt dtype delimiter skip_header usecols s = (Return x, s') ->
  s' = s /\ exists rows, dtype rows = Return x.
Proof.
  cbv beta iota delta [genfromtxt bind get_self get_world raise ret path_of].
  destruct (csv_file (self s)); [|discriminate].
  destruct (fs_read _ _) as [[text|c]|]; try discriminate.
  destruct (np_genfromtxt _ _ _ _ _) as [rows|e]; [|discriminate].
  destruct (dtype rows) as [y|e] eqn:E; [|discriminate].
  intros H. injection H as <- <-. split; [reflexivity|]. now exists rows.
Qed.

Lemma as_locations_coordinates coordinate rows loc :
  as_locations coordinate rows = Return loc ->
  Forall (fun r => exists a b, Loc.latitude r = coordinate a
                               /\ Loc.longitude r = coordinate b) loc.
Proof.
  revert loc. induction rows as [|row rows IH]; intros loc H; cbn in H.
  - injection H as <-. constructor.
  - destruct row as [|p [|c [|st [|la [|lo [|]]]]]]; try discriminate.
    destruct (as_locations coordinate rows) as [rest|e]; [|discriminate].
    injection H as <-. constructor; [|now apply IH].
    cbn. now exists la, lo.
Qed.

(** The readers of variant A. *)
Lemma db_load_countries_returns s v s' :
  Db.load_countries s = (Return v, s') ->
  exists countries,
    self s' = set_country (Some countries)
                          (set_csv_file (Some "countries.csv") (self s)).
Proof.
  intros Hrun.
  apply status_returns in Hrun as (s0 & u & s1 & Hself0 & _ & Hbody & Hself' & _).
  apply bind_returns in Hbody as ([] & s2 & H1 & Hbody).
  apply bind_returns in Hbody as ([] & s3 & H2 & Hbody).
  apply bind_returns in Hbody as (x & s4 & H3 & Hbody).
  apply bind_returns in Hbody as ([] & s5 & H4 & H5).
  cbn in H1. injection H1 as <-.
  apply (keeps_run _ _ _ _ _ unzip_same_self) in H2.
  apply genfromtxt_returns in H3 as [-> _].
  apply (keeps_run _ _ _ _ _ zip_file_same_self) in H4.
  cbn in H5. injection H5 as Hs1. subst s1.
  exists x. rewrite Hself'. cbn [self] in *. unfold same_self in *.
  now rewrite H4, H2, Hself0.
Qed.

Lemma db_load_locations_returns s v s' :
  Db.load_locations s = (Return v, s') ->
  exists loc,
    text_coordinates loc
    /\ self s'
       = set_longitude (Some (np_unique (map Loc.longitude loc)))
           (set_latitude (Some (np_unique (map Loc.latitude loc)))
              (set_postal_code
                 (Some (np_unique (map (fun r => PyStr (Loc.postal_code r)) loc)))
                 (set_state (Some (np_unique (map (fun r => PyStr (Loc.state r)) loc)))
                    (set_city
                       (Some (np_unique (map (fun r => PyStr (Loc.city r)) loc)))
                       (set_location_data (Some loc)
                          (set_csv_file (Some "us_postal_codes.csv") (self s))))))).
Proof.
  intros Hrun.
  apply status_returns in Hrun as (s0 & u & s1 & Hself0 & _ & Hbody & Hself' & _).
  apply bind_returns in Hbody as ([] & s2 & H1 & Hbody).
  apply bind_returns in Hbody as ([] & s3 & H2 & Hbody).
  apply bind_returns in Hbody as (x & s4 & H3 & Hbody).
  apply bind_returns in Hbody as ([] & s5 & H4 & H5).
  cbn in H1. injection H1 as <-.
  apply (keeps_run _ _ _ _ _ unzip_same_self) in H2.
  apply genfromtxt_returns in H3 as [-> [rows Hrows]].
  apply (keeps_run _ _ _ _ _ zip_file_same_self) in H4.
  cbn in H5. injection H5 as Hs1. subst s1.
  exists x. split.
  - apply as_locations_coordinates in Hrows.
    eapply Forall_impl; [|exact Hrows]. cbn. intros r (a & b & Ha & Hb).
    now exists (U 9 a), (U 9 b).
  - rewrite Hself'. cbn [self] in *. unfold same_self in *.
    now rewrite H4, H2, Hself0.
Qed.

Lemma load_times_returns s v s' :
  load_times s = (Return v, s') -> self s' = set_time (Some day_times) (self s).
Proof.
  intros Hrun.
  apply status_returns in Hrun as (s0 & u & s1 & Hself0 & _ & Hbody & Hself' & _).
  cbn in Hbody. injection Hbody as _ Hs1. subst s1.
  rewrite Hself'. cbn [self]. now rewrite Hself0.
Qed.

Create HintDb same_data.
Ltac same_data :=
  keeps_with ltac:(auto with same_data)
             ltac:(intros; unfold same_data; repeat split).

Lemma print_same_data msg : keeps same_data (print msg).
Proof. unfold print. same_data. Qed.
#[local] Hint Resolve print_same_data : same_data.

Lemma input_same_data prompt : keeps same_data (input prompt).
Proof. unfold input. same_data. Qed.
#[local] Hint Resolve input_same_data : same_data.

Lemma get_user_same_data : keeps same_data get_user.
Proof. unfold get_user. same_data. Qed.

Lemma get_password_same_data : keeps same_data get_password.
Proof. unfold get_password. same_data. Qed.

Lemma psql_connection_same_data : keeps same_data psql_connection.
Proof. unfold psql_connection. same_data. Qed.

Lemma psql_connection_returns s v s' :
  psql_connection s = (Return v, s') ->
  cur (self s') = true /\ conn (self s') = true.
Proof.
  unfold psql_connection, bind, get_self, get_world.
  destruct (db_login _ _ _ _); [|discriminate].
  cbn. intros H. injection H as _ Hs. subst s'. now split.
Qed.

Lemma loaded_same_data countries loc s s' :
  same_data s s' -> loaded countries loc (self s) -> loaded countries loc (self s').
Proof.
  unfold same_data, loaded. intros H1 H2.
  repeat match goal with H : _ /\ _ |- _ => destruct H end.
  repeat split; congruence.
Qed.

(** *** Resolving the records, variant A *)

Lemma table_select_returns name s v rows s' :
  Db.table_select name "*" None v s = (Return rows, s') ->
  self s' = self s /\ session s' = session s
  /\ exists t, find_table name (session s) = Some t /\ rows = t_rows t.
Proof.
  unfold Db.table_select, session.
  cbv beta iota delta [bind cur_execute cur_fetchall get_self get_world
                       modify_world ret raise].
  destruct (cur (self s)) eqn:Hcur; [|discriminate].
  cbn [execute_sql].
  destruct (find_table name (db_session (world s))) as [t|]; [|discriminate].
  cbn. rewrite Hcur. intros H. injection H as <- <-. cbn.
  repeat split. now exists t.
Qed.

Lemma substitute_returns name i data rows addresses s a' s' :
  Db.substitute name i data rows addresses s = (Return a', s') ->
  s' = s /\ a' = Db.substituted name i data rows addresses.
Proof.
  revert addresses. induction rows as [|values rows IH]; intros addresses H.
  - cbn in H. injection H as <- <-. now split.
  - cbn [Db.substitute Db.substituted] in *.
    destruct values as [|id [|value rest]]; try discriminate.
    destruct (str id); [|discriminate]. now apply IH.
Qed.

Lemma idx_sub_returns name translate addresses s a' s' :
  Db.idx_sub name translate addresses s = (Return a', s') ->
  self s' = self s /\ session s' = session s
  /\ exists i data t,
      index_of name Db.fields = Some i /\ location_data (self s) = Some data
      /\ find_table name (session s) = Some t
      /\ a' = Db.substituted name i data (t_rows t) addresses.
Proof.
  unfold Db.idx_sub. intros Hrun.
  apply bind_returns in Hrun as (o & s1 & Hget & Hrun).
  unfold get_self in Hget. injection Hget as <- <-.
  destruct (index_of name Db.fields) as [i|]; [|discriminate].
  destruct (location_data (self s)) as [data|]; [|discriminate].
  apply bind_returns in Hrun as ([] & s1 & Hprint & Hrun).
  cbn in Hprint. injection Hprint as <-.
  apply bind_returns in Hrun as (rows & s2 & Hsel & Hsub).
  apply table_select_returns in Hsel as (Hself & Hses & t & Hf & ->).
  apply substitute_returns in Hsub as [-> ->].
  cbn [self session world db_session set_stdout] in *.
  repeat split; try assumption. now exists i, data, t.
Qed.

Lemma resolve_returns names addresses s a' s' :
  Db.resolve names addresses s = (Return a', s') ->
  self s' = self s /\ session s' = session s
  /\ forall data, location_data (self s) = Some data ->
                  a' = Db.resolved names data (session s) addresses.
Proof.
  revert addresses s. induction names as [|name names IH]; intros addresses s H.
  - cbn in H. injection H as <- <-. now repeat split.
  - cbn [Db.resolve] in H.
    apply bind_returns in H as (translate & s1 & Hsel & H).
    apply table_select_returns in Hsel as (Hself1 & Hses1 & _).
    apply bind_returns in H as (a1 & s2 & Hidx & H).
    apply idx_sub_returns in Hidx
      as (Hself2 & Hses2 & i & data & t & Hi & Hdata & Hf & ->).
    apply IH in H as (Hself3 & Hses3 & Hres).
    split; [congruence|]. split; [congruence|].
    intros data' Hdata'.
    rewrite (Hres data') by congruence.
    unfold Db.resolved. cbn [fold_left].
    rewrite Hses2, Hses1, Hi. rewrite Hses1 in Hf. rewrite Hf.
    assert (data' = data) by congruence. now subst.
Qed.

(** What one insert into the address table does. *)
Lemma address_insert_returns (a : list string) db db' rows t :
  find_table "address" db = Some t ->
  t_serial t = false -> t_schema t = Db.address_schema ->
  execute_sql (Db.table_insert "address" Db.fields) (map PyStr a) db
  = Return (db', rows) ->
  exists r,
    coerce_row Db.address_schema
               (map (fun c => param_for c Db.fields (map PyStr a))
                    (map fst Db.address_schema))
    = Return r
    /\ violates_unique t r = false
    /\ db' = put_table "address"
               (mkTable false Db.address_schema (t_unique t) (t_seq t)
                        (t_rows t ++ [r]))
               db.
Proof.
  intros Hf Hser Hsch. unfold Db.table_insert. cbn [execute_sql].
  unfold insert_row. rewrite Hf, Hsch, Hser.
  destruct (negb _); [discriminate|].
  destruct (negb _); [discriminate|].
  unfold column_types, violates_primary_key. rewrite Hser, Hsch.
  cbn [app andb orb].
  destruct (coerce_row _ _) as [r|e]; [|discriminate].
  destruct (violates_unique t r) eqn:Hu; [discriminate|].
  intros H. injection H as <- _. now exists r.
Qed.

Lemma address_row_coerced (a : list string) r :
  List.length a = 5%nat ->
  coerce_row Db.address_schema
             (map (fun c => param_for c Db.fields (map PyStr a))
                  (map fst Db.address_schema))
  = Return r ->
  Db.address_row a = Some r.
Proof.
  intros Hlen.
  destruct a as [|p [|c [|s [|la [|lo [|]]]]]]; try discriminate.
  cbn. unfold Db.address_row.
  destruct (int_of_text c); [|discriminate].
  destruct (int_of_text s); [|discriminate].
  destruct (int_of_text p); [|discriminate].
  destruct (int_of_text la); [|discriminate].
  destruct (int_of_text lo); [|discriminate].
  intros H. now injection H as <-.
Qed.

(** The loop that inserts the resolved records, when it returns: one row
    per element, each passing the uniqueness check against the rows
    before it; no other table is touched. *)
Lemma address_inserts_return (addresses : list (list string)) :
  Forall (fun a => List.length a = 5%nat) addresses ->
  forall s s' t,
    for_each addresses
      (fun a => cur_execute (Db.table_insert "address" Db.fields) (map PyStr a))
      s = (Return tt, s') ->
    find_table "address" (session s) = Some t ->
    t_serial t = false -> t_schema t = Db.address_schema ->
    self s' = self s
    /\ (forall m, String.eqb "address" m = false ->
                  find_table m (session s') = find_table m (session s))
    /\ exists rs,
        Forall2 (fun a r => Db.address_row a = Some r) addresses rs
        /\ find_table "address" (session s')
           = Some (mkTable false Db.address_schema (t_unique t) (t_seq t)
                           (t_rows t ++ rs))
        /\ forall before r later,
            rs = (before ++ r :: later)%list ->
            violates_unique
              (mkTable false Db.address_schema (t_unique t) (t_seq t)
                       (t_rows t ++ before)) r = false.
Proof.
  induction 1 as [|a addresses Ha Hall IH]; intros s s' t Hrun Hf Hser Hsch.
  - cbn in Hrun. injection Hrun as <-. split; [reflexivity|].
    split; [reflexivity|]. exists []. split; [constructor|]. split.
    + rewrite app_nil_r, Hf. f_equal. destruct t; cbn in *. now subst.
    + intros [|] ? ? H; discriminate H.
  - cbn [for_each] in Hrun.
    apply bind_returns in Hrun as ([] & s1 & Hx & Hrest).
    apply cur_execute_returns in Hx as (db' & rows & Hex & Hself & Hses & _).
    destruct (address_insert_returns a _ _ _ t Hf Hser Hsch Hex)
      as (r & Hco & Hu & ->).
    apply (address_row_coerced a r Ha) in Hco.
    set (t1 := mkTable false Db.address_schema (t_unique t) (t_seq t)
                       (t_rows t ++ [r])) in *.
    destruct (IH s1 s' t1 Hrest) as (Hself' & Hother & rs & Hrs & Hf' & Huniq);
      [rewrite Hses; apply find_put_same | reflexivity | reflexivity |].
    split; [congruence|]. split.
    { intros m Hm. rewrite (Hother m Hm), Hses. now apply find_put_other. }
    exists (r :: rs). split; [now constructor|]. split.
    + rewrite Hf'. cbn [t1 t_unique t_seq t_rows]. now rewrite <- app_assoc.
    + intros before r' later Heq. destruct before as [|b before].
      * cbn in Heq. injection Heq as <- _. rewrite app_nil_r.
        replace (mkTable false Db.address_schema (t_unique t) (t_seq t) (t_rows t))
          with t by (destruct t; cbn in *; now subst).
        exact Hu.
      * cbn in Heq. injection Heq as <- Heq.
        specialize (Huniq before r' later Heq).
        cbn [t1 t_unique t_seq t_rows] in Huniq.
        now rewrite <- app_assoc in Huniq.
Qed.

(** ** Decimal texts *)

Lemma digit_of_ascii_digit d :
  0 <= d < 10 -> digit_of_ascii (ascii_of_nat (Z.to_nat (48 + d))) = Some d.
Proof.
  intros Hd. unfold digit_of_ascii.
  rewrite nat_ascii_embedding
    by (change 256%nat with (Z.to_nat 256); apply Z2Nat.inj_lt; lia).
  rewrite Z2Nat.id; [|lia].
  replace (48 <=? 48 + d) with true by (symmetry; apply Z.leb_le; lia).
  replace (48 + d <=? 57) with true by (symmetry; apply Z.leb_le; lia).
  cbn [andb]. f_equal. lia.
Qed.

Lemma digits_of_pos_S fuel z acc :
  digits_of_pos (S fuel) z acc
  = if z <? 10
    then String (ascii_of_nat (Z.to_nat (48 + z mod 10))) acc
    else digits_of_pos fuel (z / 10)
                       (String (ascii_of_nat (Z.to_nat (48 + z mod 10))) acc).
Proof. reflexivity. Qed.

(** What [digits_of_pos] writes in front of [acc]: the digits of [z]. *)
Lemma digits_of_pos_spec fuel :
  forall z acc,
    0 <= z < 2 ^ Z.of_nat (S fuel) ->
    exists pre,
      digits_of_pos (S fuel) z acc = pre ++ acc
      /\ pre <> ""
      /\ (forall k, (0 < k)%nat -> z < 10 ^ Z.of_nat k ->
                    (String.length pre <= k)%nat)
      /\ forall a rest,
          int_of_digits a (pre ++ rest)
          = int_of_digits (a * 10 ^ Z.of_nat (String.length pre) + z) rest.
Proof.
  induction fuel as [|fuel IH]; intros z acc Hz;
    assert (Hd : 0 <= z mod 10 < 10) by (apply Z.mod_pos_bound; lia);
    rewrite digits_of_pos_S.
  - change (2 ^ Z.of_nat 1) with 2 in Hz.
    destruct (Z.ltb_spec z 10) as [Hlt|Hge]; [|lia].
    exists (String (ascii_of_nat (Z.to_nat (48 + z mod 10))) "").
    split; [reflexivity|]. split; [discriminate|]. split.
    + intros k Hk _. cbn. lia.
    + intros a rest. cbn [append int_of_digits String.length].
      rewrite digit_of_ascii_digit by exact Hd.
      rewrite Z.mod_small by lia. f_equal.
      change (10 ^ Z.of_nat 1) with 10. lia.
  - destruct (Z.ltb_spec z 10) as [Hlt|Hge].
    + exists (String (ascii_of_nat (Z.to_nat (48 + z mod 10))) "").
      split; [reflexivity|]. split; [discriminate|]. split.
      * intros k Hk _. cbn. lia.
      * intros a rest. cbn [append int_of_digits String.length].
        rewrite digit_of_ascii_digit by exact Hd.
        rewrite Z.mod_small by lia. f_equal.
        change (10 ^ Z.of_nat 1) with 10. lia.
    + assert (Hq : 0 <= z / 10 < 2 ^ Z.of_nat (S fuel)).
      { split; [apply Z.div_pos; lia|].
        apply Z.div_lt_upper_bound; [lia|].
        rewrite (Nat2Z.inj_succ (S fuel)), Z.pow_succ_r in Hz by lia. lia. }
      destruct (IH (z / 10)
                   (String (ascii_of_nat (Z.to_nat (48 + z mod 10))) acc) Hq)
        as (pre & Heq & Hne & Hlen & Hval).
      exists (pre ++ String (ascii_of_nat (Z.to_nat (48 + z mod 10))) "").
      split; [|split; [|split]].
      * rewrite Heq. clear. induction pre; cbn; [reflexivity | now f_equal].
      * destruct pre; [now destruct Hne | discriminate].
      * intros k Hk Hzk.
        assert (Hl : String.length (pre ++ String (ascii_of_nat (Z.to_nat (48 + z mod 10))) "")
                     = S (String.length pre)).
        { clear. induction pre; cbn; [reflexivity | now f_equal]. }
        rewrite Hl. destruct k as [|[|k]]; [lia| |].
        -- cbn in Hzk. lia.
        -- assert (String.length pre <= S k)%nat; [|lia].
           apply Hlen; [lia|].
           apply Z.div_lt_upper_bound; [lia|].
           rewrite (Nat2Z.inj_succ (S k)), Z.pow_succ_r in Hzk by lia. lia.
      * intros a rest.
        assert (Happ : (pre ++ String (ascii_of_nat (Z.to_nat (48 + z mod 10))) "")
                         ++ rest
                       = pre ++ String (ascii_of_nat (Z.to_nat (48 + z mod 10))) rest).
        { clear. induction pre; cbn; [reflexivity | now f_equal]. }
        rewrite Happ, Hval. cbn [int_of_digits].
        rewrite digit_of_ascii_digit by exact Hd. f_equal.
        assert (Hl : String.length (pre ++ String (ascii_of_nat (Z.to_nat (48 + z mod 10))) "")
                     = S (String.length pre)).
        { clear. induction pre; cbn; [reflexivity | now f_equal]. }
        rewrite Hl, Nat2Z.inj_succ, Z.pow_succ_r by lia.
        pose proof (Z.div_mod z 10). lia.
Qed.

Lemma str_of_int_spec z :
  0 <= z ->
  str_of_int z <> ""
  /\ (forall k, (0 < k)%nat -> z < 10 ^ Z.of_nat k ->
                (String.length (str_of_int z) <= k)%nat)
  /\ int_of_text (str_of_int z) = Some z.
Proof.
  intros Hz. unfold str_of_int.
  destruct (digits_of_pos_spec (Z.to_nat (Z.log2 z)) z "")
    as (pre & Heq & Hne & Hlen & Hval).
  { split; [exact Hz|].
    rewrite Nat2Z.inj_succ, Z2Nat.id by apply Z.log2_nonneg.
    destruct (Z.eq_dec z 0) as [->|Hnz]; [reflexivity|].
    apply Z.log2_spec. lia. }
  assert (Hpre : pre ++ "" = pre).
  { clear. induction pre; cbn; [reflexivity | now f_equal]. }
  rewrite Heq, Hpre. split; [exact Hne|]. split; [exact Hlen|].
  unfold int_of_text. destruct pre as [|c pre]; [now destruct Hne|].
  rewrite <- Hpre, Hval. cbn [int_of_digits]. reflexivity.
Qed.

Lemma substring_all n s : (String.length s <= n)%nat -> substring 0 n s = s.
Proof.
  revert n. induction s as [|c s IH]; intros [|n] Hlen; cbn in *;
    try reflexivity; try lia.
  f_equal. apply IH. lia.
Qed.

(** An id of at most six digits is stored in [addresses] and read back
    by the INTEGER column unchanged. *)
Lemma stored_id z :
  0 <= z < 1000000 -> int_of_text (U 6 (str_of_int z)) = Some z.
Proof.
  intros Hz. destruct (str_of_int_spec z) as (_ & Hlen & Hval); [lia|].
  unfold U. rewrite substring_all; [exact Hval|].
  apply Hlen; [lia|]. change (10 ^ Z.of_nat 6) with 1000000. lia.
Qed.

(** ** [np.unique] *)

Lemma insert_sorted_perm x l : Permutation (insert_sorted x l) (x :: l).
Proof.
  induction l as [|y l IH]; cbn; [reflexivity|].
  destruct (pyval_leb x y); [reflexivity|].
  rewrite IH. apply perm_swap.
Qed.

Lemma sorted_perm l : Permutation (fold_right insert_sorted [] l) l.
Proof.
  induction l as [|x l IH]; cbn; [reflexivity|].
  rewrite insert_sorted_perm. now constructor.
Qed.

Lemma existsb_pyval_eqb x l : existsb (pyval_eqb x) l = true <-> In x l.
Proof.
  rewrite existsb_exists. split.
  - intros (y & Hy & E). apply pyval_eqb_eq in E. now subst.
  - intros H. exists x. split; [exact H | apply pyval_eqb_refl].
Qed.

Lemma drop_repeats_in x l : In x (drop_repeats l) <-> In x l.
Proof.
  induction l as [|y l IH]; cbn; [reflexivity|].
  destruct (existsb (pyval_eqb y) l) eqn:E.
  - rewrite IH. apply existsb_pyval_eqb in E. split; [auto|].
    intros [<-|H]; assumption.
  - cbn. now rewrite IH.
Qed.

Lemma drop_repeats_nodup l : NoDup (drop_repeats l).
Proof.
  induction l as [|y l IH]; cbn; [constructor|].
  destruct (existsb (pyval_eqb y) l) eqn:E; [exact IH|].
  constructor; [|exact IH]. rewrite drop_repeats_in.
  intros H. apply existsb_pyval_eqb in H. congruence.
Qed.

Lemma drop_repeats_length l : (List.length (drop_repeats l) <= List.length l)%nat.
Proof.
  induction l as [|y l IH]; cbn; [lia|].
  destruct (existsb (pyval_eqb y) l); cbn; lia.
Qed.

Lemma np_unique_spec l :
  NoDup (np_unique l)
  /\ (forall x, In x (np_unique l) <-> In x l)
  /\ (List.length (np_unique l) <= List.length l)%nat.
Proof.
  unfold np_unique. pose proof (sorted_perm (drop_repeats l)) as Hp.
  split; [|split].
  - apply (Permutation_NoDup (Permutation_sym Hp)), drop_repeats_nodup.
  - intros x. rewrite <- (drop_repeats_in x l). split; apply Permutation_in;
      [exact Hp | exact (Permutation_sym Hp)].
  - rewrite (Permutation_length Hp). apply drop_repeats_length.
Qed.

(** *** What resolution writes *)

Lemma set_nth_twice i x y (a : list string) :
  Db.set_nth i x (Db.set_nth i y a) = Db.set_nth i x a.
Proof.
  revert i. induction a as [|z a IH]; intros [|i]; cbn; try reflexivity.
  now rewrite IH.
Qed.

Lemma set_nth_length i x (a : list string) :
  List.length (Db.set_nth i x a) = List.length a.
Proof.
  revert i. induction a as [|z a IH]; intros [|i]; cbn; try reflexivity.
  now rewrite IH.
Qed.

Lemma written_twice i id found a :
  Db.set_nth i (U 6 (str_of_int id)) (Db.written i found a)
  = Db.written i (Some id) a.
Proof. destruct found; cbn; [apply set_nth_twice | reflexivity]. Qed.

(** One assignment through the mask, record by record. *)
Lemma assign_where_written name i v id data :
  forall (F : Loc.LocationRecord -> option Z) a,
    List.length a = List.length data ->
    Db.assign_where name i v (U 6 (str_of_int id)) data
      (map (fun p => Db.written i (F (fst p)) (snd p)) (combine data a))
    = map (fun p => Db.written i
                      (if Db.mask_eq (Db.loc_column name (fst p)) v
                       then Some id else F (fst p))
                      (snd p))
          (combine data a).
Proof.
  intros F. induction data as [|r data IH]; intros [|x a] Hlen;
    try discriminate; [reflexivity|].
  cbn [combine map Db.assign_where fst snd].
  rewrite IH by (cbn in Hlen; lia). f_equal.
  destruct (Db.mask_eq _ v); [apply written_twice | reflexivity].
Qed.

(** The loop over the rows of a lookup table, record by record. *)
Lemma substituted_written name i data values :
  forall k (F : Loc.LocationRecord -> option Z) a,
    List.length a = List.length data ->
    Db.substituted name i data (numbered k (map (fun x => [x]) values))
      (map (fun p => Db.written i (F (fst p)) (snd p)) (combine data a))
    = map (fun p => Db.written i
                      (Db.last_match (Db.loc_column name (fst p)) k values
                                     (F (fst p)))
                      (snd p))
          (combine data a).
Proof.
  induction values as [|v values IH]; intros k F a Hlen; [reflexivity|].
  cbn [map numbered Db.substituted str Db.last_match].
  rewrite assign_where_written by exact Hlen.
  now rewrite (IH (k + 1)
                  (fun r => if Db.mask_eq (Db.loc_column name r) v
                            then Some k else F r) a Hlen).
Qed.

Lemma map_snd_combine {A B} (l : list A) (l' : list B) :
  List.length l' = List.length l -> map snd (combine l l') = l'.
Proof.
  revert l'. induction l as [|x l IH]; intros [|y l'] H; try discriminate;
    [reflexivity|].
  cbn. f_equal. apply IH. cbn in H. lia.
Qed.

Lemma substituted_fresh name i data values k a :
  List.length a = List.length data ->
  Db.substituted name i data (numbered k (map (fun x => [x]) values)) a
  = map (fun p => Db.written i
                    (Db.last_match (Db.loc_column name (fst p)) k values None)
                    (snd p))
        (combine data a).
Proof.
  intros Hlen.
  rewrite <- (substituted_written name i data values k (fun _ => None) a Hlen).
  f_equal. cbn [Db.written]. now rewrite map_snd_combine.
Qed.

(** Among distinct texts, the row a text selects is the one that holds
    it. *)
Lemma last_match_found m values :
  Forall (fun v => exists s, v = PyStr s) values -> NoDup values ->
  forall p k found,
    nth_error values p = Some (PyStr m) ->
    Db.last_match (Some (PyStr m)) k values found = Some (k + Z.of_nat p).
Proof.
  assert (Hmask : forall s, Db.mask_eq (Some (PyStr m)) (PyStr s) = true
                            <-> PyStr s = PyStr m).
  { intros s. cbn. rewrite String.eqb_eq. split; congruence. }
  assert (Hnone : forall values k found,
             Forall (fun v => exists s, v = PyStr s) values ->
             ~ In (PyStr m) values ->
             Db.last_match (Some (PyStr m)) k values found = found).
  { induction values0 as [|v vs IH]; intros k found Hall Hin; [reflexivity|].
    inversion Hall as [|? ? [s ->] Hall']; subst. cbn [Db.last_match].
    destruct (Db.mask_eq (Some (PyStr m)) (PyStr s)) eqn:E.
    - apply Hmask in E. destruct Hin. now left.
    - apply IH; [exact Hall'|]. intros H. apply Hin. now right. }
  induction 1 as [|v values [s ->] Hall IH]; intros Hnd p k found Hp.
  - destruct p; discriminate.
  - inversion Hnd as [|? ? Hnotin Hnd']; subst. cbn [Db.last_match].
    destruct p as [|p]; cbn in Hp.
    + injection Hp as ->. rewrite (proj2 (Hmask m) eq_refl).
      rewrite Hnone by assumption. f_equal. lia.
    + destruct (Db.mask_eq (Some (PyStr m)) (PyStr s)) eqn:E.
      * apply Hmask in E. rewrite E in Hnotin. destruct Hnotin.
        eapply nth_error_In. exact Hp.
      * rewrite (IH Hnd' p (k + 1) found Hp). f_equal. lia.
Qed.

Lemma combine_map_fusion {A B C} (f : A * B -> C) (g : A * B -> B)
      (data : list A) (a : list B) :
  map f (combine data (map g (combine data a)))
  = map (fun p => f (fst p, g p)) (combine data a).
Proof.
  revert a. induction data as [|r data IH]; intros [|x a]; try reflexivity.
  cbn [combine map fst snd]. now rewrite IH.
Qed.

Lemma length_map_combine {A B} (g : A * B -> B) (data : list A) (a : list B) :
  List.length a = List.length data ->
  List.length (map g (combine data a)) = List.length data.
Proof. intros H. rewrite length_map, length_combine. lia. Qed.

(** The array after the five fields are resolved against lookup tables
    that hold the values [vp], [vc], [vs], [vla] and [vlo], numbered
    from 1. *)
Lemma resolved_rows data db a tp tc ts tla tlo vp vc vs vla vlo :
  find_table "postal_code" db = Some tp ->
  t_rows tp = numbered 1 (map (fun x => [x]) vp) ->
  find_table "city" db = Some tc ->
  t_rows tc = numbered 1 (map (fun x => [x]) vc) ->
  find_table "state" db = Some ts ->
  t_rows ts = numbered 1 (map (fun x => [x]) vs) ->
  find_table "latitude" db = Some tla ->
  t_rows tla = numbered 1 (map (fun x => [x]) vla) ->
  find_table "longitude" db = Some tlo ->
  t_rows tlo = numbered 1 (map (fun x => [x]) vlo) ->
  List.length a = List.length data ->
  Db.resolved Db.fields data db a
  = map (fun p =>
           let r := fst p in
           Db.written 4 (Db.last_match (Db.loc_column "longitude" r) 1 vlo None)
             (Db.written 3 (Db.last_match (Db.loc_column "latitude" r) 1 vla None)
                (Db.written 2 (Db.last_match (Db.loc_column "state" r) 1 vs None)
                   (Db.written 1 (Db.last_match (Db.loc_column "city" r) 1 vc None)
                      (Db.written 0
                         (Db.last_match (Db.loc_column "postal_code" r) 1 vp None)
                         (snd p))))))
        (combine data a).
Proof.
  intros Hp Hrp Hc Hrc Hs Hrs Hla Hrla Hlo Hrlo Hlen.
  unfold Db.resolved, Db.fields.
  cbn [fold_left index_of String.eqb Ascii.eqb Bool.eqb option_map].
  rewrite Hp, Hc, Hs, Hla, Hlo, Hrp, Hrc, Hrs, Hrla, Hrlo.
  rewrite (substituted_fresh "postal_code") by exact Hlen.
  rewrite (substituted_fresh "city") by (now apply length_map_combine).
  rewrite combine_map_fusion.
  rewrite (substituted_fresh "state") by (now apply length_map_combine).
  rewrite combine_map_fusion.
  rewrite (substituted_fresh "latitude") by (now apply length_map_combine).
  rewrite combine_map_fusion.
  rewrite (substituted_fresh "longitude") by (now apply length_map_combine).
  rewrite combine_map_fusion.
  reflexivity.
Qed.

Lemma assign_where_shape name i v new data a n :
  Forall (fun x => List.length x = n) a ->
  Forall (fun x => List.length x = n) (Db.assign_where name i v new data a)
  /\ List.length (Db.assign_where name i v new data a) = List.length a.
Proof.
  revert a. induction data as [|r data IH]; intros [|x a] H; cbn;
    try (now split).
  inversion_clear H as [|? ? Hx Ha]. destruct (IH a Ha) as [H1 H2].
  split; [|now rewrite H2]. constructor; [|exact H1].
  destruct (Db.mask_eq _ _); [now rewrite set_nth_length | exact Hx].
Qed.

Lemma substituted_shape name i data rows a n :
  Forall (fun x => List.length x = n) a ->
  Forall (fun x => List.length x = n) (Db.substituted name i data rows a)
  /\ List.length (Db.substituted name i data rows a) = List.length a.
Proof.
  revert a. induction rows as [|row rows IH]; intros a H; cbn; [now split|].
  destruct row as [|id [|value rest]]; try (now split).
  destruct (str id); [|now split].
  destruct (assign_where_shape name i value (U 6 s) data a n H) as [H1 H2].
  destruct (IH _ H1) as [H3 H4]. split; [exact H3 | congruence].
Qed.

Lemma resolved_shape names data db a n :
  Forall (fun x => List.length x = n) a ->
  Forall (fun x => List.length x = n) (Db.resolved names data db a)
  /\ List.length (Db.resolved names data db a) = List.length a.
Proof.
  unfold Db.resolved. revert a.
  induction names as [|name names IH]; intros a H; cbn [fold_left]; [now split|].
  destruct (index_of name Db.fields) as [i|]; [|now apply IH].
  destruct (find_table name db) as [t|]; [|now apply IH].
  destruct (substituted_shape name i data (t_rows t) a n H) as [H1 H2].
  destruct (IH _ H1) as [H3 H4]. split; [exact H3 | congruence].
Qed.

(** [psql_address] when it returns: the array it allocates, resolved
    against the lookup tables, became the new rows of the address table,
    one per record, each passing the uniqueness check. *)
Lemma db_psql_address_returns s v s' data t :
  Db.psql_address s = (Return v, s') ->
  location_data (self s) = Some data ->
  find_table "address" (session s) = Some t ->
  t_serial t = false -> t_schema t = Db.address_schema ->
  self s' = self s
  /\ (forall m, String.eqb "address" m = false ->
                find_table m (session s') = find_table m (session s))
  /\ exists allocated rs,
      List.length allocated = List.length data
      /\ Forall (fun a => List.length a = 5%nat) allocated
      /\ Forall2 (fun a r => Db.address_row a = Some r)
                 (Db.resolved Db.fields data (session s) allocated) rs
      /\ find_table "address" (session s')
         = Some (mkTable false Db.address_schema (t_unique t) (t_seq t)
                         (t_rows t ++ rs))
      /\ forall before r later,
          rs = (before ++ r :: later)%list ->
          violates_unique
            (mkTable false Db.address_schema (t_unique t) (t_seq t)
                     (t_rows t ++ before)) r = false.
Proof.
  intros Hrun Hdata Hf Hser Hsch.
  apply status_returns in Hrun
    as (s0 & u & s1 & Hself0 & Hses0 & Hbody & Hself' & Hses').
  apply bind_returns in Hbody as (o & s2 & Hget & Hbody).
  unfold get_self in Hget. injection Hget as <- <-.
  apply bind_returns in Hbody as (w & s2 & Hget & Hbody).
  unfold get_world in Hget. injection Hget as <- <-.
  rewrite Hself0, Hdata in Hbody.
  apply bind_returns in Hbody as (addresses & s2 & Hres & Hloop).
  apply resolve_returns in Hres as (Hself2 & Hses2 & Hres).
  specialize (Hres data). rewrite Hself0 in Hres. specialize (Hres Hdata).
  set (allocated := map (fun i => map (np_garbage (world s0) i)
                                      (seq 0 (List.length Db.fields)))
                        (seq 0 (List.length data))) in *.
  assert (Hshape : Forall (fun x => List.length x = 5%nat) allocated).
  { apply Forall_forall. intros x Hx. apply in_map_iff in Hx as (i & <- & _).
    now rewrite length_map, length_seq. }
  destruct (resolved_shape Db.fields data (session s0) allocated 5%nat Hshape)
    as [Hshape' _].
  rewrite <- Hres in Hshape'.
  destruct u.
  destruct (address_inserts_return addresses Hshape' s2 s1 t Hloop)
    as (Hself1 & Hother & rs & Hrs & Hfa & Huniq);
    [congruence | exact Hser | exact Hsch |].
  split; [congruence|]. split.
  { intros m Hm. rewrite Hses', (Hother m Hm). congruence. }
  exists allocated, rs. split.
  { unfold allocated. now rewrite length_map, length_seq. }
  split; [exact Hshape|].
  split; [rewrite <- Hses0, <- Hres; exact Hrs|].
  split; [rewrite Hses'; exact Hfa | exact Huniq].
Qed.

(** *** A run of variant A that returns *)

Lemma db_schemas_plain name schema :
  In (name, schema) Db.lookup_tables -> plain_schema schema.
Proof.
  unfold Db.lookup_tables. cbn [In].
  intros H. repeat destruct H as [H|H]; try (now destruct H);
    injection H as <- <-; unfold plain_schema; cbn;
    (split; [repeat constructor; cbn; intuition discriminate|]);
    (split; [intuition discriminate|]);
    repeat constructor; cbn; discriminate.
Qed.

Lemma conn_commit_returns s v s' :
  conn_commit s = (Return v, s') ->
  self s' = self s /\ db_durable (world s') = session s.
Proof.
  unfold conn_commit, bind, get_self, modify_world, raise.
  destruct (conn (self s)); [|discriminate].
  intros H. injection H as _ <-. now split.
Qed.

(** Carries a fact about one table over the steps that wrote to others. *)
Ltac carry :=
  repeat match goal with
         | H : forall m, String.eqb _ m = false ->
                         find_table m (session ?a) = find_table m (session ?b)
           |- context [find_table ?n (session ?a)] =>
             rewrite (H n eq_refl)
         end.

(** The object and the tables when variant A reaches [psql_address]. *)
Lemma db_before_address {B} (rest : M B) s v s' :
  (Db.load_countries ;; Db.load_locations ;; load_times ;; get_user ;;
   get_password ;; psql_connection ;; Db.psql_tables ;; Db.psql_city ;;
   Db.psql_country ;; Db.psql_latitude ;; Db.psql_longitude ;;
   Db.psql_postal_code ;; Db.psql_state ;; Db.psql_times ;; rest) s
  = (Return v, s') ->
  exists countries loc s14,
    rest s14 = (Return v, s')
    /\ text_coordinates loc
    /\ loaded countries loc (self s14)
    /\ Db.seeded countries loc (session s14)
    /\ find_table "address" (session s14)
       = Some (created false Db.address_schema ["city"; "state"; "postal_code"]).
Proof.
  intros H.
  apply bind_returns in H as (v1 & s1 & H1 & H).
  apply bind_returns in H as (v2 & s2 & H2 & H).
  apply bind_returns in H as (v3 & s3 & H3 & H).
  apply bind_returns in H as (v4 & s4 & H4 & H).
  apply bind_returns in H as (v5 & s5 & H5 & H).
  apply bind_returns in H as (v6 & s6 & H6 & H).
  apply bind_returns in H as (v7 & s7 & H7 & H).
  apply bind_returns in H as (v8 & s8 & H8 & H).
  apply bind_returns in H as (v9 & s9 & H9 & H).
  apply bind_returns in H as (v10 & s10 & H10 & H).
  apply bind_returns in H as (v11 & s11 & H11 & H).
  apply bind_returns in H as (v12 & s12 & H12 & H).
  apply bind_returns in H as (v13 & s13 & H13 & H).
  apply bind_returns in H as (v14 & s14 & H14 & Hrest).
  apply db_load_countries_returns in H1 as [countries E1].
  apply db_load_locations_returns in H2 as (loc & Htext & E2).
  apply load_times_returns in H3.
  assert (L3 : loaded countries loc (self s3)).
  { rewrite H3, E2, E1. repeat split. }
  apply (keeps_run _ _ _ _ _ get_user_same_data) in H4.
  apply (keeps_run _ _ _ _ _ get_password_same_data) in H5.
  apply (keeps_run _ _ _ _ _ psql_connection_same_data) in H6.
  assert (L6 : loaded countries loc (self s6)).
  { now apply (loaded_same_data _ _ s5), (loaded_same_data _ _ s4),
      (loaded_same_data _ _ s3). }
  apply db_psql_tables_returns in H7 as [E7 D7].
  pose proof (fun name schema H => db_rebuilt_lookup name schema (session s6) H)
    as Hfresh.
  rewrite <- D7 in Hfresh.
  destruct (db_rebuilt_composite (session s6)) as [Haddr Hevents].
  rewrite <- D7 in Haddr, Hevents.
  assert (Hin : forall name schema,
             In (name, schema) Db.lookup_tables ->
             find_table name (session s7) = Some (created true schema [])
             /\ serial_table schema (created true schema [])
             /\ plain_schema schema).
  { intros name schema Hi. split; [now apply Hfresh|].
    split; [apply fresh_table_serial | now apply (db_schemas_plain name)]. }
  destruct L6 as (Lc & Ld & Lci & Lst & Lpc & Lla & Llo & Lt).
  rewrite <- E7 in Lc, Ld, Lci, Lst, Lpc, Lla, Llo, Lt.
  (* city *)
  destruct (Hin "city" [("value", TEXT)]) as (F8 & S8 & P8);
    [cbn; auto|].
  destruct (populate_returns "psql_city" "city" [("value", TEXT)] city
              (fun x => [x]) s7 v8 s8 P8 (fun _ => eq_refl) H8 _ F8 S8)
    as (xs8 & X8 & E8 & T8 & O8).
  (* country *)
  destruct (Hin "country" [("value", CHAR 2); ("name", TEXT)])
    as (F9 & S9 & P9); [cbn; auto|].
  rewrite <- (O8 "country" eq_refl) in F9.
  destruct (populate_returns "psql_country" "country"
              [("value", CHAR 2); ("name", TEXT)] country
              (fun xy => [PyStr (fst xy); PyStr (snd xy)]) s8 v9 s9 P9
              (fun _ => eq_refl) H9 _ F9 S9)
    as (xs9 & X9 & E9 & T9 & O9).
  (* latitude *)
  destruct (Hin "latitude" [("value", DOUBLE_PRECISION)])
    as (F10 & S10 & P10); [cbn; auto 10|].
  rewrite <- (O8 "latitude" eq_refl), <- (O9 "latitude" eq_refl) in F10.
  destruct (populate_returns "psql_latitude" "latitude"
              [("value", DOUBLE_PRECISION)] latitude (fun x => [x]) s9 v10 s10
              P10 (fun _ => eq_refl) H10 _ F10 S10)
    as (xs10 & X10 & E10 & T10 & O10).
  (* longitude *)
  destruct (Hin "longitude" [("value", DOUBLE_PRECISION)])
    as (F11 & S11 & P11); [cbn; auto 10|].
  rewrite <- (O8 "longitude" eq_refl), <- (O9 "longitude" eq_refl),
    <- (O10 "longitude" eq_refl) in F11.
  destruct (populate_returns "psql_longitude" "longitude"
              [("value", DOUBLE_PRECISION)] longitude (fun x => [x]) s10 v11 s11
              P11 (fun _ => eq_refl) H11 _ F11 S11)
    as (xs11 & X11 & E11 & T11 & O11).
  (* postal_code *)
  destruct (Hin "postal_code" [("value", CHAR 5)])
    as (F12 & S12 & P12); [cbn; auto 10|].
  rewrite <- (O8 "postal_code" eq_refl), <- (O9 "postal_code" eq_refl),
    <- (O10 "postal_code" eq_refl), <- (O11 "postal_code" eq_refl) in F12.
  destruct (populate_returns "psql_postal_code" "postal_code"
              [("value", CHAR 5)] postal_code (fun x => [x]) s11 v12 s12
              P12 (fun _ => eq_refl) H12 _ F12 S12)
    as (xs12 & X12 & E12 & T12 & O12).
  (* state *)
  destruct (Hin "state" [("value", CHAR 2)])
    as (F13 & S13 & P13); [cbn; auto 10|].
  rewrite <- (O8 "state" eq_refl), <- (O9 "state" eq_refl),
    <- (O10 "state" eq_refl), <- (O11 "state" eq_refl),
    <- (O12 "state" eq_refl) in F13.
  destruct (populate_returns "psql_state" "state"
              [("value", CHAR 2)] state (fun x => [x]) s12 v13 s13
              P13 (fun _ => eq_refl) H13 _ F13 S13)
    as (xs13 & X13 & E13 & T13 & O13).
  (* event_time *)
  destruct (Hin "event_time" [("value", TIME)])
    as (F14 & S14 & P14); [cbn; auto 10|].
  rewrite <- (O8 "event_time" eq_refl), <- (O9 "event_time" eq_refl),
    <- (O10 "event_time" eq_refl), <- (O11 "event_time" eq_refl),
    <- (O12 "event_time" eq_refl), <- (O13 "event_time" eq_refl) in F14.
  destruct (populate_returns "psql_times" "event_time"
              [("value", TIME)] time_ (fun x => [PyTime x]) s13 v14 s14
              P14 (fun _ => eq_refl) H14 _ F14 S14)
    as (xs14 & X14 & E14 & T14 & O14).
  assert (Eself : self s14 = self s7) by congruence.
  rewrite <- Eself in Lc, Ld, Lci, Lst, Lpc, Lla, Llo, Lt.
  assert (xs8 = np_unique (map (fun r => PyStr (Loc.city r)) loc)) by congruence.
  assert (xs9 = countries) by congruence.
  assert (xs10 = np_unique (map Loc.latitude loc)) by congruence.
  assert (xs11 = np_unique (map Loc.longitude loc)) by congruence.
  assert (xs12 = np_unique (map (fun r => PyStr (Loc.postal_code r)) loc))
    by congruence.
  assert (xs13 = np_unique (map (fun r => PyStr (Loc.state r)) loc))
    by congruence.
  assert (xs14 = day_times) by congruence.
  subst xs8 xs9 xs10 xs11 xs12 xs13 xs14.
  exists countries, loc, s14. split; [exact Hrest|].
  split; [exact Htext|]. split.
  { unfold loaded. now repeat split. }
  split.
  - unfold Db.seeded, filled.
    repeat split; carry; try assumption;
      apply Hfresh; cbn; auto 12.
  - carry. exact Haddr.
Qed.

(** *** The foreign keys *)

Lemma numbered_by_id values :
  forall k p v,
    nth_error values p = Some v ->
    filter (matches ["id"; "value"] ["id"] [PyInt (k + Z.of_nat p)])
           (numbered k (map (fun x => [x]) values))
    = [[PyInt (k + Z.of_nat p); v]].
Proof.
  assert (Hm : forall i x w,
             matches ["id"; "value"] ["id"] [PyInt x] [PyInt i; w] = (i =? x)).
  { intros i x w. cbn. unfold field_value. cbn. apply andb_true_r. }
  assert (Hnone : forall values k x,
             x < k ->
             filter (matches ["id"; "value"] ["id"] [PyInt x])
                    (numbered k (map (fun x => [x]) values)) = []).
  { induction values0 as [|w ws IH]; intros k x Hx; [reflexivity|].
    cbn [map numbered filter]. rewrite Hm.
    destruct (Z.eqb_spec k x); [lia|]. apply IH. lia. }
  induction values as [|w values IH]; intros k p v Hp; [now destruct p|].
  cbn [map numbered filter]. rewrite Hm. destruct p as [|p]; cbn in Hp.
  - injection Hp as ->. rewrite Z.add_0_r, Z.eqb_refl.
    rewrite Hnone by lia. reflexivity.
  - destruct (Z.eqb_spec k (k + Z.of_nat (S p))); [lia|].
    replace (k + Z.of_nat (S p)) with (k + 1 + Z.of_nat p) by lia.
    now apply IH.
Qed.

Lemma points_to_filled db table ty values p v :
  find_table table db = Some (filled [("value", ty)] (map (fun x => [x]) values)) ->
  nth_error values p = Some v ->
  Db.points_to db table (PyInt (1 + Z.of_nat p)) v.
Proof.
  intros Hf Hp. eexists. split; [exact Hf|].
  unfold rows_where, filled, extended, created, column_names.
  cbn [t_serial t_schema t_rows app map fst t_seq].
  now apply numbered_by_id.
Qed.

(** The id found for a text that is among the distinct values. *)
Lemma id_found (values : list pyval) m :
  Forall (fun v => exists s, v = PyStr s) values -> NoDup values ->
  In (PyStr m) values ->
  exists p,
    nth_error values p = Some (PyStr m)
    /\ Db.last_match (Some (PyStr m)) 1 values None = Some (1 + Z.of_nat p)
    /\ (p < List.length values)%nat.
Proof.
  intros Hall Hnd Hin. apply In_nth_error in Hin as [p Hp].
  exists p. split; [exact Hp|]. split.
  - now apply last_match_found.
  - apply nth_error_Some. congruence.
Qed.

Lemma np_unique_texts {A} (f : A -> pyval) (l : list A) :
  Forall (fun x => exists s, f x = PyStr s) l ->
  Forall (fun v => exists s, v = PyStr s) (np_unique (map f l)).
Proof.
  intros Hall. destruct (np_unique_spec (map f l)) as (_ & Hin & _).
  apply Forall_forall. intros v Hv. apply Hin in Hv.
  apply in_map_iff in Hv as (x & <- & Hx).
  rewrite Forall_forall in Hall. now apply Hall.
Qed.

(** The id found for a field of a record of [loc] among the distinct
    values of that field. *)
Lemma id_of_record {A} (f : A -> pyval) (l : list A) x m :
  Forall (fun x => exists s, f x = PyStr s) l ->
  In x l -> f x = PyStr m ->
  exists p,
    nth_error (np_unique (map f l)) p = Some (PyStr m)
    /\ Db.last_match (Some (PyStr m)) 1 (np_unique (map f l)) None
       = Some (1 + Z.of_nat p)
    /\ (p < List.length l)%nat.
Proof.
  intros Hall Hx Hm.
  destruct (np_unique_spec (map f l)) as (Hnd & Hin & Hlen).
  destruct (id_found (np_unique (map f l)) m) as (p & H1 & H2 & H3).
  - now apply np_unique_texts.
  - exact Hnd.
  - apply Hin. rewrite <- Hm. now apply in_map.
  - exists p. repeat split; try assumption.
    rewrite length_map in Hlen. lia.
Qed.

Lemma Forall2_combine {A B C D} (P : C -> D -> Prop) (Q : B -> Prop)
      (F : A * B -> C) (l : list A) (gs : list B) (rs : list D) :
  List.length gs = List.length l -> Forall Q gs ->
  Forall2 P (map F (combine l gs)) rs ->
  Forall2 (fun x r => exists g, Q g /\ P (F (x, g)) r) l rs.
Proof.
  revert gs rs. induction l as [|x l IH]; intros [|g gs] rs Hlen HQ H;
    try discriminate.
  - cbn in H. inversion H. constructor.
  - cbn in H. inversion H as [|? r ? rs' Hr Hrs]; subst.
    inversion HQ as [|? ? Hg HQ']; subst.
    constructor; [now exists g|]. apply (IH gs); auto.
Qed.

(** A run of variant A that returns: what was loaded, the lookup tables,
    and the rows of the address table, each made from the element of the
    array resolved for its record and distinct from the rows before it on
    the columns of the uniqueness constraint. *)
Lemma db_run_returns s s' :
  Db.initiate_db s = (Return tt, s') ->
  exists countries loc rows,
    text_coordinates loc
    /\ loaded countries loc (self s')
    /\ Db.seeded countries loc (db_durable (world s'))
    /\ find_table "address" (db_durable (world s'))
       = Some (mkTable false Db.address_schema ["city"; "state"; "postal_code"]
                       1 rows)
    /\ Forall2
         (fun r row =>
            exists g,
              List.length g = 5%nat
              /\ Db.address_row
                   (Db.written 4 (nth 4 (Db.ids_of loc r) None)
                      (Db.written 3 (nth 3 (Db.ids_of loc r) None)
                         (Db.written 2 (nth 1 (Db.ids_of loc r) None)
                            (Db.written 1 (nth 0 (Db.ids_of loc r) None)
                               (Db.written 0 (nth 2 (Db.ids_of loc r) None) g)))))
                 = Some row)
         loc rows
    /\ forall before r later,
        rows = (before ++ r :: later)%list ->
        existsb (same_on (map fst Db.address_schema)
                         ["city"; "state"; "postal_code"] r) before = false.
Proof.
  intros Hrun. unfold Db.initiate_db in Hrun.
  destruct (db_before_address _ s tt s' Hrun)
    as (countries & loc & s14 & Hrest & Htext & Hloaded & Hseeded & Haddr).
  apply bind_returns in Hrest as (v15 & s15 & H15 & Hc).
  assert (Hdata : location_data (self s14) = Some loc) by apply Hloaded.
  destruct (db_psql_address_returns s14 v15 s15 loc _ H15 Hdata Haddr
              eq_refl eq_refl)
    as (Hself & Hother & allocated & rs & Hlen & Hshape & Hrs & Hfa & Huniq).
  apply conn_commit_returns in Hc as [Hself' Hdur].
  exists countries, loc, rs. split; [exact Htext|].
  split; [now rewrite Hself', Hself|].
  assert (Hs15 : Db.seeded countries loc (session s15)).
  { unfold Db.seeded in *.
    repeat match goal with H : _ /\ _ |- _ => destruct H end.
    repeat split; rewrite Hother by reflexivity; assumption. }
  split; [now rewrite Hdur|]. split; [now rewrite Hdur|]. split.
  - destruct Hseeded as (Hci & _ & Hla & Hlo & Hpc & Hst & _).
    rewrite (resolved_rows loc (session s14) allocated _ _ _ _ _
               _ _ _ _ _ Hpc eq_refl Hci eq_refl Hst eq_refl Hla eq_refl
               Hlo eq_refl Hlen) in Hrs.
    apply (Forall2_combine _ (fun g => List.length g = 5%nat)) in Hrs;
      [exact Hrs | exact Hlen | exact Hshape].
  - intros before r later Heq. specialize (Huniq before r later Heq).
    exact Huniq.
Qed.

(** The address row of a record, when every id has at most six digits:
    the positions of the values of the record among the distinct values,
    counted from 1. *)
Lemma record_row loc r g row :
  text_coordinates loc -> In r loc -> Z.of_nat (List.length loc) < 1000000 ->
  List.length g = 5%nat ->
  Db.address_row
    (Db.written 4 (nth 4 (Db.ids_of loc r) None)
       (Db.written 3 (nth 3 (Db.ids_of loc r) None)
          (Db.written 2 (nth 1 (Db.ids_of loc r) None)
             (Db.written 1 (nth 0 (Db.ids_of loc r) None)
                (Db.written 0 (nth 2 (Db.ids_of loc r) None) g)))))
  = Some row ->
  exists pc ps pp pla plo : nat,
    row = [PyInt (1 + Z.of_nat pc); PyInt (1 + Z.of_nat ps);
           PyInt (1 + Z.of_nat pp); PyInt (1 + Z.of_nat pla);
           PyInt (1 + Z.of_nat plo)]
    /\ nth_error (np_unique (map (fun r => PyStr (Loc.city r)) loc)) pc
       = Some (PyStr (Loc.city r))
    /\ nth_error (np_unique (map (fun r => PyStr (Loc.state r)) loc)) ps
       = Some (PyStr (Loc.state r))
    /\ nth_error (np_unique (map (fun r => PyStr (Loc.postal_code r)) loc)) pp
       = Some (PyStr (Loc.postal_code r))
    /\ nth_error (np_unique (map Loc.latitude loc)) pla = Some (Loc.latitude r)
    /\ nth_error (np_unique (map Loc.longitude loc)) plo = Some (Loc.longitude r).
Proof.
  intros Htext Hin Hsize Hg.
  assert (Hany : forall f : Loc.LocationRecord -> string,
             Forall (fun x => exists s, PyStr (f x) = PyStr s) loc).
  { intros f. apply Forall_forall. intros x _. now exists (f x). }
  assert (Hcoord : exists a b, Loc.latitude r = PyStr a /\ Loc.longitude r = PyStr b).
  { unfold text_coordinates in Htext. rewrite Forall_forall in Htext.
    now apply Htext. }
  destruct Hcoord as (a & b & Ha & Hb).
  destruct (id_of_record (fun r => PyStr (Loc.city r)) loc r (Loc.city r)
              (Hany Loc.city) Hin eq_refl) as (pc & Nc & Lc & Bc).
  destruct (id_of_record (fun r => PyStr (Loc.state r)) loc r (Loc.state r)
              (Hany Loc.state) Hin eq_refl) as (ps & Ns & Ls & Bs).
  destruct (id_of_record (fun r => PyStr (Loc.postal_code r)) loc r
              (Loc.postal_code r) (Hany Loc.postal_code) Hin eq_refl)
    as (pp & Np & Lp & Bp).
  destruct (id_of_record Loc.latitude loc r a) as (pla & Nla & Lla & Bla);
    [eapply Forall_impl; [|exact Htext]; intros x (u & w & Hu & _); now exists u
    | exact Hin | exact Ha |].
  destruct (id_of_record Loc.longitude loc r b) as (plo & Nlo & Llo & Blo);
    [eapply Forall_impl; [|exact Htext]; intros x (u & w & _ & Hw); now exists w
    | exact Hin | exact Hb |].
  unfold Db.ids_of. cbn [nth].
  change (Db.loc_column "city" r) with (Some (PyStr (Loc.city r))).
  change (Db.loc_column "state" r) with (Some (PyStr (Loc.state r))).
  change (Db.loc_column "postal_code" r) with (Some (PyStr (Loc.postal_code r))).
  change (Db.loc_column "latitude" r) with (Some (Loc.latitude r)).
  change (Db.loc_column "longitude" r) with (Some (Loc.longitude r)).
  rewrite Ha, Hb, Lc, Ls, Lp, Lla, Llo.
  destruct g as [|g0 [|g1 [|g2 [|g3 [|g4 [|]]]]]]; try discriminate.
  cbn [Db.written Db.set_nth]. unfold Db.address_row.
  rewrite !stored_id by lia.
  intros H. injection H as <-.
  exists pc, ps, pp, pla, plo. now repeat split.
Qed.

Lemma Forall2_impl_in {A B} (P Q : A -> B -> Prop) (l : list A) (rs : list B) :
  (forall x r, In x l -> P x r -> Q x r) -> Forall2 P l rs -> Forall2 Q l rs.
Proof.
  intros H F. induction F as [|x r l rs Hxr F IH]; constructor.
  - apply H; [now left | exact Hxr].
  - apply IH. intros y s Hy. apply H. now right.
Qed.

Lemma row_of_represents countries loc db r row :
  Db.seeded countries loc db -> Db.row_of loc r row -> Db.represents db row r.
Proof.
  intros (Hci & _ & Hla & Hlo & Hpc & Hst & _)
         (pc & ps & pp & pla & plo & -> & Nc & Ns & Np & Nla & Nlo).
  do 5 eexists. split; [reflexivity|].
  repeat split; eapply points_to_filled; eassumption.
Qed.

Lemma points_to_one db table id v v' :
  Db.points_to db table id v -> Db.points_to db table id v' -> v = v'.
Proof. intros (t & Hf & Hr) (t' & Hf' & Hr'). congruence. Qed.

Lemma represents_one db row r r' :
  Db.represents db row r -> Db.represents db row r' -> r = r'.
Proof.
  intros (c & s & p & la & lo & -> & Hc & Hs & Hp & Hla & Hlo)
         (c' & s' & p' & la' & lo' & E & Hc' & Hs' & Hp' & Hla' & Hlo').
  injection E as <- <- <- <- <-.
  pose proof (points_to_one _ _ _ _ _ Hc Hc') as E1.
  pose proof (points_to_one _ _ _ _ _ Hs Hs') as E2.
  pose proof (points_to_one _ _ _ _ _ Hp Hp') as E3.
  pose proof (points_to_one _ _ _ _ _ Hla Hla') as E4.
  pose proof (points_to_one _ _ _ _ _ Hlo Hlo') as E5.
  destruct r, r'. cbn in *. congruence.
Qed.

(** Two rows made for the same record agree on the columns of the
    uniqueness constraint. *)
Lemma row_of_same_key loc r row row' :
  Db.row_of loc r row -> Db.row_of loc r row' ->
  same_on (map fst Db.address_schema) ["city"; "state"; "postal_code"] row row'
  = true.
Proof.
  intros (pc & ps & pp & pla & plo & -> & Nc & Ns & Np & _)
         (pc' & ps' & pp' & pla' & plo' & -> & Nc' & Ns' & Np' & _).
  assert (Hpos : forall (l : list pyval) i j v,
             NoDup l -> nth_error l i = Some v -> nth_error l j = Some v -> i = j).
  { intros l i j v Hnd Hi Hj.
    apply (proj1 (NoDup_nth_error l) Hnd);
      [apply nth_error_Some; congruence | congruence]. }
  rewrite (Hpos _ _ _ _ (proj1 (np_unique_spec _)) Nc Nc').
  rewrite (Hpos _ _ _ _ (proj1 (np_unique_spec _)) Ns Ns').
  rewrite (Hpos _ _ _ _ (proj1 (np_unique_spec _)) Np Np').
  cbn. unfold field_value. cbn. now rewrite !Z.eqb_refl.
Qed.

(** The address table after a run of variant A that returns, when there
    are fewer than a million records. *)
Lemma db_address_table s s' loc :
  Db.initiate_db s = (Return tt, s') ->
  location_data (self s') = Some loc ->
  Z.of_nat (List.length loc) < 1000000 ->
  exists countries rows,
    Db.seeded countries loc (db_durable (world s'))
    /\ find_table "address" (db_durable (world s'))
       = Some (mkTable false Db.address_schema ["city"; "state"; "postal_code"]
                       1 rows)
    /\ Forall2 (Db.row_of loc) loc rows
    /\ forall before r later,
        rows = (before ++ r :: later)%list ->
        existsb (same_on (map fst Db.address_schema)
                         ["city"; "state"; "postal_code"] r) before = false.
Proof.
  intros Hrun Hdata Hsize.
  destruct (db_run_returns s s' Hrun)
    as (countries & loc' & rows & Htext & Hloaded & Hseeded & Hf & Hrows & Huniq).
  assert (loc' = loc) by (destruct Hloaded as (_ & Hd & _); congruence).
  subst loc'. exists countries, rows.
  split; [exact Hseeded|]. split; [exact Hf|]. split; [|exact Huniq].
  eapply Forall2_impl_in; [|exact Hrows].
  intros r row Hin (g & Hg & Hrow).
  exact (record_row loc r g row Htext Hin Hsize Hg Hrow).
Qed.

Lemma Forall2_in_r {A B} (P : A -> B -> Prop) (l : list A) (rs : list B) y :
  Forall2 P l rs -> In y rs -> exists x, In x l /\ P x y.
Proof.
  intros F. induction F as [|x r l rs Hxr F IH]; intros Hy; [destruct Hy|].
  destruct Hy as [<-|Hy].
  - exists x. split; [now left | exact Hxr].
  - destruct (IH Hy) as (x' & Hin & Hp). exists x'. split; [now right | exact Hp].
Qed.

Lemma existsb_in {A} (f : A -> bool) (l : list A) x :
  In x l -> f x = true -> existsb f l = true.
Proof. intros Hin Hf. apply existsb_exists. now exists x. Qed.





(** *** Populating a lookup table, variant B *)

Lemma guarded_insert name schema t v db seen db' rows :
  plain_schema schema -> List.length v = List.length schema ->
  Forall (fun w => List.length w = List.length schema) seen ->
  find_table name db = Some t -> holding schema seen t ->
  execute_sql (InsertWhereNotExists name (map fst schema)) (v ++ v) db
  = Return (db', rows) ->
  exists t',
    find_table name db' = Some t' /\ holding schema (seen ++ [v]) t'
    /\ forall m, String.eqb name m = false -> find_table m db' = find_table m db.
Proof.
  intros Hp Hlen Hseen Hfind (Ht & Hnr & Hone & Hrows) Hex.
  cbn [execute_sql] in Hex. rewrite Hfind in Hex.
  assert (Hk : List.length (map fst schema) = List.length v)
    by (rewrite length_map; lia).
  assert (Hskip : skipn (List.length v) (v ++ v) = v).
  { rewrite skipn_app, skipn_all, Nat.sub_diag. reflexivity. }
  assert (Hfirst : firstn (List.length v) (v ++ v) = v).
  { rewrite firstn_app, firstn_all, Nat.sub_diag. cbn. apply app_nil_r. }
  cbv zeta in Hex. rewrite Hk, Hskip, Hfirst, length_app in Hex.
  replace (List.length v + List.length v =? 2 * List.length v)%nat
    with true in Hex by (symmetry; apply Nat.eqb_eq; lia).
  cbn [negb] in Hex.
  assert (Hwider : Forall (fun r => exists i w, r = PyInt i :: w
                                               /\ In w (seen ++ [v])) (t_rows t)).
  { eapply Forall_impl; [|exact Hrows]. intros r (i & w & -> & Hw).
    exists i, w. split; [reflexivity|]. apply in_or_app. now left. }
  destruct (existsb _ (t_rows t)) eqn:Eex.
  - injection Hex as <- _. exists t. split; [exact Hfind|].
    split; [|reflexivity].
    split; [exact Ht|]. split; [exact Hnr|]. split; [|exact Hwider].
    intros w Hw. apply in_app_or in Hw as [Hw|[<-|[]]]; [now apply Hone|].
    specialize (Hnr v Hlen).
    apply existsb_exists in Eex as (r & Hr & Hm).
    assert (Hin : In r (rows_where t (map fst schema) v))
      by (apply filter_In; now split).
    destruct (rows_where t (map fst schema) v) as [|a [|b l]];
      [destruct Hin | reflexivity | cbn in Hnr; lia].
  - rewrite (insert_row_serial name schema t v db) in Hex by assumption.
    injection Hex as <- _.
    eexists. split; [apply find_put_same|].
    split; [|intros m Hm; now apply find_put_other].
    assert (Hnone : rows_where t (map fst schema) v = []).
    { unfold rows_where.
      destruct (filter _ (t_rows t)) as [|r rest] eqn:Ef; [reflexivity|].
      assert (Hin : In r (filter (matches (column_names t) (map fst schema) v)
                                 (t_rows t))) by (rewrite Ef; now left).
      apply filter_In in Hin as [Hr Hm].
      assert (existsb (matches (column_names t) (map fst schema) v)
                      (t_rows t) = true)
        by (apply existsb_exists; now exists r).
      congruence. }
    split; [now apply insert_keeps_serial|]. split; [|split].
    + intros w Hw.
      destruct (rows_where_append schema t v w Ht Hp Hlen Hw) as [Heq Hne].
      destruct (list_eq_dec pyval_eq_dec w v) as [E|E].
      * rewrite (Heq E). subst w. rewrite Hnone. cbn. lia.
      * rewrite (Hne E). now apply Hnr.
    + intros w Hw.
      assert (Hwl : List.length w = List.length schema).
      { apply in_app_or in Hw as [Hw|[<-|[]]]; [|exact Hlen].
        now apply (proj1 (Forall_forall _ _) Hseen). }
      destruct (rows_where_append schema t v w Ht Hp Hlen Hwl) as [Heq Hne].
      destruct (list_eq_dec pyval_eq_dec w v) as [E|E].
      * rewrite (Heq E). subst w. rewrite Hnone. reflexivity.
      * rewrite (Hne E). apply in_app_or in Hw as [Hw|[Hw|[]]];
          [now apply Hone | congruence].
    + cbn [t_rows]. apply Forall_app. split; [exact Hwider|].
      constructor; [|constructor]. exists (t_seq t), v.
      split; [reflexivity|]. apply in_or_app. right. now left.
Qed.

Lemma guarded_loop {X} name schema (ps : X -> list pyval) (xs : list X) :
  plain_schema schema -> (forall x, List.length (ps x) = List.length schema) ->
  forall seen s s' t,
    Forall (fun w => List.length w = List.length schema) seen ->
    find_table name (session s) = Some t -> holding schema seen t ->
    for_each xs (fun x => cur_execute (InsertWhereNotExists name (map fst schema))
                                      (ps x ++ ps x)) s
    = (Return tt, s') ->
    exists t',
      self s' = self s
      /\ find_table name (session s') = Some t'
      /\ holding schema (seen ++ map ps xs) t'
      /\ forall m, String.eqb name m = false ->
                   find_table m (session s') = find_table m (session s).
Proof.
  intros Hp Hlen. induction xs as [|x xs IH]; intros seen s s' t Hseen Hf Ht Hrun.
  - cbn in Hrun. injection Hrun as <-. exists t. cbn [map].
    rewrite app_nil_r. split; [reflexivity|]. split; [exact Hf|].
    split; [exact Ht | reflexivity].
  - cbn [for_each] in Hrun.
    apply bind_returns in Hrun as (u & s1 & Hx & Hrest).
    apply cur_execute_returns in Hx as (db' & rows & Hex & Hself & Hses & _).
    destruct (guarded_insert name schema t (ps x) _ seen db' rows Hp (Hlen x)
                Hseen Hf Ht Hex) as (t1 & Hf1 & Ht1 & Ho1).
    rewrite <- Hses in Hf1, Ho1.
    destruct (IH (seen ++ [ps x])%list s1 s' t1) as (t' & H1 & H2 & H3 & H4);
      [|exact Hf1|exact Ht1|exact Hrest|].
    { apply Forall_app. split; [exact Hseen|]. constructor; [apply Hlen|constructor]. }
    exists t'. split; [congruence|]. split; [exact H2|].
    split; [now rewrite <- app_assoc in H3|].
    intros m Hm. now rewrite (H4 m Hm), (Ho1 m Hm).
Qed.

(** A populating method of variant B that returns leaves, in the table
    it writes to, exactly one row for each value of the field it reads
    and no other row, and touches no other table. *)
Lemma guarded_populate_returns {X} step name schema
      (values : PostgresInitialize -> option (list X)) (ps : X -> list pyval)
      s v s' :
  plain_schema schema -> (forall x, List.length (ps x) = List.length schema) ->
  status step
    (o <- get_self ;;
     xs <- iter (values o) ;;
     for_each xs (fun x => cur_execute (InsertWhereNotExists name (map fst schema))
                                       (ps x ++ ps x)))
    s = (Return v, s') ->
  find_table name (session s) = Some (created true schema []) ->
  exists xs t',
    values (self s) = Some xs /\ self s' = self s
    /\ find_table name (session s') = Some t'
    /\ holding schema (map ps xs) t'
    /\ forall m, String.eqb name m = false ->
                 find_table m (session s') = find_table m (session s).
Proof.
  intros Hp Hlen Hrun Hf.
  apply status_returns in Hrun
    as (s0 & u & s1 & Hself0 & Hses0 & Hbody & Hself' & Hses').
  apply bind_returns in Hbody as (o & s2 & Hget & Hbody).
  unfold get_self in Hget. injection Hget as <- <-.
  apply bind_returns in Hbody as (xs & s2 & Hiter & Hloop).
  apply iter_returns in Hiter as [Hxs ->]. destruct u.
  rewrite <- Hses0 in Hf.
  destruct (guarded_loop name schema ps xs Hp Hlen [] s0 s1 _
              (Forall_nil _) Hf) as (t' & H1 & H2 & H3 & H4); [|exact Hloop|].
  { destruct (fresh_table_serial schema) as [Hs Hn].
    split; [exact Hs|]. split; [exact Hn|]. split; [intros w []|constructor]. }
  exists xs, t'. rewrite <- Hself0. split; [exact Hxs|].
  split; [congruence|]. rewrite Hses'. split; [exact H2|]. split; [exact H3|].
  intros m Hm. now rewrite (H4 m Hm), Hses0.
Qed.

(** The readers of variant B. *)
Lemma server_load_countries_returns s v s' :
  Server.load_countries s = (Return v, s') ->
  exists countries,
    self s' = set_country (Some countries)
                          (set_csv_file (Some "countries.csv") (self s)).
Proof.
  intros Hrun.
  apply status_returns in Hrun as (s0 & u & s1 & Hself0 & _ & Hbody & Hself' & _).
  apply bind_returns in Hbody as ([] & s2 & H1 & Hbody).
  apply bind_returns in Hbody as ([] & s3 & H2 & Hbody).
  apply bind_returns in Hbody as (x & s4 & H3 & H5).
  cbn in H1. injection H1 as <-.
  apply (keeps_run _ _ _ _ _ unzip_same_self) in H2.
  apply genfromtxt_returns in H3 as [-> _].
  cbn in H5. injection H5 as Hs1. subst s1.
  exists x. rewrite Hself'. cbn [self] in *. unfold same_self in *.
  now rewrite H2, Hself0.
Qed.

Lemma server_load_locations_returns s v s' :
  Server.load_locations s = (Return v, s') ->
  exists loc,
    self s'
    = set_longitude (Some (np_unique (map Loc.longitude loc)))
        (set_latitude (Some (np_unique (map Loc.latitude loc)))
           (set_postal_code
              (Some (np_unique (map (fun r => PyStr (Loc.postal_code r)) loc)))
              (set_state (Some (np_unique (map (fun r => PyStr (Loc.state r)) loc)))
                 (set_city
                    (Some (np_unique (map (fun r => PyStr (Loc.city r)) loc)))
                    (set_location_data (Some loc)
                       (set_csv_file (Some "us_postal_codes.csv") (self s))))))).
Proof.
  intros Hrun.
  apply status_returns in Hrun as (s0 & u & s1 & Hself0 & _ & Hbody & Hself' & _).
  apply bind_returns in Hbody as (w & s2 & H0 & Hbody).
  unfold get_world in H0. injection H0 as _ <-.
  apply bind_returns in Hbody as ([] & s2 & H1 & Hbody).
  apply bind_returns in Hbody as ([] & s3 & H2 & Hbody).
  apply bind_returns in Hbody as (x & s4 & H3 & H5).
  cbn in H1. injection H1 as <-.
  apply (keeps_run _ _ _ _ _ unzip_same_self) in H2.
  apply genfromtxt_returns in H3 as [-> _].
  cbn in H5. injection H5 as Hs1. subst s1.
  exists x. rewrite Hself'. cbn [self] in *. unfold same_self in *.
  now rewrite H2, Hself0.
Qed.

(** The object and the committed tables after a run of variant B that
    returns. *)
Lemma server_run_returns s s' :
  Server.initiate_db s = (Return tt, s') ->
  exists countries loc,
    loaded countries loc (self s')
    /\ server_seeded countries loc (db_durable (world s')).
Proof.
  intros H. unfold Server.initiate_db in H.
  apply bind_returns in H as (v1 & s1 & H1 & H).
  apply bind_returns in H as (v2 & s2 & H2 & H).
  apply bind_returns in H as (v3 & s3 & H3 & H).
  apply bind_returns in H as (v4 & s4 & H4 & H).
  apply bind_returns in H as (v5 & s5 & H5 & H).
  apply bind_returns in H as (v6 & s6 & H6 & H).
  apply bind_returns in H as (v7 & s7 & H7 & H).
  apply bind_returns in H as (v8 & s8 & H8 & H).
  apply bind_returns in H as (v9 & s9 & H9 & H).
  apply bind_returns in H as (v10 & s10 & H10 & H).
  apply bind_returns in H as (v11 & s11 & H11 & H).
  apply bind_returns in H as (v12 & s12 & H12 & H).
  apply bind_returns in H as (v13 & s13 & H13 & H).
  apply bind_returns in H as (v14 & s14 & H14 & Hcommit).
  apply server_load_countries_returns in H1 as [countries E1].
  apply server_load_locations_returns in H2 as (loc & E2).
  apply load_times_returns in H3.
  assert (L3 : loaded countries loc (self s3)).
  { rewrite H3, E2, E1. repeat split. }
  apply (keeps_run _ _ _ _ _ get_user_same_data) in H4.
  apply (keeps_run _ _ _ _ _ get_password_same_data) in H5.
  apply (keeps_run _ _ _ _ _ psql_connection_same_data) in H6.
  assert (L6 : loaded countries loc (self s6)).
  { now apply (loaded_same_data _ _ s5), (loaded_same_data _ _ s4),
      (loaded_same_data _ _ s3). }
  apply server_psql_tables_returns in H7 as [E7 D7].
  pose proof (fun name schema H => server_rebuilt_lookup name schema (session s6) H)
    as Hfresh.
  rewrite <- D7 in Hfresh.
  pose proof (server_rebuilt_composite (session s6)) as Hevent.
  rewrite <- D7 in Hevent.
  assert (Hin : forall name schema,
             In (name, schema) Server.lookup_tables ->
             find_table name (session s7) = Some (created true schema [])
             /\ plain_schema schema).
  { intros name schema Hi. split; [now apply Hfresh|].
    now apply (server_schemas_plain name). }
  destruct L6 as (Lc & Ld & Lci & Lst & Lpc & Lla & Llo & Lt).
  rewrite <- E7 in Lc, Ld, Lci, Lst, Lpc, Lla, Llo, Lt.
  (* city *)
  destruct (Hin "city" [("city_name", TEXT)]) as (F8 & P8); [cbn; auto|].
  destruct (guarded_populate_returns "psql_city" "city" [("city_name", TEXT)] city
              (fun x => [x]) s7 v8 s8 P8 (fun _ => eq_refl) H8 F8)
    as (xs8 & t8 & X8 & E8 & T8 & K8 & O8).
  (* country *)
  destruct (Hin "country" [("country_abbr", CHAR 2); ("country_name", TEXT)])
    as (F9 & P9); [cbn; auto|].
  rewrite <- (O8 "country" eq_refl) in F9.
  destruct (guarded_populate_returns "psql_country" "country"
              [("country_abbr", CHAR 2); ("country_name", TEXT)] country
              (fun xy => [PyStr (fst xy); PyStr (snd xy)]) s8 v9 s9 P9
              (fun _ => eq_refl) H9 F9)
    as (xs9 & t9 & X9 & E9 & T9 & K9 & O9).
  (* latitude *)
  destruct (Hin "latitude" [("latitude_value", REAL)])
    as (F10 & P10); [cbn; auto 10|].
  rewrite <- (O8 "latitude" eq_refl), <- (O9 "latitude" eq_refl) in F10.
  destruct (guarded_populate_returns "psql_latitude" "latitude"
              [("latitude_value", REAL)] latitude (fun x => [x]) s9 v10 s10
              P10 (fun _ => eq_refl) H10 F10)
    as (xs10 & t10 & X10 & E10 & T10 & K10 & O10).
  (* longitude *)
  destruct (Hin "longitude" [("longitude_value", REAL)])
    as (F11 & P11); [cbn; auto 10|].
  rewrite <- (O8 "longitude" eq_refl), <- (O9 "longitude" eq_refl),
    <- (O10 "longitude" eq_refl) in F11.
  destruct (guarded_populate_returns "psql_longitude" "longitude"
              [("longitude_value", REAL)] longitude (fun x => [x]) s10 v11 s11
              P11 (fun _ => eq_refl) H11 F11)
    as (xs11 & t11 & X11 & E11 & T11 & K11 & O11).
  (* postal_code *)
  destruct (Hin "postal_code" [("postal_code_value", CHAR 5)])
    as (F12 & P12); [cbn; auto 10|].
  rewrite <- (O8 "postal_code" eq_refl), <- (O9 "postal_code" eq_refl),
    <- (O10 "postal_code" eq_refl), <- (O11 "postal_code" eq_refl) in F12.
  destruct (guarded_populate_returns "psql_postal_code" "postal_code"
              [("postal_code_value", CHAR 5)] postal_code (fun x => [x]) s11 v12 s12
              P12 (fun _ => eq_refl) H12 F12)
    as (xs12 & t12 & X12 & E12 & T12 & K12 & O12).
  (* state *)
  destruct (Hin "state" [("state_name", CHAR 2)])
    as (F13 & P13); [cbn; auto 10|].
  rewrite <- (O8 "state" eq_refl), <- (O9 "state" eq_refl),
    <- (O10 "state" eq_refl), <- (O11 "state" eq_refl),
    <- (O12 "state" eq_refl) in F13.
  destruct (guarded_populate_returns "psql_state" "state"
              [("state_name", CHAR 2)] state (fun x => [x]) s12 v13 s13
              P13 (fun _ => eq_refl) H13 F13)
    as (xs13 & t13 & X13 & E13 & T13 & K13 & O13).
  (* times *)
  destruct (Hin "times" [("time_value", TIME)])
    as (F14 & P14); [cbn; auto 10|].
  rewrite <- (O8 "times" eq_refl), <- (O9 "times" eq_refl),
    <- (O10 "times" eq_refl), <- (O11 "times" eq_refl),
    <- (O12 "times" eq_refl), <- (O13 "times" eq_refl) in F14.
  destruct (guarded_populate_returns "psql_times" "times"
              [("time_value", TIME)] time_ (fun x => [PyTime x]) s13 v14 s14
              P14 (fun _ => eq_refl) H14 F14)
    as (xs14 & t14 & X14 & E14 & T14 & K14 & O14).
  assert (Eself : self s14 = self s7) by congruence.
  rewrite <- Eself in Lc, Ld, Lci, Lst, Lpc, Lla, Llo, Lt.
  assert (xs8 = np_unique (map (fun r => PyStr (Loc.city r)) loc)) by congruence.
  assert (xs9 = countries) by congruence.
  assert (xs10 = np_unique (map Loc.latitude loc)) by congruence.
  assert (xs11 = np_unique (map Loc.longitude loc)) by congruence.
  assert (xs12 = np_unique (map (fun r => PyStr (Loc.postal_code r)) loc))
    by congruence.
  assert (xs13 = np_unique (map (fun r => PyStr (Loc.state r)) loc))
    by congruence.
  assert (xs14 = day_times) by congruence.
  subst xs8 xs9 xs10 xs11 xs12 xs13 xs14.
  apply conn_commit_returns in Hcommit as [Ec Dc].
  exists countries, loc. split.
  { rewrite Ec. unfold loaded. now repeat split. }
  rewrite Dc. unfold server_seeded, populated.
  split; [exists t8; split; [carry; exact T8 | exact K8]|].
  split; [exists t9; split; [carry; exact T9 | exact K9]|].
  split; [exists t10; split; [carry; exact T10 | exact K10]|].
  split; [exists t11; split; [carry; exact T11 | exact K11]|].
  split; [exists t12; split; [carry; exact T12 | exact K12]|].
  split; [exists t13; split; [carry; exact T13 | exact K13]|].
  split; [exists t14; split; [carry; exact T14 | exact K14]|].
  split; [carry; apply Hfresh; cbn; auto 12|].
  split; [carry; apply Hfresh; cbn; auto 12|].
  split; [carry; apply Hfresh; cbn; auto 12|].
  carry. exact Hevent.
Qed.

(** *** What a run leaves in the tables *)




(** *** Ids of seven digits and more *)

Lemma int_of_digits_prefix s1 :
  forall a s2 v,
    int_of_digits a (s1 ++ s2) = Some v -> exists v1, int_of_digits a s1 = Some v1.
Proof.
  induction s1 as [|c s1 IH]; intros a s2 v H; cbn in *.
  - now exists a.
  - destruct (digit_of_ascii c); [now apply (IH _ s2 v) | discriminate].
Qed.

Lemma substring_prefix n :
  forall s, exists rest, s = (substring 0 n s ++ rest)%string.
Proof.
  induction n as [|n IH]; intros [|c s]; cbn.
  - now exists "".
  - now exists (String c s).
  - now exists "".
  - destruct (IH s) as [rest Hrest]. exists rest. now rewrite <- Hrest.
Qed.

Lemma substring_length_le n :
  forall s, (String.length (substring 0 n s) <= n)%nat.
Proof.
  induction n as [|n IH]; intros [|c s]; cbn; try lia.
  specialize (IH s). lia.
Qed.

Lemma digit_of_ascii_range c d : digit_of_ascii c = Some d -> 0 <= d <= 9.
Proof.
  unfold digit_of_ascii. cbv zeta.
  destruct (_ && _) eqn:E; [|discriminate].
  intros H. injection H as <-. apply andb_true_iff in E as [E1 E2]. lia.
Qed.

Lemma int_of_digits_bound s :
  forall a v,
    0 <= a -> int_of_digits a s = Some v ->
    0 <= v < (a + 1) * 10 ^ Z.of_nat (String.length s).
Proof.
  induction s as [|c s IH]; intros a v Ha H.
  - cbn in H. injection H as <-. cbn. lia.
  - cbn [int_of_digits] in H.
    destruct (digit_of_ascii c) as [d|] eqn:Ed; [|discriminate].
    apply digit_of_ascii_range in Ed.
    apply IH in H; [|lia].
    cbn [String.length]. rewrite Nat2Z.inj_succ, Z.pow_succ_r by lia.
    assert (0 < 10 ^ Z.of_nat (String.length s)) by (apply Z.pow_pos_nonneg; lia).
    nia.
Qed.

Lemma clip_text z :
  0 <= z ->
  int_of_text (U 6 (str_of_int z)) = Some (clip z) /\ 0 <= clip z < 1000000.
Proof.
  intros Hz. destruct (str_of_int_spec z Hz) as (Hne & _ & Hint).
  unfold clip, U.
  destruct (substring_prefix 6 (str_of_int z)) as [rest Hrest].
  pose proof (substring_length_le 6 (str_of_int z)) as Hlen.
  destruct (str_of_int z) as [|c0 s0] eqn:Es; [now destruct Hne|].
  cbn [substring] in *. cbn [int_of_text] in *.
  rewrite Hrest in Hint.
  destruct (int_of_digits_prefix _ _ _ _ Hint) as [c Hc].
  rewrite Hc. split; [reflexivity|].
  apply int_of_digits_bound in Hc; [|lia].
  assert (10 ^ Z.of_nat (String.length (String c0 (substring 0 5 s0)))
          <= 10 ^ 6) by (apply Z.pow_le_mono_r; lia).
  lia.
Qed.

Lemma clip_small z : 0 <= z < 1000000 -> clip z = z.
Proof. intros Hz. unfold clip. now rewrite stored_id. Qed.

Lemma record_row_clipped loc r g :
  text_coordinates loc -> In r loc -> List.length g = 5%nat ->
  exists row,
    Db.address_row
      (Db.written 4 (nth 4 (Db.ids_of loc r) None)
         (Db.written 3 (nth 3 (Db.ids_of loc r) None)
            (Db.written 2 (nth 1 (Db.ids_of loc r) None)
               (Db.written 1 (nth 0 (Db.ids_of loc r) None)
                  (Db.written 0 (nth 2 (Db.ids_of loc r) None) g)))))
    = Some row
    /\ clipped_row_of loc r row.
Proof.
  intros Htext Hin Hg.
  assert (Hany : forall f : Loc.LocationRecord -> string,
             Forall (fun x => exists s, PyStr (f x) = PyStr s) loc).
  { intros f. apply Forall_forall. intros x _. now exists (f x). }
  assert (Hcoord : exists a b, Loc.latitude r = PyStr a /\ Loc.longitude r = PyStr b).
  { unfold text_coordinates in Htext. rewrite Forall_forall in Htext.
    now apply Htext. }
  destruct Hcoord as (a & b & Ha & Hb).
  destruct (id_of_record (fun r => PyStr (Loc.city r)) loc r (Loc.city r)
              (Hany Loc.city) Hin eq_refl) as (pc & Nc & Lc & Bc).
  destruct (id_of_record (fun r => PyStr (Loc.state r)) loc r (Loc.state r)
              (Hany Loc.state) Hin eq_refl) as (ps & Ns & Ls & Bs).
  destruct (id_of_record (fun r => PyStr (Loc.postal_code r)) loc r
              (Loc.postal_code r) (Hany Loc.postal_code) Hin eq_refl)
    as (pp & Np & Lp & Bp).
  destruct (id_of_record Loc.latitude loc r a) as (pla & Nla & Lla & Bla);
    [eapply Forall_impl; [|exact Htext]; intros x (u & w & Hu & _); now exists u
    | exact Hin | exact Ha |].
  destruct (id_of_record Loc.longitude loc r b) as (plo & Nlo & Llo & Blo);
    [eapply Forall_impl; [|exact Htext]; intros x (u & w & _ & Hw); now exists w
    | exact Hin | exact Hb |].
  unfold Db.ids_of. cbn [nth].
  change (Db.loc_column "city" r) with (Some (PyStr (Loc.city r))).
  change (Db.loc_column "state" r) with (Some (PyStr (Loc.state r))).
  change (Db.loc_column "postal_code" r) with (Some (PyStr (Loc.postal_code r))).
  change (Db.loc_column "latitude" r) with (Some (Loc.latitude r)).
  change (Db.loc_column "longitude" r) with (Some (Loc.longitude r)).
  rewrite Ha, Hb, Lc, Ls, Lp, Lla, Llo.
  destruct g as [|g0 [|g1 [|g2 [|g3 [|g4 [|]]]]]]; try discriminate.
  cbn [Db.written Db.set_nth]. unfold Db.address_row.
  rewrite !(fun z H => proj1 (clip_text z H)) by lia.
  eexists. split; [reflexivity|].
  exists pc, ps, pp, pla, plo. rewrite Ha, Hb. now repeat split.
Qed.

(** The address table after any run of variant A that returns. *)
Lemma db_address_rows s s' loc :
  Db.initiate_db s = (Return tt, s') ->
  location_data (self s') = Some loc ->
  exists countries rows,
    Db.seeded countries loc (db_durable (world s'))
    /\ find_table "address" (db_durable (world s'))
       = Some (mkTable false Db.address_schema ["city"; "state"; "postal_code"]
                       1 rows)
    /\ Forall2 (clipped_row_of loc) loc rows.
Proof.
  intros Hrun Hdata.
  destruct (db_run_returns s s' Hrun)
    as (countries & loc' & rows & Htext & Hloaded & Hseeded & Hf & Hrows & _).
  assert (loc' = loc) by (destruct Hloaded as (_ & Hd & _); congruence).
  subst loc'. exists countries, rows.
  split; [exact Hseeded|]. split; [exact Hf|].
  eapply Forall2_impl_in; [|exact Hrows].
  intros r row Hin (g & Hg & Hrow).
  destruct (record_row_clipped loc r g Htext Hin Hg) as (row' & Hrow' & Hclip).
  congruence.
Qed.

Lemma numbered_in i v values :
  forall k,
    In (i :: v) (numbered k values) ->
    exists p, i = PyInt (k + Z.of_nat p) /\ nth_error values p = Some v.
Proof.
  induction values as [|w values IH]; intros k H; [destruct H|].
  cbn [numbered] in H. destruct H as [H|H].
  - injection H as <- <-. exists O. split; [f_equal; lia | reflexivity].
  - destruct (IH _ H) as (p & -> & Hp). exists (S p).
    split; [f_equal; lia | exact Hp].
Qed.

(** The id of the lookup row that holds a value is its position among
    the values, counted from 1. *)
Lemma points_to_position db table ty values id v :
  find_table table db = Some (filled [("value", ty)] (map (fun x => [x]) values)) ->
  Db.points_to db table id v ->
  exists p, id = PyInt (1 + Z.of_nat p) /\ nth_error values p = Some v.
Proof.
  intros Hf (t & Hf' & Hrows).
  rewrite Hf in Hf'. injection Hf' as <-.
  assert (Hin : In [id; v] (rows_where (filled [("value", ty)]
                                              (map (fun x => [x]) values))
                                      ["id"] [id]))
    by (rewrite Hrows; now left).
  apply filter_In in Hin as [Hin _]. cbn in Hin.
  destruct (numbered_in _ _ _ _ Hin) as (p & -> & Hp).
  exists p. split; [reflexivity|].
  rewrite nth_error_map in Hp.
  destruct (nth_error values p); [now injection Hp as -> | discriminate].
Qed.

(** With a million distinct latitudes, the record with the last of them
    has no row in the address table: its latitude has the id 1000000,
    and no row holds an id of seven digits. *)
Lemma no_row_for_the_last_latitude s s' loc :
  Db.initiate_db s = (Return tt, s') ->
  location_data (self s') = Some loc ->
  Z.of_nat (List.length (np_unique (map Loc.latitude loc))) = 1000000 ->
  exists r,
    In r loc
    /\ forall address row,
        find_table "address" (db_durable (world s')) = Some address ->
        In row (t_rows address) ->
        ~ Db.represents (db_durable (world s')) row r.
Proof.
  intros Hrun Hdata Hsize.
  destruct (db_address_rows s s' loc Hrun Hdata)
    as (countries & rows & Hseeded & Hf & Hrows).
  destruct (np_unique_spec (map Loc.latitude loc)) as (Hnd & Hin & _).
  set (L := np_unique (map Loc.latitude loc)) in *.
  assert (Hn : exists n, Z.of_nat n = 999999)
    by (exists (Z.to_nat 999999); apply Z2Nat.id; lia).
  destruct Hn as [n Hn].
  destruct (nth_error L n) as [v|] eqn:Ev;
    [|apply nth_error_None in Ev; lia].
  assert (Hv : In v (map Loc.latitude loc))
    by (apply Hin; eapply nth_error_In; exact Ev).
  apply in_map_iff in Hv as (r & Hr & Hrin).
  exists r. split; [exact Hrin|].
  intros address row Hf' Hrow (c & st & p & la & lo & -> & _ & _ & _ & Hla & _).
  rewrite Hf in Hf'. injection Hf' as <-. cbn [t_rows] in Hrow.
  destruct (Forall2_in_r _ _ _ _ Hrows Hrow)
    as (r' & _ & pc & ps & pp & pla & plo & Erow & _).
  assert (Ela : la = PyInt (clip (1 + Z.of_nat pla))) by congruence.
  destruct Hseeded as (_ & _ & Hlat & _).
  destruct (points_to_position _ _ _ _ _ _ Hlat Hla) as (q & Eq & Hq).
  fold L in Hq. rewrite Hr in Hq.
  assert (q = n).
  { apply (proj1 (NoDup_nth_error L) Hnd);
      [apply nth_error_Some; congruence | congruence]. }
  subst q.
  assert (E : 1 + Z.of_nat n = clip (1 + Z.of_nat pla)) by congruence.
  pose proof (proj2 (clip_text (1 + Z.of_nat pla) ltac:(lia))). lia.
Qed.

(** ** Runs that succeed *)

Lemma bind_run {A B} (m : M A) (k : A -> M B) s u s1 :
  m s = (Return u, s1) -> bind m k s = k u s1.
Proof. unfold bind. now intros ->. Qed.

Lemma status_run {A} name (func : M A) s u s1 :
  func (snd (print (newline ++ "Execute: " ++ name) s)) = (Return u, s1) ->
  status name func s
  = (Return PyNone, snd (print ("Complete: " ++ name ++ newline) s1)).
Proof. intros H. rewrite status_unfold. cbv zeta. now rewrite H. Qed.

Lemma cur_execute_run cmd params s db rows :
  cur (self s) = true ->
  execute_sql cmd params (session s) = Return (db, rows) ->
  exists s',
    cur_execute cmd params s = (Return tt, s')
    /\ self s' = self s /\ session s' = db.
Proof.
  intros Hcur Hex. unfold cur_execute, bind, get_self, get_world, session in *.
  rewrite Hcur, Hex. eexists. split; [reflexivity|]. now split.
Qed.

(** The unconditional inserts of a populating method all go through. *)
Lemma inserts_run {X} name schema (ps : X -> list pyval) (xs : list X) :
  plain_schema schema -> (forall x, List.length (ps x) = List.length schema) ->
  forall s t,
    cur (self s) = true ->
    find_table name (session s) = Some t -> serial_table schema t ->
    exists s',
      for_each xs (fun x => cur_execute (InsertInto name (map fst schema)) (ps x)) s
      = (Return tt, s').
Proof.
  intros Hp Hlen. induction xs as [|x xs IH]; intros s t Hcur Hf Ht.
  - now exists s.
  - cbn [for_each].
    destruct (cur_execute_run (InsertInto name (map fst schema)) (ps x) s
                (put_table name
                   (mkTable true schema [] (t_seq t + 1)
                            (t_rows t ++ [PyInt (t_seq t) :: ps x]))
                   (session s)) [] Hcur) as (s1 & E1 & Hself & Hses).
    { cbn [execute_sql].
      now rewrite (insert_row_serial name schema t (ps x) _ Hf Ht Hp (Hlen x)). }
    rewrite (bind_run _ _ _ _ _ E1).
    apply (IH s1 (mkTable true schema [] (t_seq t + 1)
                          (t_rows t ++ [PyInt (t_seq t) :: ps x]))).
    + congruence.
    + rewrite Hses. apply find_put_same.
    + now apply insert_keeps_serial.
Qed.

Lemma populate_run {X} step name schema
      (values : PostgresInitialize -> option (list X)) (ps : X -> list pyval)
      s xs t :
  plain_schema schema -> (forall x, List.length (ps x) = List.length schema) ->
  cur (self s) = true -> values (self s) = Some xs ->
  find_table name (session s) = Some t -> serial_table schema t ->
  exists s',
    status step
      (o <- get_self ;;
       xs <- iter (values o) ;;
       for_each xs (fun x => cur_execute (InsertInto name (map fst schema)) (ps x)))
      s = (Return PyNone, s').
Proof.
  intros Hp Hlen Hcur Hxs Hf Ht.
  set (before := snd (print (newline ++ "Execute: " ++ step) s)).
  destruct (inserts_run name schema ps xs Hp Hlen before t Hcur Hf Ht)
    as (s1 & E1).
  eexists. apply (status_run _ _ _ tt s1). fold before.
  unfold bind at 1. cbn [get_self].
  change (self before) with (self s). unfold iter. rewrite Hxs.
  unfold bind, ret. exact E1.
Qed.

Lemma conn_commit_run s :
  conn (self s) = true -> exists s', conn_commit s = (Return tt, s').
Proof.
  intros H. unfold conn_commit, bind, get_self. rewrite H. now eexists.
Qed.

(** *** Resolving the records goes through *)

Lemma table_select_run name v s t :
  cur (self s) = true -> find_table name (session s) = Some t ->
  exists s',
    Db.table_select name "*" None v s = (Return (t_rows t), s')
    /\ self s' = self s /\ session s' = session s.
Proof.
  intros Hcur Hf. unfold Db.table_select, session in *.
  cbv beta iota delta [bind cur_execute cur_fetchall get_self get_world
                       modify_world ret raise].
  rewrite Hcur. cbn [execute_sql]. rewrite Hf. cbn. rewrite Hcur.
  eexists. split; [reflexivity|]. now split.
Qed.

Lemma substitute_run name i data rows :
  Forall (fun values => exists k value rest, values = PyInt k :: value :: rest)
         rows ->
  forall a s, exists a', Db.substitute name i data rows a s = (Return a', s).
Proof.
  induction 1 as [|values rows (k & value & rest & ->) _ IH]; intros a s.
  - now exists a.
  - cbn [Db.substitute str]. apply IH.
Qed.

Lemma numbered_id_rows (values : list pyval) :
  forall k,
    Forall (fun values => exists k value rest, values = PyInt k :: value :: rest)
           (numbered k (map (fun x => [x]) values)).
Proof.
  induction values as [|x values IH]; intros k; cbn [map numbered]; constructor.
  - now exists k, x, [].
  - apply IH.
Qed.

Lemma idx_sub_run name translate a s i data t :
  index_of name Db.fields = Some i -> location_data (self s) = Some data ->
  cur (self s) = true -> find_table name (session s) = Some t ->
  Forall (fun values => exists k value rest, values = PyInt k :: value :: rest)
         (t_rows t) ->
  exists a' s',
    Db.idx_sub name translate a s = (Return a', s')
    /\ self s' = self s /\ session s' = session s.
Proof.
  intros Hi Hdata Hcur Hf Hrows. unfold Db.idx_sub.
  unfold bind at 1. cbn [get_self]. rewrite Hi, Hdata.
  unfold bind at 1. cbn [print modify_world].
  set (s1 := mkState _ _).
  destruct (table_select_run name PyNone s1 t Hcur Hf) as (s2 & E2 & Hself & Hses).
  rewrite (bind_run _ _ _ _ _ E2).
  destruct (substitute_run name i data (t_rows t) Hrows a s2) as [a' E3].
  exists a', s2. split; [exact E3|]. split; [exact Hself | exact Hses].
Qed.

Lemma resolve_run data names :
  forall s a,
    cur (self s) = true -> location_data (self s) = Some data ->
    Forall (fun name =>
              exists i t,
                index_of name Db.fields = Some i
                /\ find_table name (session s) = Some t
                /\ Forall (fun values =>
                             exists k value rest,
                               values = PyInt k :: value :: rest)
                          (t_rows t))
           names ->
    exists a' s', Db.resolve names a s = (Return a', s').
Proof.
  induction names as [|name names IH]; intros s a Hcur Hdata Hall.
  - now exists a, s.
  - inversion Hall as [|? ? (i & t & Hi & Hf & Hrows) Hrest]; subst.
    cbn [Db.resolve].
    destruct (table_select_run name PyNone s t Hcur Hf) as (s1 & E1 & Hself1 & Hses1).
    rewrite (bind_run _ _ _ _ _ E1).
    destruct (idx_sub_run name (t_rows t) a s1 i data t Hi)
      as (a1 & s2 & E2 & Hself2 & Hses2); try congruence.
    rewrite (bind_run _ _ _ _ _ E2).
    apply IH; try congruence.
    eapply Forall_impl; [|exact Hrest].
    intros n (j & u & Hj & Hu & Hr). exists j, u.
    split; [exact Hj|]. split; [congruence | exact Hr].
Qed.

(** *** The inserts into the address table go through *)

Lemma address_row_coerces (a : list string) r :
  Db.address_row a = Some r ->
  List.length a = 5%nat
  /\ coerce_row Db.address_schema
                (map (fun c => param_for c Db.fields (map PyStr a))
                     (map fst Db.address_schema))
     = Return r.
Proof.
  unfold Db.address_row.
  destruct a as [|p [|c [|s [|la [|lo [|]]]]]]; try discriminate.
  destruct (int_of_text c) eqn:Ec; [|discriminate].
  destruct (int_of_text s) eqn:Es; [|discriminate].
  destruct (int_of_text p) eqn:Ep; [|discriminate].
  destruct (int_of_text la) eqn:Ela; [|discriminate].
  destruct (int_of_text lo) eqn:Elo; [|discriminate].
  intros H. injection H as <-. split; [reflexivity|].
  cbn. now rewrite Ec, Es, Ep, Ela, Elo.
Qed.

Lemma address_insert_run (a : list string) r db t :
  find_table "address" db = Some t ->
  t_serial t = false -> t_schema t = Db.address_schema ->
  Db.address_row a = Some r -> violates_unique t r = false ->
  execute_sql (Db.table_insert "address" Db.fields) (map PyStr a) db
  = Return (put_table "address"
              (mkTable false Db.address_schema (t_unique t) (t_seq t)
                       (t_rows t ++ [r]))
              db, []).
Proof.
  intros Hf Hser Hsch Hrow Hu.
  destruct (address_row_coerces a r Hrow) as [Hlen Hco].
  unfold Db.table_insert. cbn [execute_sql].
  unfold insert_row. rewrite Hf, Hsch, Hser, length_map, Hlen.
  cbn [Db.fields List.length Nat.eqb negb].
  replace (forallb _ Db.fields) with true by reflexivity. cbn [negb].
  unfold column_types, violates_primary_key. rewrite Hser, Hsch.
  cbn [app andb orb]. cbv zeta. rewrite Hco, Hu. reflexivity.
Qed.

Lemma address_inserts_run (addresses : list (list string)) (rs : list row) :
  Forall2 (fun a r => Db.address_row a = Some r) addresses rs ->
  forall s t,
    cur (self s) = true ->
    find_table "address" (session s) = Some t ->
    t_serial t = false -> t_schema t = Db.address_schema ->
    (forall before r later,
        rs = (before ++ r :: later)%list ->
        violates_unique
          (mkTable false Db.address_schema (t_unique t) (t_seq t)
                   (t_rows t ++ before)) r = false) ->
    exists s',
      for_each addresses
        (fun a => cur_execute (Db.table_insert "address" Db.fields) (map PyStr a))
        s = (Return tt, s').
Proof.
  induction 1 as [|a r addresses rs Har Hall IH]; intros s t Hcur Hf Hser Hsch Hu.
  - now exists s.
  - cbn [for_each].
    assert (Hu0 : violates_unique t r = false).
    { specialize (Hu [] r rs eq_refl). rewrite app_nil_r in Hu.
      replace (mkTable false Db.address_schema (t_unique t) (t_seq t) (t_rows t))
        with t in Hu by (destruct t; cbn in *; now subst).
      exact Hu. }
    destruct (cur_execute_run _ _ s _ _ Hcur
                (address_insert_run a r _ t Hf Hser Hsch Har Hu0))
      as (s1 & E1 & Hself & Hses).
    rewrite (bind_run _ _ _ _ _ E1).
    apply (IH s1 (mkTable false Db.address_schema (t_unique t) (t_seq t)
                          (t_rows t ++ [r]))).
    + congruence.
    + rewrite Hses. apply find_put_same.
    + reflexivity.
    + reflexivity.
    + intros before r' later Heq. cbn [t_unique t_seq t_rows].
      rewrite <- app_assoc. apply (Hu (r :: before) r' later).
      cbn. now rewrite Heq.
Qed.

(** Every element of the resolved array reads as a row. *)
Lemma resolved_rows_exist loc :
  text_coordinates loc ->
  forall part gs,
    incl part loc -> List.length gs = List.length part ->
    Forall (fun g => List.length g = 5%nat) gs ->
    exists rs,
      Forall2 (fun a r => Db.address_row a = Some r)
              (map (fun p =>
                      Db.written 4 (nth 4 (Db.ids_of loc (fst p)) None)
                        (Db.written 3 (nth 3 (Db.ids_of loc (fst p)) None)
                           (Db.written 2 (nth 1 (Db.ids_of loc (fst p)) None)
                              (Db.written 1 (nth 0 (Db.ids_of loc (fst p)) None)
                                 (Db.written 0 (nth 2 (Db.ids_of loc (fst p)) None)
                                    (snd p))))))
                   (combine part gs))
              rs
      /\ Forall2 (clipped_row_of loc) part rs.
Proof.
  intros Htext. induction part as [|r part IH]; intros [|g gs] Hincl Hlen Hshape;
    try discriminate.
  - exists []. split; constructor.
  - inversion Hshape as [|? ? Hg Hshape']; subst.
    destruct (IH gs) as (rs & H1 & H2);
      [intros x Hx; apply Hincl; now right | now injection Hlen | exact Hshape' |].
    destruct (record_row_clipped loc r g Htext (Hincl r (or_introl eq_refl)) Hg)
      as (row & Hrow & Hclip).
    exists (row :: rs). split; constructor; assumption.
Qed.

(** Rows made for records that differ in city, state or postal code
    differ on the columns of the uniqueness constraint, as long as
    these three fields have fewer than a million distinct values each. *)
Lemma clipped_rows_differ loc x y rx ry :
  Z.of_nat (List.length (np_unique (map (fun r => PyStr (Loc.city r)) loc)))
  < 1000000 ->
  Z.of_nat (List.length (np_unique (map (fun r => PyStr (Loc.state r)) loc)))
  < 1000000 ->
  Z.of_nat (List.length (np_unique (map (fun r => PyStr (Loc.postal_code r)) loc)))
  < 1000000 ->
  clipped_row_of loc x rx -> clipped_row_of loc y ry ->
  (Loc.city x, Loc.state x, Loc.postal_code x)
  <> (Loc.city y, Loc.state y, Loc.postal_code y) ->
  same_on (map fst Db.address_schema) ["city"; "state"; "postal_code"] rx ry
  = false.
Proof.
  intros Kc Ks Kp (pc & ps & pp & pla & plo & -> & Nc & Ns & Np & _)
         (pc' & ps' & pp' & pla' & plo' & -> & Nc' & Ns' & Np' & _) Hne.
  assert (Hlt : forall (l : list pyval) i v,
             nth_error l i = Some v -> (i < List.length l)%nat)
    by (intros l i v H; apply nth_error_Some; congruence).
  pose proof (Hlt _ _ _ Nc). pose proof (Hlt _ _ _ Ns). pose proof (Hlt _ _ _ Np).
  pose proof (Hlt _ _ _ Nc'). pose proof (Hlt _ _ _ Ns'). pose proof (Hlt _ _ _ Np').
  rewrite (clip_small (1 + Z.of_nat pc)), (clip_small (1 + Z.of_nat ps)),
    (clip_small (1 + Z.of_nat pp)), (clip_small (1 + Z.of_nat pc')),
    (clip_small (1 + Z.of_nat ps')), (clip_small (1 + Z.of_nat pp')) by lia.
  assert (Hs : forall a b c d e a' b' c' d' e',
             (a, b, c) <> (a', b', c') ->
             same_on (map fst Db.address_schema) ["city"; "state"; "postal_code"]
                     [PyInt a; PyInt b; PyInt c; d; e]
                     [PyInt a'; PyInt b'; PyInt c'; d'; e'] = false).
  { intros a b c d e a' b' c' d' e' Hd. cbn. unfold field_value. cbn.
    destruct (Z.eqb_spec a a'); [|reflexivity].
    destruct (Z.eqb_spec b b'); [|reflexivity].
    destruct (Z.eqb_spec c c'); [|reflexivity].
    exfalso. apply Hd. congruence. }
  apply Hs. intros E. apply Hne.
  assert (1 + Z.of_nat pc = 1 + Z.of_nat pc') by congruence.
  assert (1 + Z.of_nat ps = 1 + Z.of_nat ps') by congruence.
  assert (1 + Z.of_nat pp = 1 + Z.of_nat pp') by congruence.
  assert (pc = pc') by lia. assert (ps = ps') by lia. assert (pp = pp') by lia.
  subst. congruence.
Qed.

(** [psql_address] returns when the lookup tables hold the distinct
    values of the records, no two records share city, state and postal
    code, and these fields have fewer than a million distinct values. *)
Lemma psql_address_run s countries loc :
  cur (self s) = true -> location_data (self s) = Some loc ->
  text_coordinates loc -> Db.seeded countries loc (session s) ->
  find_table "address" (session s)
  = Some (created false Db.address_schema ["city"; "state"; "postal_code"]) ->
  NoDup (map (fun r => (Loc.city r, Loc.state r, Loc.postal_code r)) loc) ->
  Z.of_nat (List.length (np_unique (map (fun r => PyStr (Loc.city r)) loc)))
  < 1000000 ->
  Z.of_nat (List.length (np_unique (map (fun r => PyStr (Loc.state r)) loc)))
  < 1000000 ->
  Z.of_nat (List.length (np_unique (map (fun r => PyStr (Loc.postal_code r)) loc)))
  < 1000000 ->
  exists s', Db.psql_address s = (Return PyNone, s').
Proof.
  intros Hcur Hdata Htext Hseeded Haddr Hkeys Kc Ks Kp.
  set (before := snd (print (newline ++ "Execute: " ++ "psql_address") s)).
  destruct Hseeded as (Hci & _ & Hla & Hlo & Hpc & Hst & _).
  set (a0 := map (fun i => map (np_garbage (world before) i)
                               (seq 0 (List.length Db.fields)))
                 (seq 0 (List.length loc))).
  assert (Hlen0 : List.length a0 = List.length loc)
    by (unfold a0; now rewrite length_map, length_seq).
  assert (Hshape : Forall (fun x => List.length x = 5%nat) a0).
  { apply Forall_forall. intros x Hx. apply in_map_iff in Hx as (i & <- & _).
    now rewrite length_map, length_seq. }
  destruct (resolve_run loc Db.fields before a0 Hcur Hdata) as (a' & s2 & E2).
  { unfold Db.fields.
    repeat constructor; eexists _, _;
      (split; [reflexivity|]);
      (split; [first [exact Hpc | exact Hci | exact Hst | exact Hla | exact Hlo]|]);
      apply numbered_id_rows. }
  destruct (resolve_returns _ _ _ _ _ E2) as (Hself2 & Hses2 & Hres).
  specialize (Hres loc Hdata).
  rewrite (resolved_rows loc (session before) a0 _ _ _ _ _
             _ _ _ _ _ Hpc eq_refl Hci eq_refl Hst eq_refl Hla eq_refl
             Hlo eq_refl Hlen0) in Hres.
  destruct (resolved_rows_exist loc Htext loc a0 (incl_refl _) Hlen0 Hshape)
    as (rs & Hrs & Hclip).
  destruct (address_inserts_run a' rs) with (s := s2)
    (t := created false Db.address_schema ["city"; "state"; "postal_code"])
    as (s3 & E3).
  - rewrite Hres. exact Hrs.
  - now rewrite Hself2.
  - now rewrite Hses2.
  - reflexivity.
  - reflexivity.
  - intros earlier r later Heq. unfold violates_unique, column_names.
    cbn [t_unique t_rows t_serial t_schema created app].
    destruct (existsb _ earlier) eqn:Ex; [|reflexivity]. exfalso.
    apply existsb_exists in Ex as (b & Hb & Hsame).
    rewrite Heq in Hclip.
    destruct (Forall2_app_inv_r _ _ Hclip) as (l1 & l2 & F1 & F2 & Eloc).
    inversion F2 as [|x ? l3 ? Hx F3]; subst.
    destruct (Forall2_in_r _ _ _ _ F1 Hb) as (y & Hy & Hyb).
    rewrite map_app in Hkeys. cbn [map] in Hkeys.
    apply NoDup_remove_2 in Hkeys.
    assert (Hne : (Loc.city x, Loc.state x, Loc.postal_code x)
                  <> (Loc.city y, Loc.state y, Loc.postal_code y)).
    { intros E. apply Hkeys. apply in_or_app. left. rewrite E.
      now apply (in_map (fun r => (Loc.city r, Loc.state r, Loc.postal_code r))). }
    rewrite (clipped_rows_differ _ x y r b Kc Ks Kp Hx Hyb Hne) in Hsame.
    discriminate.
  - eexists. apply (status_run _ _ _ tt s3). fold before.
    unfold bind at 1. cbn [get_self]. unfold bind at 1. cbn [get_world].
    change (self before) with (self s). rewrite Hdata.
    fold a0. cbv zeta. rewrite (bind_run _ _ _ _ _ E2). exact E3.
Qed.

(** *** Rebuilding the schema goes through *)

Lemma find_remove_none n m db :
  find_table n db = None -> find_table n (remove_table m db) = None.
Proof.
  intros H. destruct (String.eqb m n) eqn:E.
  - apply String.eqb_eq in E. subst. apply find_remove_same.
  - now rewrite find_remove_other.
Qed.

Lemma find_removed {X} (name : X -> string) (xs : list X) n :
  forall db,
    In n (map name xs) \/ find_table n db = None ->
    find_table n (fold_left (fun d x => remove_table (name x) d) xs db) = None.
Proof.
  induction xs as [|x xs IH]; intros db H; cbn [fold_left map In] in *.
  - now destruct H.
  - apply IH. destruct H as [[<-|H]|H].
    + right. apply find_remove_same.
    + now left.
    + right. now apply find_remove_none.
Qed.

Lemma drops_run {X} (name : X -> string) (xs : list X) :
  forall s,
    cur (self s) = true ->
    exists s',
      for_each xs (fun x => cur_execute (DropTable (name x)) []) s = (Return tt, s').
Proof.
  induction xs as [|x xs IH]; intros s Hcur.
  - now exists s.
  - cbn [for_each].
    destruct (cur_execute_run (DropTable (name x)) [] s _ _ Hcur eq_refl)
      as (s1 & E1 & Hself & _).
    rewrite (bind_run _ _ _ _ _ E1). apply IH. congruence.
Qed.

Lemma creates_run {X} (name : X -> string) serial
      (schema : X -> list (string * coltype)) unique (xs : list X) :
  NoDup (map name xs) ->
  forall s,
    cur (self s) = true ->
    (forall x, In x xs -> find_table (name x) (session s) = None) ->
    exists s',
      for_each xs
        (fun x => cur_execute (CreateTable (name x) serial (schema x) unique) [])
        s = (Return tt, s').
Proof.
  induction xs as [|x xs IH]; intros Hnd s Hcur Hnone.
  - now exists s.
  - cbn [for_each]. cbn [map] in Hnd. inversion Hnd as [|? ? Hx Hnd']; subst.
    destruct (cur_execute_run (CreateTable (name x) serial (schema x) unique) [] s
                (put_table (name x) (created serial (schema x) unique) (session s))
                [] Hcur) as (s1 & E1 & Hself & Hses).
    { cbn [execute_sql]. now rewrite (Hnone x (or_introl eq_refl)). }
    rewrite (bind_run _ _ _ _ _ E1). apply (IH Hnd'); [congruence|].
    intros y Hy. rewrite Hses, find_put_other; [apply Hnone; now right|].
    apply String.eqb_neq. intros E. apply Hx. rewrite E. now apply in_map.
Qed.

Lemma db_psql_tables_run s :
  cur (self s) = true -> exists s', Db.psql_tables s = (Return PyNone, s').
Proof.
  intros Hcur.
  set (before := snd (print (newline ++ "Execute: " ++ "psql_tables") s)).
  assert (Hcur0 : cur (self before) = true) by exact Hcur.
  destruct (drops_run fst Db.lookup_tables before Hcur0) as (s1 & E1).
  destruct (drops_return _ _ _ _ E1) as [Hself1 Hses1].
  destruct (creates_run fst true snd [] Db.lookup_tables) with (s := s1)
    as (s2 & E2).
  { unfold Db.lookup_tables. cbn [map fst].
    repeat (constructor; [cbn; intuition discriminate|]). constructor. }
  { congruence. }
  { intros x Hx. rewrite Hses1. apply find_removed. left. now apply in_map. }
  destruct (creates_return _ _ _ _ _ _ _ E2) as [Hself2 Hses2].
  destruct (drops_run (fun x => x) ["address"; "events"] s2) as (s3 & E3);
    [congruence|].
  destruct (drops_return _ _ _ _ E3) as [Hself3 Hses3].
  destruct (cur_execute_run
              (CreateTable "address" false Db.address_schema
                           ["city"; "state"; "postal_code"]) [] s3
              (put_table "address"
                 (created false Db.address_schema ["city"; "state"; "postal_code"])
                 (session s3)) []) as (s4 & E4 & Hself4 & Hses4); [congruence| |].
  { cbn [execute_sql]. rewrite Hses3.
    rewrite (find_removed (fun x => x) ["address"; "events"] "address");
      [reflexivity | left; cbn; auto]. }
  destruct (cur_execute_run
              (CreateTable "events" false Db.composite
                           ["event"; "city"; "postal_code"; "event_date"]) [] s4
              (put_table "events"
                 (created false Db.composite
                          ["event"; "city"; "postal_code"; "event_date"])
                 (session s4)) []) as (s5 & E5 & _); [congruence| |].
  { cbn [execute_sql]. rewrite Hses4, find_put_other by reflexivity.
    rewrite Hses3.
    rewrite (find_removed (fun x => x) ["address"; "events"] "events");
      [reflexivity | left; cbn; auto]. }
  eexists. apply (status_run _ _ _ tt s5). fold before.
  unfold Db.table_drop, Db.table_create.
  rewrite (bind_run _ _ _ _ _ E1), (bind_run _ _ _ _ _ E2),
    (bind_run _ _ _ _ _ E3).
  fold Db.address_schema. rewrite (bind_run _ _ _ _ _ E4). exact E5.
Qed.

(** *** Populating the lookup tables goes through *)

Lemma db_populate_run s countries loc :
  cur (self s) = true -> loaded countries loc (self s) ->
  exists s14,
    (forall B (rest : M B),
        (Db.psql_tables ;; Db.psql_city ;; Db.psql_country ;; Db.psql_latitude ;;
         Db.psql_longitude ;; Db.psql_postal_code ;; Db.psql_state ;;
         Db.psql_times ;; rest) s = rest s14)
    /\ self s14 = self s
    /\ Db.seeded countries loc (session s14)
    /\ find_table "address" (session s14)
       = Some (created false Db.address_schema ["city"; "state"; "postal_code"]).
Proof.
  intros Hcur (Lc & Ld & Lci & Lst & Lpc & Lla & Llo & Lt).
  destruct (db_psql_tables_run s Hcur) as (s7 & H7).
  destruct (db_psql_tables_returns _ _ _ H7) as [E7 D7].
  pose proof (fun name schema H => db_rebuilt_lookup name schema (session s) H)
    as Hfresh.
  rewrite <- D7 in Hfresh.
  destruct (db_rebuilt_composite (session s)) as [Haddr Hevents].
  rewrite <- D7 in Haddr, Hevents.
  assert (Hin : forall name schema,
             In (name, schema) Db.lookup_tables ->
             find_table name (session s7) = Some (created true schema [])
             /\ serial_table schema (created true schema [])
             /\ plain_schema schema).
  { intros name schema Hi. split; [now apply Hfresh|].
    split; [apply fresh_table_serial | now apply (db_schemas_plain name)]. }
  rewrite <- E7 in Hcur, Lc, Ld, Lci, Lst, Lpc, Lla, Llo, Lt.
  (* city *)
  destruct (Hin "city" [("value", TEXT)]) as (F8 & S8 & P8); [cbn; auto|].
  destruct (populate_run "psql_city" "city" [("value", TEXT)] city
              (fun x => [x]) s7 _ _ P8 (fun _ => eq_refl) Hcur Lci F8 S8)
    as (s8 & H8).
  destruct (populate_returns "psql_city" "city" [("value", TEXT)] city
              (fun x => [x]) s7 _ s8 P8 (fun _ => eq_refl) H8 _ F8 S8)
    as (xs8 & X8 & E8 & T8 & O8).
  rewrite <- E8 in Hcur, Lc, Ld, Lci, Lst, Lpc, Lla, Llo, Lt.
  (* country *)
  destruct (Hin "country" [("value", CHAR 2); ("name", TEXT)])
    as (F9 & S9 & P9); [cbn; auto|].
  rewrite <- (O8 "country" eq_refl) in F9.
  destruct (populate_run "psql_country" "country"
              [("value", CHAR 2); ("name", TEXT)] country
              (fun xy => [PyStr (fst xy); PyStr (snd xy)]) s8 _ _ P9
              (fun _ => eq_refl) Hcur Lc F9 S9) as (s9 & H9).
  destruct (populate_returns "psql_country" "country"
              [("value", CHAR 2); ("name", TEXT)] country
              (fun xy => [PyStr (fst xy); PyStr (snd xy)]) s8 _ s9 P9
              (fun _ => eq_refl) H9 _ F9 S9)
    as (xs9 & X9 & E9 & T9 & O9).
  rewrite <- E9 in Hcur, Lc, Ld, Lci, Lst, Lpc, Lla, Llo, Lt.
  (* latitude *)
  destruct (Hin "latitude" [("value", DOUBLE_PRECISION)])
    as (F10 & S10 & P10); [cbn; auto 10|].
  rewrite <- (O8 "latitude" eq_refl), <- (O9 "latitude" eq_refl) in F10.
  destruct (populate_run "psql_latitude" "latitude"
              [("value", DOUBLE_PRECISION)] latitude (fun x => [x]) s9 _ _
              P10 (fun _ => eq_refl) Hcur Lla F10 S10) as (s10 & H10).
  destruct (populate_returns "psql_latitude" "latitude"
              [("value", DOUBLE_PRECISION)] latitude (fun x => [x]) s9 _ s10
              P10 (fun _ => eq_refl) H10 _ F10 S10)
    as (xs10 & X10 & E10 & T10 & O10).
  rewrite <- E10 in Hcur, Lc, Ld, Lci, Lst, Lpc, Lla, Llo, Lt.
  (* longitude *)
  destruct (Hin "longitude" [("value", DOUBLE_PRECISION)])
    as (F11 & S11 & P11); [cbn; auto 10|].
  rewrite <- (O8 "longitude" eq_refl), <- (O9 "longitude" eq_refl),
    <- (O10 "longitude" eq_refl) in F11.
  destruct (populate_run "psql_longitude" "longitude"
              [("value", DOUBLE_PRECISION)] longitude (fun x => [x]) s10 _ _
              P11 (fun _ => eq_refl) Hcur Llo F11 S11) as (s11 & H11).
  destruct (populate_returns "psql_longitude" "longitude"
              [("value", DOUBLE_PRECISION)] longitude (fun x => [x]) s10 _ s11
              P11 (fun _ => eq_refl) H11 _ F11 S11)
    as (xs11 & X11 & E11 & T11 & O11).
  rewrite <- E11 in Hcur, Lc, Ld, Lci, Lst, Lpc, Lla, Llo, Lt.
  (* postal_code *)
  destruct (Hin "postal_code" [("value", CHAR 5)])
    as (F12 & S12 & P12); [cbn; auto 10|].
  rewrite <- (O8 "postal_code" eq_refl), <- (O9 "postal_code" eq_refl),
    <- (O10 "postal_code" eq_refl), <- (O11 "postal_code" eq_refl) in F12.
  destruct (populate_run "psql_postal_code" "postal_code"
              [("value", CHAR 5)] postal_code (fun x => [x]) s11 _ _
              P12 (fun _ => eq_refl) Hcur Lpc F12 S12) as (s12 & H12).
  destruct (populate_returns "psql_postal_code" "postal_code"
              [("value", CHAR 5)] postal_code (fun x => [x]) s11 _ s12
              P12 (fun _ => eq_refl) H12 _ F12 S12)
    as (xs12 & X12 & E12 & T12 & O12).
  rewrite <- E12 in Hcur, Lc, Ld, Lci, Lst, Lpc, Lla, Llo, Lt.
  (* state *)
  destruct (Hin "state" [("value", CHAR 2)])
    as (F13 & S13 & P13); [cbn; auto 10|].
  rewrite <- (O8 "state" eq_refl), <- (O9 "state" eq_refl),
    <- (O10 "state" eq_refl), <- (O11 "state" eq_refl),
    <- (O12 "state" eq_refl) in F13.
  destruct (populate_run "psql_state" "state"
              [("value", CHAR 2)] state (fun x => [x]) s12 _ _
              P13 (fun _ => eq_refl) Hcur Lst F13 S13) as (s13 & H13).
  destruct (populate_returns "psql_state" "state"
              [("value", CHAR 2)] state (fun x => [x]) s12 _ s13
              P13 (fun _ => eq_refl) H13 _ F13 S13)
    as (xs13 & X13 & E13 & T13 & O13).
  rewrite <- E13 in Hcur, Lc, Ld, Lci, Lst, Lpc, Lla, Llo, Lt.
  (* event_time *)
  destruct (Hin "event_time" [("value", TIME)])
    as (F14 & S14 & P14); [cbn; auto 10|].
  rewrite <- (O8 "event_time" eq_refl), <- (O9 "event_time" eq_refl),
    <- (O10 "event_time" eq_refl), <- (O11 "event_time" eq_refl),
    <- (O12 "event_time" eq_refl), <- (O13 "event_time" eq_refl) in F14.
  destruct (populate_run "psql_times" "event_time"
              [("value", TIME)] time_ (fun x => [PyTime x]) s13 _ _
              P14 (fun _ => eq_refl) Hcur Lt F14 S14) as (s14 & H14).
  destruct (populate_returns "psql_times" "event_time"
              [("value", TIME)] time_ (fun x => [PyTime x]) s13 _ s14
              P14 (fun _ => eq_refl) H14 _ F14 S14)
    as (xs14 & X14 & E14 & T14 & O14).
  assert (xs8 = np_unique (map (fun r => PyStr (Loc.city r)) loc)) by congruence.
  assert (xs9 = countries) by congruence.
  assert (xs10 = np_unique (map Loc.latitude loc)) by congruence.
  assert (xs11 = np_unique (map Loc.longitude loc)) by congruence.
  assert (xs12 = np_unique (map (fun r => PyStr (Loc.postal_code r)) loc))
    by congruence.
  assert (xs13 = np_unique (map (fun r => PyStr (Loc.state r)) loc))
    by congruence.
  assert (xs14 = day_times) by congruence.
  subst xs8 xs9 xs10 xs11 xs12 xs13 xs14.
  exists s14. split.
  { intros B rest.
    rewrite (bind_run _ _ _ _ _ H7), (bind_run _ _ _ _ _ H8),
      (bind_run _ _ _ _ _ H9), (bind_run _ _ _ _ _ H10),
      (bind_run _ _ _ _ _ H11), (bind_run _ _ _ _ _ H12),
      (bind_run _ _ _ _ _ H13), (bind_run _ _ _ _ _ H14).
    reflexivity. }
  split; [congruence|]. split.
  - unfold Db.seeded, filled.
    repeat split; carry; try assumption;
      apply Hfresh; cbn; auto 12.
  - carry. exact Haddr.
Qed.

(** *** Reading the sources and connecting goes through *)

Lemma reader_a_run {R} name step (dtype : list (list string) -> outcome R)
      delimiter skip_header usecols (store : R -> M unit) s text rows x :
  stores store ->
  csv_zipped (self s) = true ->
  fs_read (name ++ ".gz") (files (world s)) = Some (Gzip (Plain text)) ->
  np_genfromtxt (world s) (remove_cr text) delimiter skip_header usecols
  = Return rows ->
  dtype rows = Return x ->
  status step
    (modify_self (set_csv_file (Some name)) ;;
     unzip ;;
     x <- genfromtxt dtype delimiter skip_header usecols ;;
     zip_file ;;
     store x) s
  = (Return PyNone,
     snd (print ("Complete: " ++ step ++ newline)
            (snd (store x (decoded true name text
                             (snd (print (newline ++ "Execute: " ++ step) s))))))).
Proof.
  intros Hst Hz Hgz Hrows Hx.
  set (before := snd (print (newline ++ "Execute: " ++ step) s)).
  destruct (store x (decoded true name text before)) as [out s1] eqn:Es.
  pose proof (proj1 (Hst x (decoded true name text before))) as Hout.
  rewrite Es in Hout. cbn [fst] in Hout. subst out.
  apply (status_run _ _ _ tt s1). fold before.
  rewrite (reader_a_decodes name dtype delimiter skip_header usecols store
             before text Hz Hgz).
  change (world before) with (set_stdout (stdout (world s)
                                            ++ [(newline ++ "Execute: " ++ step)%string])
                                         (world s)).
  cbn [np_genfromtxt set_stdout]. rewrite Hrows, Hx. exact Es.
Qed.

Lemma input_run prompt s line rest :
  stdin (world s) = line :: rest ->
  input prompt s
  = (Return line,
     mkState (self s)
             (set_stdin rest (set_stdout (stdout (world s) ++ [prompt]) (world s)))).
Proof.
  intros H. unfold input, bind, print, modify_world, get_world, ret.
  cbn [world stdin set_stdout]. rewrite H. reflexivity.
Qed.

Lemma get_user_run s line rest :
  stdin (world s) = line :: rest ->
  exists s',
    get_user s = (Return tt, s')
    /\ self s' = set_db_user (Some (if String.eqb line "" then "Tim" else line))
                             (self s)
    /\ world s' = set_stdin rest
                    (set_stdout (stdout (world s) ++ ["Enter database user name: "])
                                (world s)).
Proof.
  intros H. unfold get_user.
  rewrite (bind_run _ _ _ _ _ (input_run _ s line rest H)).
  unfold bind, modify_self, get_self, ret. cbn [self world db_user set_db_user].
  destruct line as [|c line]; eexists; (split; [reflexivity|]); split; reflexivity.
Qed.

Lemma get_password_run s line rest :
  stdin (world s) = line :: rest ->
  exists s',
    get_password s = (Return tt, s')
    /\ self s' = set_db_pwd (Some line) (self s)
    /\ world s' = set_stdin rest
                    (set_stdout (stdout (world s) ++ ["Enter database password: "])
                                (world s)).
Proof.
  intros H. unfold get_password.
  rewrite (bind_run _ _ _ _ _ (input_run _ s line rest H)).
  eexists. split; [reflexivity|]. split; reflexivity.
Qed.

Lemma psql_connection_run s :
  db_login (world s) (db_name (self s)) (format_name (db_user (self s)))
           (format_name (db_pwd (self s))) = true ->
  exists s',
    psql_connection s = (Return tt, s')
    /\ self s' = set_cur true (set_conn true (self s)).
Proof.
  intros H. unfold psql_connection, bind, get_self, get_world.
  rewrite H. eexists. split; reflexivity.
Qed.

(** The state of variant A when it is about to connect: the sources
    were read, the times generated and both answers taken. *)
Lemma db_before_connection (w : World) countries_text postal_text crows countries
      rows loc user pwd rest :
  fs_read "countries.csv.gz" (files w) = Some (Gzip (Plain countries_text)) ->
  fs_read "us_postal_codes.csv.gz" (files w) = Some (Gzip (Plain postal_text)) ->
  np_genfromtxt w (remove_cr countries_text) ", " 0%nat [0; 1]%nat = Return crows ->
  as_countries crows = Return countries ->
  np_genfromtxt w (remove_cr postal_text) "," 1%nat [0; 1; 3; 5; 6]%nat
  = Return rows ->
  as_locations (fun text => PyStr (U 9 text)) rows = Return loc ->
  stdin w = user :: pwd :: rest ->
  exists s5,
    (forall B (then_ : M B),
        (Db.load_countries ;; Db.load_locations ;; load_times ;; get_user ;;
         get_password ;; then_) (mkState __init__ w) = then_ s5)
    /\ loaded countries loc (self s5)
    /\ db_name (self s5) = "iCP_events"
    /\ db_user (self s5) = Some (if String.eqb user "" then "Tim" else user)
    /\ db_pwd (self s5) = Some pwd
    /\ cur (self s5) = false /\ conn (self s5) = false
    /\ db_login (world s5) = db_login w
    /\ db_session (world s5) = db_session w
    /\ db_durable (world s5) = db_durable w
    /\ db_commits (world s5) = db_commits w
    /\ stdin (world s5) = rest.
Proof.
  intros Hfc Hfp Hoc Hdc Hop Hdl Hstdin.
  set (s0 := mkState __init__ w).
  pose proof (reader_a_run "countries.csv" "load_countries" as_countries ", "
                0%nat [0; 1]%nat
                (fun c => modify_self (set_country (Some c)))
                s0 countries_text crows countries stores_country eq_refl
                Hfc Hoc Hdc) as E1.
  match type of E1 with _ = (_, ?s) => set (s1 := s) in E1 end.
  assert (F1 : fs_read "us_postal_codes.csv.gz" (files (world s1))
               = Some (Gzip (Plain postal_text))).
  { change (files (world s1))
      with (fs_remove "countries.csv"
              (fs_write "countries.csv" (Plain (remove_cr countries_text))
                        (files w))).
    rewrite fs_read_remove_other, fs_read_write_other by reflexivity.
    exact Hfp. }
  pose proof (reader_a_run "us_postal_codes.csv" "load_locations"
                (as_locations (fun text => PyStr (U 9 text))) ","
                1%nat [0; 1; 3; 5; 6]%nat _
                s1 postal_text rows loc stores_locations eq_refl
                F1 Hop Hdl) as E2.
  match type of E2 with _ = (_, ?s) => set (s2 := s) in E2 end.
  pose proof (status_run "load_times" (modify_self (set_time (Some day_times)))
                s2 tt _ eq_refl) as E3.
  match type of E3 with _ = (_, ?s) => set (s3 := s) in E3 end.
  destruct (get_user_run s3 user (pwd :: rest) Hstdin) as (s4 & E4 & Hs4 & Hw4).
  destruct (get_password_run s4 pwd rest) as (s5 & E5 & Hs5 & Hw5);
    [now rewrite Hw4|].
  exists s5. split.
  { intros B then_.
    change Db.load_countries
      with (status "load_countries"
              (modify_self (set_csv_file (Some "countries.csv")) ;;
               unzip ;;
               x <- genfromtxt as_countries ", " 0 [0; 1]%nat ;;
               zip_file ;;
               modify_self (set_country (Some x)))).
    rewrite (bind_run _ _ _ _ _ E1).
    unfold Db.load_locations at 1. rewrite (bind_run _ _ _ _ _ E2).
    unfold load_times at 1. rewrite (bind_run _ _ _ _ _ E3).
    rewrite (bind_run _ _ _ _ _ E4), (bind_run _ _ _ _ _ E5). reflexivity. }
  rewrite Hs5, Hw5, Hw4, Hs4. unfold loaded.
  split; [repeat split|]. repeat split.
Qed.

(** *** A run of variant A that succeeds *)



(** ** The compressed sources *)

Lemma length_append (a b : string) :
  String.length (a ++ b) = (String.length a + String.length b)%nat.
Proof. induction a as [|c a IH]; cbn; [reflexivity | now rewrite IH]. Qed.

Lemma archive_name_differs (name : string) :
  String.eqb name (name ++ ".gz") = false.
Proof.
  apply String.eqb_neq. intros E.
  apply (f_equal String.length) in E. rewrite length_append in E. cbn in E. lia.
Qed.

Lemma remove_cr_clean (text : string) :
  forall c, In c (list_ascii_of_string (remove_cr text)) -> c <> carriage_return.
Proof.
  induction text as [|a text IH]; intros c H; [destruct H|].
  cbn [remove_cr] in H.
  destruct (Ascii.eqb_spec a carriage_return) as [E|E]; [now apply IH|].
  cbn [list_ascii_of_string In] in H.
  destruct H as [<-|H]; [exact E | now apply IH].
Qed.

(** [unzip] does nothing when [csv_zipped] is false.  Otherwise it reads
    the archive beside the csv file and writes its text, without any
    carriage return, to the csv file; the archive and every other file
    stay as they were.  When the archive is missing or is no gzip file
    it raises and writes nothing. *)
Theorem unzip_writes_the_decoded_text (s : State) (name : string) :
  csv_file (self s) = Some name ->
  if csv_zipped (self s) then
    match fs_read (name ++ ".gz") (files (world s)) with
    | Some (Gzip (Plain text)) =>
        fst (unzip s) = Return tt
        /\ self (snd (unzip s)) = self s
        /\ fs_read name (files (world (snd (unzip s))))
           = Some (Plain (remove_cr text))
        /\ (forall c, In c (list_ascii_of_string (remove_cr text)) ->
                      c <> carriage_return)
        /\ fs_read (name ++ ".gz") (files (world (snd (unzip s))))
           = Some (Gzip (Plain text))
        /\ forall p, String.eqb name p = false ->
                     fs_read p (files (world (snd (unzip s))))
                     = fs_read p (files (world s))
    | Some (Gzip (Gzip _)) =>
        unzip s = (Raise (ValueError "'utf-8' codec can't decode"), s)
    | Some (Plain _) => unzip s = (Raise (BadGzipFile (name ++ ".gz")), s)
    | None => unzip s = (Raise (FileNotFoundError (name ++ ".gz")), s)
    end
  else unzip s = (Return tt, s).
Proof.
  intros Hf. destruct (csv_zipped (self s)) eqn:Hz.
  - rewrite (unzip_zipped s name Hz Hf).
    destruct (fs_read (name ++ ".gz") (files (world s)))
      as [[t|[text|c]]|] eqn:E; try reflexivity.
    cbn [fst snd self world files set_files].
    split; [reflexivity|]. split; [reflexivity|].
    split; [apply fs_read_write_same|]. split; [apply remove_cr_clean|].
    split.
    + rewrite fs_read_write_other by apply archive_name_differs. exact E.
    + intros p Hp. now apply fs_read_write_other.
  - unfold unzip, bind, get_self. now rewrite Hz.
Qed.

Lemma unzip_writes_the_decoded_text_witness :
  fst (unzip (mkState (set_csv_file (Some "countries.csv") __init__) Sample.world_a))
  = Return tt
  /\ fs_read "countries.csv"
       (files (world (snd (unzip (mkState (set_csv_file (Some "countries.csv")
                                                       __init__)
                                        Sample.world_a)))))
     = Some (Plain (remove_cr Sample.countries_csv)).
Proof.
  pose proof (unzip_writes_the_decoded_text
                (mkState (set_csv_file (Some "countries.csv") __init__)
                         Sample.world_a)
                "countries.csv" eq_refl) as H.
  cbn in H. destruct H as (H1 & _ & H3 & _). split; [exact H1 | exact H3].
Defined.

Lemma zip_file_plain s name :
  csv_zipped (self s) = false -> csv_file (self s) = Some name ->
  zip_file s
  = match fs_read name (files (world s)) with
    | Some c =>
        (Return tt,
         mkState (self s)
           (set_files
              (fs_remove name (fs_write (name ++ ".gz") (Gzip c) (files (world s))))
              (set_gzip_writes (gzip_writes (world s) ++ [(name ++ ".gz")%string])
                 (set_files (fs_write (name ++ ".gz") (Gzip c) (files (world s)))
                            (world s)))))
    | None => (Raise (FileNotFoundError name), s)
    end.
Proof.
  intros Hz Hf.
  cbv beta iota delta [zip_file bind get_self os_remove get_world raise ret
                       path_of modify_world gzip_copy format_name].
  rewrite Hz, Hf. cbv beta iota delta [negb].
  destruct (fs_read name (files (world s))) as [c|] eqn:E; [|reflexivity].
  cbn [world files set_files set_gzip_writes]. unfold fs_exists.
  rewrite fs_read_write_other, E; [reflexivity|].
  rewrite String.eqb_sym. apply archive_name_differs.
Qed.



(** Compressing and decoding again gives the text back: after
    [zip_file] with [csv_zipped] false, [unzip] with [csv_zipped] true
    writes the csv file anew, with the text it had, less the carriage
    returns. *)
Theorem zip_file_then_unzip (s : State) (name text : string) :
  csv_zipped (self s) = false -> csv_file (self s) = Some name ->
  fs_read name (files (world s)) = Some (Plain text) ->
  let s1 := snd (zip_file s) in
  let s2 := mkState (set_csv_zipped true (self s1)) (world s1) in
  fst (zip_file s) = Return tt
  /\ fs_read name (files (world s1)) = None
  /\ fst (unzip s2) = Return tt
  /\ fs_read name (files (world (snd (unzip s2)))) = Some (Plain (remove_cr text)).
Proof.
  intros Hz Hf Hc s1 s2.
  pose proof (zip_file_plain s name Hz Hf) as H. rewrite Hc in H.
  assert (H4 : fs_read (name ++ ".gz") (files (world s1))
               = Some (Gzip (Plain text))).
  { unfold s1. rewrite H. cbn [snd world files set_files].
    rewrite fs_read_remove_other by apply archive_name_differs.
    apply fs_read_write_same. }
  assert (Hf2 : csv_file (self s2) = Some name)
    by (unfold s2, s1; rewrite H; exact Hf).
  pose proof (unzip_zipped s2 name eq_refl Hf2) as Hu.
  change (files (world s2)) with (files (world s1)) in Hu.
  rewrite H4 in Hu. rewrite Hu. cbn [fst snd world files set_files].
  split; [now rewrite H|].
  split; [unfold s1; rewrite H; apply fs_read_remove_same|].
  split; [reflexivity | apply fs_read_write_same].
Qed.

Lemma zip_file_then_unzip_witness :
  let s := mkState (set_csv_zipped false (set_csv_file (Some "a.csv") __init__))
                   (set_files [("a.csv", Plain "x")] Sample.world_a) in
  let s1 := snd (zip_file s) in
  let s2 := mkState (set_csv_zipped true (self s1)) (world s1) in
  fst (zip_file s) = Return tt
  /\ fs_read "a.csv" (files (world s1)) = None
  /\ fst (unzip s2) = Return tt
  /\ fs_read "a.csv" (files (world (snd (unzip s2)))) = Some (Plain (remove_cr "x")).
Proof.
  exact (zip_file_then_unzip
           (mkState (set_csv_zipped false (set_csv_file (Some "a.csv") __init__))
                    (set_files [("a.csv", Plain "x")] Sample.world_a))
           "a.csv" "x" eq_refl eq_refl eq_refl).
Defined.

(** ** The operator's answers and the connection *)

(** [get_user] prints its prompt and takes one line of input as the
    user name; an empty line gives the name Tim.  At the end of the
    input it raises [EOFError] and the object stays as it was. *)
Theorem get_user_defaults_to_Tim (s : State) :
  stdout (world (snd (get_user s)))
  = (stdout (world s) ++ ["Enter database user name: "])%list
  /\ match stdin (world s) with
     | [] => fst (get_user s) = Raise EOFError /\ self (snd (get_user s)) = self s
     | line :: rest =>
         fst (get_user s) = Return tt
         /\ self (snd (get_user s))
            = set_db_user (Some (if String.eqb line "" then "Tim" else line))
                          (self s)
         /\ stdin (world (snd (get_user s))) = rest
     end.
Proof.
  destruct (stdin (world s)) as [|line rest] eqn:E.
  - unfold get_user, input, bind, print, modify_world, get_world, raise.
    cbn [world stdin set_stdout]. rewrite E. cbn. repeat split.
  - destruct (get_user_run s line rest E) as (s' & Hrun & Hself & Hworld).
    rewrite Hrun. cbn [fst snd]. rewrite Hworld. cbn. repeat split.
    exact Hself.
Qed.

Lemma bind_raises {A B} (m : M A) (k : A -> M B) s e s1 :
  m s = (Raise e, s1) -> bind m k s = (Raise e, s1).
Proof. unfold bind. now intros ->. Qed.

(** When the database refuses the operator's answers, variant A has
    read both sources and stops at [psql_connection] with
    [OperationalError]: no cursor was opened, and the tables, in the
    session and as committed, are what they were. *)
Theorem db_refused_login (w : World) countries_text postal_text crows countries
      rows loc user pwd rest :
  fs_read "countries.csv.gz" (files w) = Some (Gzip (Plain countries_text)) ->
  fs_read "us_postal_codes.csv.gz" (files w) = Some (Gzip (Plain postal_text)) ->
  np_genfromtxt w (remove_cr countries_text) ", " 0%nat [0; 1]%nat = Return crows ->
  as_countries crows = Return countries ->
  np_genfromtxt w (remove_cr postal_text) "," 1%nat [0; 1; 3; 5; 6]%nat
  = Return rows ->
  as_locations (fun text => PyStr (U 9 text)) rows = Return loc ->
  stdin w = user :: pwd :: rest ->
  db_login w "iCP_events" (if String.eqb user "" then "Tim" else user) pwd = false ->
  let r := Db.initiate_db (mkState __init__ w) in
  fst r = Raise (OperationalError "connection failed")
  /\ cur (self (snd r)) = false /\ conn (self (snd r)) = false
  /\ db_session (world (snd r)) = db_session w
  /\ db_durable (world (snd r)) = db_durable w
  /\ db_commits (world (snd r)) = db_commits w.
Proof.
  intros Hfc Hfp Hoc Hdc Hop Hdl Hstdin Hlogin r.
  destruct (db_before_connection w countries_text postal_text crows countries
              rows loc user pwd rest Hfc Hfp Hoc Hdc Hop Hdl Hstdin)
    as (s5 & Hpre & _ & Hn & Hu & Hp & Hcur & Hconn & Hl & Hses & Hdur & Hcom & _).
  assert (E6 : psql_connection s5
               = (Raise (OperationalError "connection failed"), s5)).
  { unfold psql_connection, bind, get_self, get_world.
    rewrite Hn, Hu, Hp, Hl. cbn [format_name]. now rewrite Hlogin. }
  unfold r, Db.initiate_db. rewrite Hpre, (bind_raises _ _ _ _ _ E6).
  cbn [fst snd]. repeat split; assumption.
Qed.

Lemma db_refused_login_witness :
  let r := Db.initiate_db
             (mkState __init__ (set_stdin ["Tim"; "wrong"] Sample.world_a)) in
  fst r = Raise (OperationalError "connection failed")
  /\ cur (self (snd r)) = false /\ conn (self (snd r)) = false
  /\ db_session (world (snd r)) = []
  /\ db_durable (world (snd r)) = []
  /\ db_commits (world (snd r)) = 0%nat.
Proof.
  apply (db_refused_login (set_stdin ["Tim"; "wrong"] Sample.world_a)
           Sample.countries_csv Sample.postal_codes_csv
           [["US"; "United States"]; ["CA"; "Canada"]]
           [("US", "United States"); ("CA", "Canada")]
           [["90210"; "Beverly Hills"; "CA"; "34.0901"; "-118.4065"];
            ["10001"; "New York"; "NY"; "40.7484"; "-73.9967"]]
           Sample.records "Tim" "wrong" []).
  - reflexivity.
  - reflexivity.
  - vm_compute. reflexivity.
  - reflexivity.
  - vm_compute. reflexivity.
  - reflexivity.
  - reflexivity.
  - reflexivity.
Defined.

Lemma reader_missing {R} name step (rest : M R) s :
  csv_zipped (self s) = true ->
  fs_read (name ++ ".gz") (files (world s)) = None ->
  status step (modify_self (set_csv_file (Some name)) ;; unzip ;; rest) s
  = (Raise (FileNotFoundError (name ++ ".gz")),
     mkState (set_csv_file (Some name) (self s))
             (set_stdout (stdout (world s)
                          ++ [(newline ++ "Execute: " ++ step)%string;
                              ("Complete: " ++ step ++ newline)%string])
                         (world s))).
Proof.
  intros Hz Hgz. rewrite status_unfold. cbv zeta.
  set (before := snd (print (newline ++ "Execute: " ++ step) s)).
  assert (E : (modify_self (set_csv_file (Some name)) ;; unzip ;; rest) before
              = (Raise (FileNotFoundError (name ++ ".gz")),
                 mkState (set_csv_file (Some name) (self before)) (world before))).
  { unfold bind at 1. cbn [modify_self]. unfold bind at 1.
    rewrite (unzip_zipped _ name) by (cbn; assumption || reflexivity).
    cbn [self world set_csv_file].
    change (files (world before)) with (files (world s)).
    now rewrite Hgz. }
  rewrite E. cbn [fst snd]. unfold before, print, modify_world.
  cbn [snd self world set_stdout stdout]. rewrite <- app_assoc. reflexivity.
Qed.

(** When the archive of the countries is missing, [initiate_db] of
    either variant stops in [load_countries] with [FileNotFoundError]:
    nothing was asked of the operator, no file was written, and the
    database was not touched. *)
Theorem missing_source_stops_the_run (w : World) :
  fs_read "countries.csv.gz" (files w) = None ->
  forall initiate_db,
    initiate_db = Db.initiate_db \/ initiate_db = Server.initiate_db ->
    let r := initiate_db (mkState __init__ w) in
    fst r = Raise (FileNotFoundError "countries.csv.gz")
    /\ stdin (world (snd r)) = stdin w
    /\ files (world (snd r)) = files w
    /\ location_data (self (snd r)) = None
    /\ cur (self (snd r)) = false
    /\ db_session (world (snd r)) = db_session w
    /\ db_durable (world (snd r)) = db_durable w
    /\ db_commits (world (snd r)) = db_commits w.
Proof.
  intros Hgz initiate_db [-> | ->] r; unfold r.
  - unfold Db.initiate_db, Db.load_countries.
    rewrite (bind_raises _ _ _ _ _
               (reader_missing "countries.csv" "load_countries" _
                  (mkState __init__ w) eq_refl Hgz)).
    cbn. repeat split.
  - unfold Server.initiate_db, Server.load_countries.
    rewrite (bind_raises _ _ _ _ _
               (reader_missing "countries.csv" "load_countries" _
                  (mkState __init__ w) eq_refl Hgz)).
    cbn. repeat split.
Qed.

Lemma missing_source_stops_the_run_witness :
  fst (Db.initiate_db (mkState __init__ (set_files [] Sample.world_a)))
  = Raise (FileNotFoundError "countries.csv.gz").
Proof.
  exact (proj1 (missing_source_stops_the_run (set_files [] Sample.world_a) eq_refl
                  Db.initiate_db (or_introl eq_refl))).
Defined.

(** ** What a run leaves committed *)

#[local] Instance same_durable_composes : Composes same_durable.
Proof. split; unfold same_durable; congruence. Qed.

Create HintDb durable.

Ltac durable := keeps_with ltac:(auto with durable) ltac:(intros; reflexivity).

Lemma print_durable msg : keeps same_durable (print msg).
Proof. unfold print. durable. Qed.
#[local] Hint Resolve print_durable : durable.

Lemma status_durable {A} name (func : M A) :
  keeps same_durable func -> keeps same_durable (status name func).
Proof. intros Hf. unfold status. durable. Qed.

Lemma input_durable prompt : keeps same_durable (input prompt).
Proof. unfold input. durable. Qed.
#[local] Hint Resolve input_durable : durable.

Lemma get_user_durable : keeps same_durable get_user.
Proof. unfold get_user. durable. Qed.

Lemma get_password_durable : keeps same_durable get_password.
Proof. unfold get_password. durable. Qed.

Lemma unzip_durable : keeps same_durable unzip.
Proof. unfold unzip, gzip_read, write_text. durable. Qed.

Lemma zip_file_durable : keeps same_durable zip_file.
Proof. unfold zip_file, gzip_copy, os_remove. durable. Qed.

Lemma genfromtxt_durable {R} dtype delimiter skip_header usecols :
  keeps same_durable (@genfromtxt R dtype delimiter skip_header usecols).
Proof. unfold genfromtxt. durable. Qed.

Lemma load_times_durable : keeps same_durable load_times.
Proof. unfold load_times. apply status_durable. durable. Qed.

Lemma psql_connection_durable : keeps same_durable psql_connection.
Proof. unfold psql_connection. durable. Qed.

Lemma cur_execute_durable cmd params : keeps same_durable (cur_execute cmd params).
Proof. unfold cur_execute. durable. Qed.

Lemma cur_fetchall_durable : keeps same_durable cur_fetchall.
Proof. unfold cur_fetchall. durable. Qed.

#[local] Hint Resolve unzip_durable zip_file_durable
  genfromtxt_durable load_times_durable psql_connection_durable
  cur_execute_durable cur_fetchall_durable get_user_durable
  get_password_durable : durable.

Lemma table_select_durable name ret_field search value :
  keeps same_durable (Db.table_select name ret_field search value).
Proof. unfold Db.table_select. durable. Qed.
#[local] Hint Resolve table_select_durable : durable.

Lemma substitute_durable name i data rows addresses :
  keeps same_durable (Db.substitute name i data rows addresses).
Proof.
  revert addresses. induction rows as [|values rows IH]; intros addresses;
    cbn [Db.substitute]; durable.
Qed.
#[local] Hint Resolve substitute_durable : durable.

Lemma idx_sub_durable name translate addresses :
  keeps same_durable (Db.idx_sub name translate addresses).
Proof. unfold Db.idx_sub. durable. Qed.
#[local] Hint Resolve idx_sub_durable : durable.

Lemma resolve_durable names addresses :
  keeps same_durable (Db.resolve names addresses).
Proof.
  revert addresses. induction names as [|name names IH]; intros addresses;
    cbn [Db.resolve]; durable.
Qed.
#[local] Hint Resolve resolve_durable : durable.

Ltac step_durable := apply status_durable; durable.

Lemma db_steps_durable : Forall (keeps same_durable) Db.steps.
Proof.
  unfold Db.steps.
  repeat constructor; try (apply void_keeps; [exact _|]);
    auto with durable; step_durable.
Qed.

Lemma server_steps_durable : Forall (keeps same_durable) Server.steps.
Proof.
  unfold Server.steps.
  repeat constructor; try (apply void_keeps; [exact _|]);
    auto with durable; step_durable.
Qed.


(** A run of [initiate_db], in either variant, that raises leaves the
    committed tables as they were, whatever it did in its session; a
    run that returns has committed what its session held. *)
Theorem initiate_db_is_all_or_nothing (s : State) :
  (let r := Db.initiate_db s in
   match fst r with
   | Return _ => db_durable (world (snd r)) = db_session (world (snd r))
   | Raise _ => db_durable (world (snd r)) = db_durable (world s)
   end)
  /\ (let r := Server.initiate_db s in
      match fst r with
      | Return _ => db_durable (world (snd r)) = db_session (world (snd r))
      | Raise _ => db_durable (world (snd r)) = db_durable (world s)
      end).
Proof.
  assert (Hgen : forall steps,
             Forall (keeps same_durable) steps ->
             let r := (in_order steps ;; conn_commit) s in
             match fst r with
             | Return _ => db_durable (world (snd r)) = db_session (world (snd r))
             | Raise _ => db_durable (world (snd r)) = db_durable (world s)
             end).
  { intros steps Hsteps.
    assert (Hrun : keeps same_durable (in_order steps)).
    { unfold in_order. induction Hsteps; cbn [for_each]; durable. }
    specialize (Hrun s). unfold same_durable in Hrun. cbv zeta. unfold bind.
    destruct (in_order steps s) as [[[]|e] s1]; cbn [fst snd] in *;
      [|exact Hrun].
    unfold conn_commit, bind, get_self, modify_world, raise.
    destruct (conn (self s1)); cbn; [reflexivity | exact Hrun]. }
  split.
  - rewrite db_initiate_db_in_order. apply Hgen, db_steps_durable.
  - rewrite server_initiate_db_in_order. apply Hgen, server_steps_durable.
Qed.

(** ** Selecting and rebuilding *)


Lemma server_psql_tables_run s :
  cur (self s) = true -> exists s', Server.psql_tables s = (Return PyNone, s').
Proof.
  intros Hcur.
  set (before := snd (print (newline ++ "Execute: " ++ "psql_tables") s)).
  assert (Hcur0 : cur (self before) = true) by exact Hcur.
  destruct (drops_run fst Server.lookup_tables before Hcur0) as (s1 & E1).
  destruct (drops_return _ _ _ _ E1) as [Hself1 Hses1].
  destruct (creates_run fst true snd [] Server.lookup_tables) with (s := s1)
    as (s2 & E2).
  { unfold Server.lookup_tables. cbn [map fst].
    repeat (constructor; [cbn; intuition discriminate|]). constructor. }
  { congruence. }
  { intros x Hx. rewrite Hses1. apply find_removed. left. now apply in_map. }
  destruct (creates_return _ _ _ _ _ _ _ E2) as [Hself2 Hses2].
  destruct (cur_execute_run (DropTable "event") [] s2 _ _
              ltac:(congruence) eq_refl) as (s3 & E3 & Hself3 & Hses3).
  destruct (cur_execute_run
              (CreateTable "event" false Server.composite []) [] s3
              (put_table "event" (created false Server.composite []) (session s3))
              []) as (s4 & E4 & _); [congruence| |].
  { cbn [execute_sql]. rewrite Hses3. now rewrite find_remove_same. }
  eexists. apply (status_run _ _ _ tt s4). fold before.
  unfold Server.cmd_drop_table, Server.cmd_create_serial_table.
  rewrite (bind_run _ _ _ _ _ E1), (bind_run _ _ _ _ _ E2),
    (bind_run _ _ _ _ _ E3). exact E4.
Qed.

Ltac by_table_name name :=
  repeat match goal with
         | |- context [String.eqb ?n name] =>
             let E := fresh "E" in
             destruct (String.eqb n name) eqn:E;
             [apply String.eqb_eq in E; subst name;
              cbn [fold_left fst snd];
              repeat first
                [ rewrite find_put_same
                | rewrite find_put_other by reflexivity
                | rewrite find_remove_other by reflexivity ];
              reflexivity|]
         end.

Lemma db_rebuilt_find name db :
  find_table name (Db.rebuilt db)
  = match find_table name db_fresh_tables with
    | Some t => Some t
    | None => find_table name db
    end.
Proof.
  unfold db_fresh_tables, Db.lookup_tables. cbn [map app fst snd find_table].
  unfold Db.rebuilt, Db.lookup_tables.
  by_table_name name.
  cbn [fold_left fst snd].
  repeat first [ rewrite find_put_other by assumption
               | rewrite find_remove_other by assumption ].
  reflexivity.
Qed.

Lemma server_rebuilt_find name db :
  find_table name (Server.rebuilt db)
  = match find_table name server_fresh_tables with
    | Some t => Some t
    | None => find_table name db
    end.
Proof.
  unfold server_fresh_tables, Server.lookup_tables.
  cbn [map app fst snd find_table].
  unfold Server.rebuilt, Server.lookup_tables.
  by_table_name name.
  cbn [fold_left fst snd].
  repeat first [ rewrite find_put_other by assumption
               | rewrite find_remove_other by assumption ].
  reflexivity.
Qed.

(** With a cursor, [psql_tables] of either variant returns whatever the
    database held: each of its tables is dropped if it is there and
    created anew, empty, with its sequence at 1; a table it does not
    name stays as it was.  Running it again changes nothing. *)
Theorem psql_tables_rebuilds_the_schema (s : State) :
  cur (self s) = true ->
  (fst (Db.psql_tables s) = Return PyNone
   /\ self (snd (Db.psql_tables s)) = self s
   /\ (forall name,
          find_table name (session (snd (Db.psql_tables s)))
          = match find_table name db_fresh_tables with
            | Some t => Some t
            | None => find_table name (session s)
            end)
   /\ forall name,
       find_table name (session (snd (Db.psql_tables (snd (Db.psql_tables s)))))
       = find_table name (session (snd (Db.psql_tables s))))
  /\ (fst (Server.psql_tables s) = Return PyNone
      /\ self (snd (Server.psql_tables s)) = self s
      /\ (forall name,
             find_table name (session (snd (Server.psql_tables s)))
             = match find_table name server_fresh_tables with
               | Some t => Some t
               | None => find_table name (session s)
               end)
      /\ forall name,
          find_table name
            (session (snd (Server.psql_tables (snd (Server.psql_tables s)))))
          = find_table name (session (snd (Server.psql_tables s)))).
Proof.
  intros Hcur. split.
  - destruct (db_psql_tables_run s Hcur) as (s1 & E1).
    destruct (db_psql_tables_returns _ _ _ E1) as [Hself1 Hses1].
    destruct (db_psql_tables_run s1) as (s2 & E2); [congruence|].
    destruct (db_psql_tables_returns _ _ _ E2) as [Hself2 Hses2].
    rewrite E1. cbn [fst snd]. rewrite E2. cbn [snd].
    split; [reflexivity|]. split; [exact Hself1|]. split.
    + intros name. rewrite Hses1. apply db_rebuilt_find.
    + intros name. rewrite Hses2, db_rebuilt_find, Hses1, db_rebuilt_find.
      now destruct (find_table name db_fresh_tables).
  - destruct (server_psql_tables_run s Hcur) as (s1 & E1).
    destruct (server_psql_tables_returns _ _ _ E1) as [Hself1 Hses1].
    destruct (server_psql_tables_run s1) as (s2 & E2); [congruence|].
    destruct (server_psql_tables_returns _ _ _ E2) as [Hself2 Hses2].
    rewrite E1. cbn [fst snd]. rewrite E2. cbn [snd].
    split; [reflexivity|]. split; [exact Hself1|]. split.
    + intros name. rewrite Hses1. apply server_rebuilt_find.
    + intros name. rewrite Hses2, server_rebuilt_find, Hses1, server_rebuilt_find.
      now destruct (find_table name server_fresh_tables).
Qed.

Lemma psql_tables_rebuilds_the_schema_witness :
  fst (Db.psql_tables (mkState (set_cur true __init__) Sample.world_a))
  = Return PyNone.
Proof.
  exact (proj1 (proj1 (psql_tables_rebuilds_the_schema
                         (mkState (set_cur true __init__) Sample.world_a)
                         eq_refl))).
Defined.

(** ** The populating methods *)

Lemma status_raises {A} name (func : M A) s e s1 :
  func (snd (print (newline ++ "Execute: " ++ name) s)) = (Raise e, s1) ->
  status name func s
  = (Raise e, snd (print ("Complete: " ++ name ++ newline) s1)).
Proof. intros H. rewrite status_unfold. cbv zeta. now rewrite H. Qed.

Lemma populate_appends {X} step name schema
      (values : PostgresInitialize -> option (list X)) (ps : X -> list pyval) :
  plain_schema schema -> (forall x, List.length (ps x) = List.length schema) ->
  appends
    (status step
       (o <- get_self ;;
        xs <- iter (values o) ;;
        for_each xs (fun x => cur_execute (InsertInto name (map fst schema)) (ps x))))
    name schema (fun o => option_map (map ps) (values o)).
Proof.
  intros Hp Hlen s. destruct (values (self s)) as [xs|] eqn:Hv; cbn [option_map].
  - intros Hcur t Hf Ht.
    destruct (populate_run step name schema values ps s xs t Hp Hlen Hcur Hv Hf Ht)
      as (s' & E).
    destruct (populate_returns step name schema values ps s _ s' Hp Hlen E t Hf Ht)
      as (xs' & Hxs & Hself & Hfind & Hother).
    assert (xs' = xs) by congruence. subst xs'.
    rewrite E. cbn [fst snd]. repeat split; assumption.
  - set (before := snd (print (newline ++ "Execute: " ++ step) s)).
    rewrite (status_raises step _ s
               (TypeError "'NoneType' object is not iterable") before).
    + split; reflexivity.
    + fold before. unfold bind at 1. cbn [get_self].
      change (self before) with (self s). now rewrite Hv.
Qed.



Lemma guarded_loop_run {X} name schema (ps : X -> list pyval) (xs : list X) :
  plain_schema schema -> (forall x, List.length (ps x) = List.length schema) ->
  forall seen s t,
    cur (self s) = true ->
    Forall (fun w => List.length w = List.length schema) seen ->
    find_table name (session s) = Some t -> holding schema seen t ->
    exists s',
      for_each xs (fun x => cur_execute (InsertWhereNotExists name (map fst schema))
                                        (ps x ++ ps x)) s
      = (Return tt, s').
Proof.
  intros Hp Hlen. induction xs as [|x xs IH]; intros seen s t Hcur Hseen Hf Ht.
  - now exists s.
  - cbn [for_each].
    destruct (conditional_insert_step name schema t (ps x) (session s) Hf
                (proj1 Ht) Hp (proj1 (proj2 Ht)) (Hlen x))
      as (db' & t0 & Hex & _).
    destruct (cur_execute_run _ _ s _ _ Hcur Hex) as (s1 & E1 & Hself & Hses).
    destruct (guarded_insert name schema t (ps x) _ seen db' [] Hp (Hlen x)
                Hseen Hf Ht Hex) as (t1 & Hf1 & Ht1 & _).
    rewrite (bind_run _ _ _ _ _ E1).
    apply (IH (seen ++ [ps x])%list s1 t1); [congruence| |congruence|exact Ht1].
    apply Forall_app. split; [exact Hseen|]. constructor; [apply Hlen|constructor].
Qed.

Lemma guarded_populate_inserts_once {X} step name schema
      (values : PostgresInitialize -> option (list X)) (ps : X -> list pyval) :
  plain_schema schema -> (forall x, List.length (ps x) = List.length schema) ->
  inserts_once
    (status step
       (o <- get_self ;;
        xs <- iter (values o) ;;
        for_each xs (fun x => cur_execute (InsertWhereNotExists name (map fst schema))
                                          (ps x ++ ps x))))
    name schema (fun o => option_map (map ps) (values o)).
Proof.
  intros Hp Hlen s. destruct (values (self s)) as [xs|] eqn:Hv; cbn [option_map].
  - intros Hcur seen t Hseen Hf Ht.
    set (before := snd (print (newline ++ "Execute: " ++ step) s)).
    destruct (guarded_loop_run name schema ps xs Hp Hlen seen before t Hcur Hseen
                Hf Ht) as (s1 & E1).
    destruct (guarded_loop name schema ps xs Hp Hlen seen before s1 t Hseen Hf Ht E1)
      as (t' & H1 & H2 & H3 & H4).
    rewrite (status_run step _ s tt s1).
    + cbn [fst snd]. split; [reflexivity|]. split; [exact H1|].
      split; [now exists t' | exact H4].
    + fold before. unfold bind at 1. cbn [get_self].
      change (self before) with (self s). unfold iter. rewrite Hv.
      unfold bind, ret. exact E1.
  - set (before := snd (print (newline ++ "Execute: " ++ step) s)).
    rewrite (status_raises step _ s
               (TypeError "'NoneType' object is not iterable") before).
    + split; reflexivity.
    + fold before. unfold bind at 1. cbn [get_self].
      change (self before) with (self s). now rewrite Hv.
Qed.



(** ** A run of variant B that succeeds *)

Lemma reader_b_run {R} name step (dtype : list (list string) -> outcome R)
      delimiter skip_header usecols (store : R -> M unit) s text rows x :
  stores store ->
  csv_zipped (self s) = true ->
  fs_read (name ++ ".gz") (files (world s)) = Some (Gzip (Plain text)) ->
  np_genfromtxt (world s) (remove_cr text) delimiter skip_header usecols
  = Return rows ->
  dtype rows = Return x ->
  status step
    (modify_self (set_csv_file (Some name)) ;;
     unzip ;;
     x <- genfromtxt dtype delimiter skip_header usecols ;;
     store x) s
  = (Return PyNone,
     snd (print ("Complete: " ++ step ++ newline)
            (snd (store x (decoded false name text
                             (snd (print (newline ++ "Execute: " ++ step) s))))))).
Proof.
  intros Hst Hz Hgz Hrows Hx.
  set (before := snd (print (newline ++ "Execute: " ++ step) s)).
  destruct (store x (decoded false name text before)) as [out s1] eqn:Es.
  pose proof (proj1 (Hst x (decoded false name text before))) as Hout.
  rewrite Es in Hout. cbn [fst] in Hout. subst out.
  apply (status_run _ _ _ tt s1). fold before.
  rewrite (reader_b_decodes name dtype delimiter skip_header usecols store
             before text Hz Hgz).
  change (world before) with (set_stdout (stdout (world s)
                                            ++ [(newline ++ "Execute: " ++ step)%string])
                                         (world s)).
  cbn [np_genfromtxt set_stdout]. rewrite Hrows, Hx. exact Es.
Qed.

(** The state of variant B when it is about to connect. *)
Lemma server_before_connection (w : World) countries_text postal_text crows
      countries rows loc user pwd rest :
  fs_read "countries.csv.gz" (files w) = Some (Gzip (Plain countries_text)) ->
  fs_read "us_postal_codes.csv.gz" (files w) = Some (Gzip (Plain postal_text)) ->
  np_genfromtxt w (remove_cr countries_text) "," 0%nat [0; 1]%nat = Return crows ->
  as_countries crows = Return countries ->
  np_genfromtxt w (remove_cr postal_text) "," 1%nat [0; 1; 3; 5; 6]%nat
  = Return rows ->
  as_locations (fun text => PyFloat (np_float w text)) rows = Return loc ->
  stdin w = user :: pwd :: rest ->
  exists s5,
    (forall B (then_ : M B),
        (Server.load_countries ;; Server.load_locations ;; load_times ;;
         get_user ;; get_password ;; then_) (mkState __init__ w) = then_ s5)
    /\ loaded countries loc (self s5)
    /\ db_name (self s5) = "iCP_events"
    /\ db_user (self s5) = Some (if String.eqb user "" then "Tim" else user)
    /\ db_pwd (self s5) = Some pwd
    /\ cur (self s5) = false /\ conn (self s5) = false
    /\ db_login (world s5) = db_login w
    /\ db_session (world s5) = db_session w
    /\ db_durable (world s5) = db_durable w
    /\ db_commits (world s5) = db_commits w
    /\ stdin (world s5) = rest.
Proof.
  intros Hfc Hfp Hoc Hdc Hop Hdl Hstdin.
  set (s0 := mkState __init__ w).
  pose proof (reader_b_run "countries.csv" "load_countries" as_countries ","
                0%nat [0; 1]%nat
                (fun c => modify_self (set_country (Some c)))
                s0 countries_text crows countries stores_country eq_refl
                Hfc Hoc Hdc) as E1.
  match type of E1 with _ = (_, ?s) => set (s1 := s) in E1 end.
  assert (F1 : fs_read "us_postal_codes.csv.gz" (files (world s1))
               = Some (Gzip (Plain postal_text))).
  { change (files (world s1))
      with (fs_write "countries.csv" (Plain (remove_cr countries_text))
                     (files w)).
    rewrite fs_read_write_other by reflexivity. exact Hfp. }
  pose proof (reader_b_run "us_postal_codes.csv" "load_locations"
                (as_locations (fun text => PyFloat (np_float w text))) ","
                1%nat [0; 1; 3; 5; 6]%nat _
                s1 postal_text rows loc stores_locations eq_refl
                F1 Hop Hdl) as E2.
  match type of E2 with _ = (_, ?s) => set (s2 := s) in E2 end.
  pose proof (status_run "load_times" (modify_self (set_time (Some day_times)))
                s2 tt _ eq_refl) as E3.
  match type of E3 with _ = (_, ?s) => set (s3 := s) in E3 end.
  destruct (get_user_run s3 user (pwd :: rest) Hstdin) as (s4 & E4 & Hs4 & Hw4).
  destruct (get_password_run s4 pwd rest) as (s5 & E5 & Hs5 & Hw5);
    [now rewrite Hw4|].
  exists s5. split.
  { intros B then_.
    unfold Server.load_countries at 1. rewrite (bind_run _ _ _ _ _ E1).
    unfold Server.load_locations at 1.
    rewrite (bind_run _ _ _ _ _
               (eq_trans (status_get_world "load_locations" _ s1) E2)).
    unfold load_times at 1. rewrite (bind_run _ _ _ _ _ E3).
    rewrite (bind_run _ _ _ _ _ E4), (bind_run _ _ _ _ _ E5). reflexivity. }
  rewrite Hs5, Hw5, Hw4, Hs4. unfold loaded.
  split; [repeat split|]. repeat split.
Qed.

Lemma holding_fresh schema : holding schema [] (created true schema []).
Proof.
  destruct (fresh_table_serial schema) as [Hs Hn].
  split; [exact Hs|]. split; [exact Hn|]. split; [intros w []|constructor].
Qed.

(** One populating method of variant B on the table as [psql_tables]
    left it. *)
Lemma guarded_populate_step {X} step name schema
      (values : PostgresInitialize -> option (list X)) (ps : X -> list pyval)
      s xs :
  plain_schema schema -> (forall x, List.length (ps x) = List.length schema) ->
  cur (self s) = true -> values (self s) = Some xs ->
  find_table name (session s) = Some (created true schema []) ->
  exists s',
    status step
      (o <- get_self ;;
       xs <- iter (values o) ;;
       for_each xs (fun x => cur_execute (InsertWhereNotExists name (map fst schema))
                                         (ps x ++ ps x))) s
    = (Return PyNone, s')
    /\ self s' = self s
    /\ forall m, String.eqb name m = false ->
                 find_table m (session s') = find_table m (session s).
Proof.
  intros Hp Hlen Hcur Hv Hf.
  pose proof (guarded_populate_inserts_once step name schema values ps Hp Hlen s)
    as H.
  cbv beta in H. rewrite Hv in H. cbn [option_map] in H.
  destruct (H Hcur [] _ (Forall_nil _) Hf (holding_fresh schema))
    as (H1 & H2 & _ & H4).
  eexists. split; [|split; [exact H2 | exact H4]].
  rewrite <- H1. apply surjective_pairing.
Qed.

Lemma server_populate_run s countries loc :
  cur (self s) = true -> loaded countries loc (self s) ->
  exists s14,
    (forall B (rest : M B),
        (Server.psql_tables ;; Server.psql_city ;; Server.psql_country ;;
         Server.psql_latitude ;; Server.psql_longitude ;;
         Server.psql_postal_code ;; Server.psql_state ;; Server.psql_times ;;
         rest) s = rest s14)
    /\ self s14 = self s.
Proof.
  intros Hcur (Lc & Ld & Lci & Lst & Lpc & Lla & Llo & Lt).
  destruct (server_psql_tables_run s Hcur) as (s7 & H7).
  destruct (server_psql_tables_returns _ _ _ H7) as [E7 D7].
  assert (Hin : forall name schema,
             In (name, schema) Server.lookup_tables ->
             find_table name (session s7) = Some (created true schema [])
             /\ plain_schema schema).
  { intros name schema Hi. rewrite D7.
    split; [now apply server_rebuilt_lookup | now apply (server_schemas_plain name)]. }
  rewrite <- E7 in Hcur, Lc, Ld, Lci, Lst, Lpc, Lla, Llo, Lt.
  destruct (Hin "city" [("city_name", TEXT)]) as (F8 & P8); [cbn; auto|].
  destruct (guarded_populate_step "psql_city" "city" [("city_name", TEXT)] city
              (fun x => [x]) s7 _ P8 (fun _ => eq_refl) Hcur Lci F8)
    as (s8 & H8 & E8 & O8).
  rewrite <- E8 in Hcur, Lc, Ld, Lci, Lst, Lpc, Lla, Llo, Lt.
  destruct (Hin "country" [("country_abbr", CHAR 2); ("country_name", TEXT)])
    as (F9 & P9); [cbn; auto|].
  rewrite <- (O8 "country" eq_refl) in F9.
  destruct (guarded_populate_step "psql_country" "country"
              [("country_abbr", CHAR 2); ("country_name", TEXT)] country
              (fun xy => [PyStr (fst xy); PyStr (snd xy)]) s8 _ P9
              (fun _ => eq_refl) Hcur Lc F9)
    as (s9 & H9 & E9 & O9).
  rewrite <- E9 in Hcur, Lc, Ld, Lci, Lst, Lpc, Lla, Llo, Lt.
  destruct (Hin "latitude" [("latitude_value", REAL)]) as (F10 & P10);
    [cbn; auto 10|].
  rewrite <- (O8 "latitude" eq_refl), <- (O9 "latitude" eq_refl) in F10.
  destruct (guarded_populate_step "psql_latitude" "latitude"
              [("latitude_value", REAL)] latitude (fun x => [x]) s9 _ P10
              (fun _ => eq_refl) Hcur Lla F10)
    as (s10 & H10 & E10 & O10).
  rewrite <- E10 in Hcur, Lc, Ld, Lci, Lst, Lpc, Lla, Llo, Lt.
  destruct (Hin "longitude" [("longitude_value", REAL)]) as (F11 & P11);
    [cbn; auto 10|].
  rewrite <- (O8 "longitude" eq_refl), <- (O9 "longitude" eq_refl),
    <- (O10 "longitude" eq_refl) in F11.
  destruct (guarded_populate_step "psql_longitude" "longitude"
              [("longitude_value", REAL)] longitude (fun x => [x]) s10 _ P11
              (fun _ => eq_refl) Hcur Llo F11)
    as (s11 & H11 & E11 & O11).
  rewrite <- E11 in Hcur, Lc, Ld, Lci, Lst, Lpc, Lla, Llo, Lt.
  destruct (Hin "postal_code" [("postal_code_value", CHAR 5)]) as (F12 & P12);
    [cbn; auto 10|].
  rewrite <- (O8 "postal_code" eq_refl), <- (O9 "postal_code" eq_refl),
    <- (O10 "postal_code" eq_refl), <- (O11 "postal_code" eq_refl) in F12.
  destruct (guarded_populate_step "psql_postal_code" "postal_code"
              [("postal_code_value", CHAR 5)] postal_code (fun x => [x]) s11 _ P12
              (fun _ => eq_refl) Hcur Lpc F12)
    as (s12 & H12 & E12 & O12).
  rewrite <- E12 in Hcur, Lc, Ld, Lci, Lst, Lpc, Lla, Llo, Lt.
  destruct (Hin "state" [("state_name", CHAR 2)]) as (F13 & P13);
    [cbn; auto 10|].
  rewrite <- (O8 "state" eq_refl), <- (O9 "state" eq_refl),
    <- (O10 "state" eq_refl), <- (O11 "state" eq_refl),
    <- (O12 "state" eq_refl) in F13.
  destruct (guarded_populate_step "psql_state" "state"
              [("state_name", CHAR 2)] state (fun x => [x]) s12 _ P13
              (fun _ => eq_refl) Hcur Lst F13)
    as (s13 & H13 & E13 & O13).
  rewrite <- E13 in Hcur, Lc, Ld, Lci, Lst, Lpc, Lla, Llo, Lt.
  destruct (Hin "times" [("time_value", TIME)]) as (F14 & P14);
    [cbn; auto 10|].
  rewrite <- (O8 "times" eq_refl), <- (O9 "times" eq_refl),
    <- (O10 "times" eq_refl), <- (O11 "times" eq_refl),
    <- (O12 "times" eq_refl), <- (O13 "times" eq_refl) in F14.
  destruct (guarded_populate_step "psql_times" "times"
              [("time_value", TIME)] time_ (fun x => [PyTime x]) s13 _ P14
              (fun _ => eq_refl) Hcur Lt F14)
    as (s14 & H14 & E14 & O14).
  exists s14. split; [|congruence].
  intros B rest.
  rewrite (bind_run _ _ _ _ _ H7), (bind_run _ _ _ _ _ H8),
    (bind_run _ _ _ _ _ H9), (bind_run _ _ _ _ _ H10),
    (bind_run _ _ _ _ _ H11), (bind_run _ _ _ _ _ H12),
    (bind_run _ _ _ _ _ H13), (bind_run _ _ _ _ _ H14).
  reflexivity.
Qed.



(** ** Records that repeat an address, variant A *)

Lemma cur_execute_raises cmd params s e :
  cur (self s) = true ->
  execute_sql cmd params (session s) = Raise e ->
  cur_execute cmd params s = (Raise e, s).
Proof.
  intros Hcur Hex. unfold cur_execute, bind, get_self, get_world, session in *.
  now rewrite Hcur, Hex.
Qed.

Lemma address_insert_violates (a : list string) r db t :
  find_table "address" db = Some t ->
  t_serial t = false -> t_schema t = Db.address_schema ->
  Db.address_row a = Some r -> violates_unique t r = true ->
  execute_sql (Db.table_insert "address" Db.fields) (map PyStr a) db
  = Raise (IntegrityError "address").
Proof.
  intros Hf Hser Hsch Hrow Hu.
  destruct (address_row_coerces a r Hrow) as [Hlen Hco].
  unfold Db.table_insert. cbn [execute_sql].
  unfold insert_row. rewrite Hf, Hsch, Hser, length_map, Hlen.
  cbn [Db.fields List.length Nat.eqb negb].
  replace (forallb _ Db.fields) with true by reflexivity. cbn [negb].
  unfold column_types, violates_primary_key. rewrite Hser, Hsch.
  cbn [app andb orb]. cbv zeta. rewrite Hco, Hu. reflexivity.
Qed.

(** The inserts into the address table stop with [IntegrityError] at
    the first row that agrees with an earlier one on the columns of the
    uniqueness constraint. *)
Lemma address_inserts_raise (addresses : list (list string)) (rs : list row) :
  Forall2 (fun a r => Db.address_row a = Some r) addresses rs ->
  forall s t,
    cur (self s) = true ->
    find_table "address" (session s) = Some t ->
    t_serial t = false -> t_schema t = Db.address_schema ->
    t_unique t = ["city"; "state"; "postal_code"] ->
    (exists before r later,
        rs = (before ++ r :: later)%list
        /\ existsb (same_on (map fst Db.address_schema)
                            ["city"; "state"; "postal_code"] r)
                   (t_rows t ++ before) = true) ->
    exists s',
      for_each addresses
        (fun a => cur_execute (Db.table_insert "address" Db.fields) (map PyStr a))
        s = (Raise (IntegrityError "address"), s').
Proof.
  induction 1 as [|a r addresses rs Har Hall IH];
    intros s t Hcur Hf Hser Hsch Huni (before & r' & later & Heq & Hdup).
  - now destruct before.
  - cbn [for_each].
    assert (Hv : violates_unique t r
                 = existsb (same_on (map fst Db.address_schema)
                                    ["city"; "state"; "postal_code"] r)
                           (t_rows t)).
    { unfold violates_unique, column_names. now rewrite Huni, Hser, Hsch. }
    destruct (violates_unique t r) eqn:Hu.
    + exists s. apply bind_raises. apply cur_execute_raises; [exact Hcur|].
      now apply (address_insert_violates a r _ t).
    + destruct (cur_execute_run _ _ s _ _ Hcur
                  (address_insert_run a r _ t Hf Hser Hsch Har Hu))
        as (s1 & E1 & Hself & Hses).
      rewrite (bind_run _ _ _ _ _ E1).
      destruct before as [|b before].
      { cbn in Heq. injection Heq as <- _. rewrite app_nil_r in Hdup. congruence. }
      cbn in Heq. injection Heq as <- Heq.
      apply (IH s1 (mkTable false Db.address_schema (t_unique t) (t_seq t)
                            (t_rows t ++ [r]))).
      * congruence.
      * rewrite Hses. apply find_put_same.
      * reflexivity.
      * reflexivity.
      * exact Huni.
      * exists before, r', later. split; [exact Heq|].
        cbn [t_rows]. now rewrite <- app_assoc.
Qed.

(** Rows made for records with the same city, state and postal code
    agree on the columns of the uniqueness constraint. *)
Lemma clipped_rows_agree loc x y rx ry :
  clipped_row_of loc x rx -> clipped_row_of loc y ry ->
  (Loc.city x, Loc.state x, Loc.postal_code x)
  = (Loc.city y, Loc.state y, Loc.postal_code y) ->
  same_on (map fst Db.address_schema) ["city"; "state"; "postal_code"] ry rx
  = true.
Proof.
  intros (pc & ps & pp & pla & plo & -> & Nc & Ns & Np & _)
         (pc' & ps' & pp' & pla' & plo' & -> & Nc' & Ns' & Np' & _) E.
  assert (Ec : Loc.city x = Loc.city y) by congruence.
  assert (Es : Loc.state x = Loc.state y) by congruence.
  assert (Ep : Loc.postal_code x = Loc.postal_code y) by congruence.
  rewrite Ec in Nc. rewrite Es in Ns. rewrite Ep in Np.
  assert (Hpos : forall (l : list pyval) i j v,
             NoDup l -> nth_error l i = Some v -> nth_error l j = Some v -> i = j).
  { intros l i j v Hnd Hi Hj.
    apply (proj1 (NoDup_nth_error l) Hnd);
      [apply nth_error_Some; congruence | congruence]. }
  rewrite (Hpos _ _ _ _ (proj1 (np_unique_spec _)) Nc Nc').
  rewrite (Hpos _ _ _ _ (proj1 (np_unique_spec _)) Ns Ns').
  rewrite (Hpos _ _ _ _ (proj1 (np_unique_spec _)) Np Np').
  cbn. unfold field_value. cbn. now rewrite !Z.eqb_refl.
Qed.

Lemma psql_address_raises s countries loc l1 x l2 y l3 :
  cur (self s) = true -> location_data (self s) = Some loc ->
  text_coordinates loc -> Db.seeded countries loc (session s) ->
  find_table "address" (session s)
  = Some (created false Db.address_schema ["city"; "state"; "postal_code"]) ->
  loc = (l1 ++ x :: l2 ++ y :: l3)%list ->
  (Loc.city x, Loc.state x, Loc.postal_code x)
  = (Loc.city y, Loc.state y, Loc.postal_code y) ->
  exists s', Db.psql_address s = (Raise (IntegrityError "address"), s').
Proof.
  intros Hcur Hdata Htext Hseeded Haddr Hloc Hkey.
  set (before := snd (print (newline ++ "Execute: " ++ "psql_address") s)).
  destruct Hseeded as (Hci & _ & Hla & Hlo & Hpc & Hst & _).
  set (a0 := map (fun i => map (np_garbage (world before) i)
                               (seq 0 (List.length Db.fields)))
                 (seq 0 (List.length loc))).
  assert (Hlen0 : List.length a0 = List.length loc)
    by (unfold a0; now rewrite length_map, length_seq).
  assert (Hshape : Forall (fun x => List.length x = 5%nat) a0).
  { apply Forall_forall. intros z Hz. apply in_map_iff in Hz as (i & <- & _).
    now rewrite length_map, length_seq. }
  destruct (resolve_run loc Db.fields before a0 Hcur Hdata) as (a' & s2 & E2).
  { unfold Db.fields.
    repeat constructor; eexists _, _;
      (split; [reflexivity|]);
      (split; [first [exact Hpc | exact Hci | exact Hst | exact Hla | exact Hlo]|]);
      apply numbered_id_rows. }
  destruct (resolve_returns _ _ _ _ _ E2) as (Hself2 & Hses2 & Hres).
  specialize (Hres loc Hdata).
  rewrite (resolved_rows loc (session before) a0 _ _ _ _ _
             _ _ _ _ _ Hpc eq_refl Hci eq_refl Hst eq_refl Hla eq_refl
             Hlo eq_refl Hlen0) in Hres.
  destruct (resolved_rows_exist loc Htext loc a0 (incl_refl _) Hlen0 Hshape)
    as (rs & Hrs & Hclip).
  destruct (address_inserts_raise a' rs) with (s := s2)
    (t := created false Db.address_schema ["city"; "state"; "postal_code"])
    as (s3 & E3).
  - rewrite Hres. exact Hrs.
  - now rewrite Hself2.
  - now rewrite Hses2.
  - reflexivity.
  - reflexivity.
  - reflexivity.
  - assert (Hclip' : Forall2 (clipped_row_of loc) (l1 ++ x :: l2 ++ y :: l3) rs)
      by (rewrite <- Hloc; exact Hclip).
    clear Hclip Hrs.
    destruct (Forall2_app_inv_l _ _ Hclip') as (b1 & rs1 & F1 & F2 & ->).
    destruct rs1 as [|rx rs2]; [inversion F2|].
    apply Forall2_cons_iff in F2 as [Hx F3].
    destruct (Forall2_app_inv_l _ _ F3) as (b2 & rs3 & F4 & F5 & ->).
    destruct rs3 as [|ry b3]; [inversion F5|].
    apply Forall2_cons_iff in F5 as [Hy F6].
    exists (b1 ++ rx :: b2)%list, ry, b3. split.
    + rewrite <- app_assoc. reflexivity.
    + cbn [t_rows created app]. apply existsb_exists. exists rx. split.
      * apply in_or_app. right. now left.
      * exact (clipped_rows_agree loc x y rx ry Hx Hy Hkey).
  - eexists. apply (status_raises _ _ _ _ s3). fold before.
    unfold bind at 1. cbn [get_self]. unfold bind at 1. cbn [get_world].
    change (self before) with (self s). rewrite Hdata.
    fold a0. cbv zeta. rewrite (bind_run _ _ _ _ _ E2). exact E3.
Qed.

Lemma db_raise_keeps_durable s e s' :
  Db.initiate_db s = (Raise e, s') ->
  db_durable (world s') = db_durable (world s)
  /\ db_commits (world s') = db_commits (world s).
Proof.
  intros Hrun. split.
  - rewrite db_initiate_db_in_order in Hrun.
    assert (Hk : keeps same_durable (in_order Db.steps)).
    { assert (Hgen : forall steps,
                 Forall (keeps same_durable) steps ->
                 keeps same_durable (in_order steps)).
      { intros steps Hsteps. unfold in_order.
        induction Hsteps as [|m steps Hm Hsteps IH]; cbn [for_each].
        - exact (@keeps_ret same_durable same_durable_composes _ tt).
        - apply (@keeps_bind same_durable same_durable_composes);
            [exact Hm | intros _; exact IH]. }
      apply Hgen, db_steps_durable. }
    specialize (Hk s). unfold same_durable in Hk. unfold bind in Hrun.
    destruct (in_order Db.steps s) as [[[]|e1] s1]; cbn [snd] in Hk.
    + revert Hrun. unfold conn_commit, bind, get_self, modify_world, raise.
      destruct (conn (self s1)); intros Hrun; [discriminate|].
      injection Hrun as _ <-. exact Hk.
    + injection Hrun as _ <-. exact Hk.
  - pose proof (in_order_then_commit Db.steps db_steps_commits s) as Hc.
    unfold commits_last in Hc. rewrite <- db_initiate_db_in_order, Hrun in Hc.
    apply Hc.
Qed.



(** ** What the readers store *)

Lemma as_locations_lengths coordinate rows loc :
  as_locations coordinate rows = Return loc ->
  Forall (fun r => (String.length (Loc.postal_code r) <= 5)%nat
                   /\ (String.length (Loc.city r) <= 30)%nat
                   /\ (String.length (Loc.state r) <= 2)%nat
                   /\ exists a b, Loc.latitude r = coordinate a
                                  /\ Loc.longitude r = coordinate b) loc.
Proof.
  revert loc. induction rows as [|row rows IH]; intros loc H; cbn in H.
  - injection H as <-. constructor.
  - destruct row as [|p [|c [|st [|la [|lo [|]]]]]]; try discriminate.
    destruct (as_locations coordinate rows) as [rest|e]; [|discriminate].
    injection H as <-. constructor; [|now apply IH].
    cbn [Loc.postal_code Loc.city Loc.state Loc.latitude Loc.longitude].
    unfold U. repeat split; try apply substring_length_le. now exists la, lo.
Qed.

Lemma db_load_locations_rows s v s' :
  Db.load_locations s = (Return v, s') ->
  exists rows loc,
    as_locations (fun text => PyStr (U 9 text)) rows = Return loc
    /\ location_data (self s') = Some loc
    /\ city (self s') = Some (np_unique (map (fun r => PyStr (Loc.city r)) loc))
    /\ state (self s') = Some (np_unique (map (fun r => PyStr (Loc.state r)) loc))
    /\ postal_code (self s')
       = Some (np_unique (map (fun r => PyStr (Loc.postal_code r)) loc))
    /\ latitude (self s') = Some (np_unique (map Loc.latitude loc))
    /\ longitude (self s') = Some (np_unique (map Loc.longitude loc)).
Proof.
  intros Hrun.
  apply status_returns in Hrun as (s0 & u & s1 & Hself0 & _ & Hbody & Hself' & _).
  apply bind_returns in Hbody as ([] & s2 & H1 & Hbody).
  apply bind_returns in Hbody as ([] & s3 & H2 & Hbody).
  apply bind_returns in Hbody as (x & s4 & H3 & Hbody).
  apply bind_returns in Hbody as ([] & s5 & H4 & H5).
  apply genfromtxt_returns in H3 as [-> [rows Hrows]].
  cbn in H5. injection H5 as Hs1. subst s1.
  exists rows, x. split; [exact Hrows|].
  rewrite Hself'. cbn. repeat split.
Qed.

Lemma server_load_locations_rows s v s' :
  Server.load_locations s = (Return v, s') ->
  exists f rows loc,
    as_locations (fun text => PyFloat (f text)) rows = Return loc
    /\ location_data (self s') = Some loc
    /\ city (self s') = Some (np_unique (map (fun r => PyStr (Loc.city r)) loc))
    /\ state (self s') = Some (np_unique (map (fun r => PyStr (Loc.state r)) loc))
    /\ postal_code (self s')
       = Some (np_unique (map (fun r => PyStr (Loc.postal_code r)) loc))
    /\ latitude (self s') = Some (np_unique (map Loc.latitude loc))
    /\ longitude (self s') = Some (np_unique (map Loc.longitude loc)).
Proof.
  intros Hrun.
  apply status_returns in Hrun as (s0 & u & s1 & Hself0 & _ & Hbody & Hself' & _).
  apply bind_returns in Hbody as (w & s2 & H0 & Hbody).
  unfold get_world in H0. injection H0 as _ <-.
  apply bind_returns in Hbody as ([] & s2 & H1 & Hbody).
  apply bind_returns in Hbody as ([] & s3 & H2 & Hbody).
  apply bind_returns in Hbody as (x & s4 & H3 & H5).
  apply genfromtxt_returns in H3 as [-> [rows Hrows]].
  cbn in H5. injection H5 as Hs1. subst s1.
  exists (np_float w), rows, x. split; [exact Hrows|].
  rewrite Hself'. cbn. repeat split.
Qed.

Lemma np_unique_distinct xs : distinct_values xs (Some (np_unique xs)).
Proof.
  exists (np_unique xs). destruct (np_unique_spec xs) as (H1 & H2 & _).
  repeat split; try assumption; apply H2.
Qed.

Lemma as_locations_holds coordinate rows loc o :
  as_locations coordinate rows = Return loc ->
  location_data o = Some loc ->
  city o = Some (np_unique (map (fun r => PyStr (Loc.city r)) loc)) ->
  state o = Some (np_unique (map (fun r => PyStr (Loc.state r)) loc)) ->
  postal_code o = Some (np_unique (map (fun r => PyStr (Loc.postal_code r)) loc)) ->
  latitude o = Some (np_unique (map Loc.latitude loc)) ->
  longitude o = Some (np_unique (map Loc.longitude loc)) ->
  holds_locations loc o.
Proof.
  intros Hrows H0 H1 H2 H3 H4 H5. apply as_locations_lengths in Hrows.
  unfold holds_locations. rewrite H1, H2, H3, H4, H5.
  split; [exact H0|]. split.
  { eapply Forall_impl; [|exact Hrows]. cbn. intros r (A & B & C & _). auto. }
  repeat split; apply np_unique_distinct.
Qed.

(** [load_locations], when it returns, has stored the records with the
    postal code cut to 5 characters, the city to 30 and the state to 2, and
    each of the fields [city], [state], [postal_code], [latitude] and
    [longitude] holds the values of the records' column, each one once.  In
    variant A the coordinates are texts of at most 9 characters; in variant B
    they are floats. *)
Theorem load_locations_stores_distinct_values :
  (forall s v s',
      Db.load_locations s = (Return v, s') ->
      exists loc,
        holds_locations loc (self s')
        /\ Forall (fun r => exists a b,
                       Loc.latitude r = PyStr a /\ Loc.longitude r = PyStr b
                       /\ (String.length a <= 9)%nat
                       /\ (String.length b <= 9)%nat) loc)
  /\ (forall s v s',
         Server.load_locations s = (Return v, s') ->
         exists loc,
           holds_locations loc (self s')
           /\ Forall (fun r => exists a b,
                          Loc.latitude r = PyFloat a /\ Loc.longitude r = PyFloat b)
                     loc).
Proof.
  split; intros s v s' Hrun.
  - apply db_load_locations_rows in Hrun
      as (rows & loc & Hrows & H0 & H1 & H2 & H3 & H4 & H5).
    exists loc. split; [exact (as_locations_holds _ rows loc _ Hrows H0 H1 H2 H3 H4 H5)|].
    apply as_locations_lengths in Hrows.
    eapply Forall_impl; [|exact Hrows]. cbn.
    intros r (_ & _ & _ & a & b & Ha & Hb). exists (U 9 a), (U 9 b).
    repeat split; try assumption; apply substring_length_le.
  - apply server_load_locations_rows in Hrun
      as (f & rows & loc & Hrows & H0 & H1 & H2 & H3 & H4 & H5).
    exists loc. split; [exact (as_locations_holds _ rows loc _ Hrows H0 H1 H2 H3 H4 H5)|].
    apply as_locations_lengths in Hrows.
    eapply Forall_impl; [|exact Hrows]. cbn.
    intros r (_ & _ & _ & a & b & Ha & Hb). now exists (f a), (f b).
Qed.

Lemma load_locations_stores_distinct_values_witness :
  exists loc,
    holds_locations loc (self (snd (Db.load_locations Sample.start_a)))
    /\ Forall (fun r => exists a b,
                   Loc.latitude r = PyStr a /\ Loc.longitude r = PyStr b
                   /\ (String.length a <= 9)%nat /\ (String.length b <= 9)%nat) loc.
Proof.
  apply (proj1 load_locations_stores_distinct_values Sample.start_a PyNone).
  vm_compute. reflexivity.
Defined.

(** ** The ids written by [idx_sub] *)

Lemma last_match_spec e values :
  forall k found,
    (Forall (fun v => Db.mask_eq e v = false) values
     /\ Db.last_match e k values found = found)
    \/ (exists p v,
           nth_error values p = Some v /\ Db.mask_eq e v = true
           /\ (forall q v', (p < q)%nat -> nth_error values q = Some v' ->
                            Db.mask_eq e v' = false)
           /\ Db.last_match e k values found = Some (k + Z.of_nat p)).
Proof.
  induction values as [|v vs IH]; intros k found; cbn [Db.last_match].
  - left. now split.
  - destruct (IH (k + 1) (if Db.mask_eq e v then Some k else found))
      as [[Hall E] | (p & v' & Hp & Hm & Hlater & E)].
    + destruct (Db.mask_eq e v) eqn:Ev.
      * right. exists O, v. repeat split; try assumption.
        -- intros [|q] v' Hq Hn; [lia|]. cbn in Hn.
           rewrite Forall_forall in Hall. apply Hall.
           eapply nth_error_In. exact Hn.
        -- rewrite E. f_equal. lia.
      * left. split; [now constructor | exact E].
    + right. exists (S p), v'. repeat split; try assumption.
      * intros [|q] v'' Hq Hn; [lia|]. cbn in Hn. apply (Hlater q); [lia | exact Hn].
      * rewrite E. f_equal. lia.
Qed.

Lemma index_of_lt name names :
  forall i, index_of name names = Some i -> (i < List.length names)%nat.
Proof.
  induction names as [|x names IH]; intros i H; cbn in H; [discriminate|].
  destruct (String.eqb x name).
  - injection H as <-. cbn. lia.
  - destruct (index_of name names) as [j|]; [|discriminate].
    cbn in H. injection H as <-. cbn. specialize (IH j eq_refl). lia.
Qed.

Lemma nth_error_set_nth i v (a : list string) :
  (i < List.length a)%nat -> nth_error (Db.set_nth i v a) i = Some v.
Proof.
  revert a. induction i as [|i IH]; intros [|x a] H; cbn in *; try lia;
    [reflexivity|]. apply IH. lia.
Qed.

Lemma Forall2_map_r {A B} (R : A -> B -> Prop) (f : A -> B) l :
  (forall x, In x l -> R x (f x)) -> Forall2 R l (map f l).
Proof.
  induction l as [|x l IH]; intros H; cbn; constructor.
  - apply H. now left.
  - apply IH. intros y Hy. apply H. now right.
Qed.


